(** * Monthly portfolio disclosures: aggregation pipeline and read-back

    A shallow embedding of [aggregate_portfolio.py] (header normaliser,
    section extractor, cross-period merge, period ordering, sheet assembly),
    of [read_portfolio_data] in [web_app/app.py] and of
    [.github/ppfas_downloader.py], with the properties of the specification
    stated over it.

    Conventions of the embedding.
    - A Python value that can sit in a cell or a dictionary slot is a
      [pyval]: [None], a text, or a binary64 number.  pandas delivers a blank
      cell as the number NaN, so "blank" is [VNum nan].
    - Text is a [string] whose characters are the code points U+0000 to
      U+00FF; [lower], [strip], [split] and [isdigit] follow Python on that
      range.
    - What [pd.read_excel] hands over is an input: for an input file the
      frame read with [header=None] and the frame read again with the header
      row, for the saved workbook the two frames that [read_portfolio_data]
      reads.  How a sheet written with openpyxl comes back through
      [read_excel] is modelled apart ([read_excel] below), for the
      properties that follow a sheet from the assembler to the read-back.
    - A data-frame row is the list of its (label, value) pairs.  A label can
      be on several columns: a lookup by label then answers with all their
      cells, as pandas answers with a Series.
    - [str] of a number or of a Series, [float] of a text, the type
      inference of the pandas parser and [urljoin] are library functions
      that the repository does not define: they are parameters
      ([float_repr], [series_repr], [float_of_text], [infer_types],
      [urljoin]) of the sections that need them. *)

From Stdlib Require Import Floats.PrimFloat.
From Stdlib Require Import ZArith Ascii String.
From Stdlib Require Import DecimalString DecimalNat.
From stdpp Require Import base option list gmap strings sorting.

#[local] Set Warnings "-clear-no-such-hyp,-abstract-large-number".

Open Scope string_scope.
Open Scope list_scope.

(** ** Python values *)

Inductive pyval : Type :=
| VNone
| VStr (s : string)
| VNum (x : float).

Definition blank : pyval := VNum PrimFloat.nan.

(** [pd.notna(v)] *)
Definition notna (v : pyval) : bool :=
  match v with
  | VNone => false
  | VStr _ => true
  | VNum x => negb (PrimFloat.is_nan x)
  end.

Definition isna (v : pyval) : bool := negb (notna v).

(** Truth value of [v] as Python's [if v] / [not v] take it. *)
Definition truthy (v : pyval) : bool :=
  match v with
  | VNone => false
  | VStr s => negb (String.eqb s "")
  | VNum x => negb (PrimFloat.eqb x PrimFloat.zero)
  end.

Definition is_none (v : pyval) : bool :=
  match v with VNone => true | _ => false end.

(** ** Text *)

Module Text.

Definition nl : ascii := "010"%char.
Definition sp : ascii := " "%char.

Definition code (c : ascii) : nat := nat_of_ascii c.

(** [str.lower] on one character: the capitals are A-Z and the Latin-1
    range U+00C0..U+00DE without the multiplication sign U+00D7; the small
    letter is 32 code points further. *)
Definition is_upper (c : ascii) : bool :=
  let n := code c in
  ((65 <=? n) && (n <=? 90)
   || (192 <=? n) && (n <=? 222) && negb (n =? 215))%nat.

Definition lower_char (c : ascii) : ascii :=
  if is_upper c then ascii_of_nat (code c + 32) else c.

(** [str.isspace] on one character. *)
Definition is_space (c : ascii) : bool :=
  let n := code c in
  ((9 <=? n) && (n <=? 13) || (28 <=? n) && (n <=? 32)
   || (n =? 133) || (n =? 160))%nat.

Fixpoint map_chars (f : ascii -> ascii) (s : string) : string :=
  match s with
  | EmptyString => EmptyString
  | String c t => String (f c) (map_chars f t)
  end.

Definition lower (s : string) : string := map_chars lower_char s.

(** [s.replace(a, b)] for one-character [a] and [b]. *)
Definition replace_char (a b : ascii) (s : string) : string :=
  map_chars (fun c => if Ascii.eqb c a then b else c) s.

Fixpoint lstrip (s : string) : string :=
  match s with
  | EmptyString => EmptyString
  | String c t => if is_space c then lstrip t else s
  end.

Fixpoint rstrip (s : string) : string :=
  match s with
  | EmptyString => EmptyString
  | String c t =>
      match rstrip t with
      | EmptyString => if is_space c then EmptyString else String c EmptyString
      | t' => String c t'
      end
  end.

Definition strip (s : string) : string := rstrip (lstrip s).

(** [p in s] *)
Fixpoint contains (p s : string) : bool :=
  String.prefix p s ||
  match s with
  | EmptyString => false
  | String _ t => contains p t
  end.

(** [s.split()] : the maximal runs of non-blank characters.  [cur] holds
    the run being read, reversed. *)
Fixpoint split_ws_aux (cur : list ascii) (s : string) : list string :=
  let flush := match cur with
               | [] => []
               | _ => [string_of_list_ascii (rev cur)]
               end in
  match s with
  | EmptyString => flush
  | String c t =>
      if is_space c then flush ++ split_ws_aux [] t
      else split_ws_aux (c :: cur) t
  end.

Definition split_ws (s : string) : list string := split_ws_aux [] s.

(** [sep.join(parts)] *)
Fixpoint join (sep : string) (parts : list string) : string :=
  match parts with
  | [] => ""
  | [p] => p
  | p :: rest => p +:+ sep +:+ join sep rest
  end.

(** [s.split(sep)] for a one-character separator: never empty. *)
Fixpoint split_on_aux (sep : ascii) (cur : list ascii) (s : string) : list string :=
  match s with
  | EmptyString => [string_of_list_ascii (rev cur)]
  | String c t =>
      if Ascii.eqb c sep
      then string_of_list_ascii (rev cur) :: split_on_aux sep [] t
      else split_on_aux sep (c :: cur) t
  end.

Definition split_on (sep : ascii) (s : string) : list string :=
  split_on_aux sep [] s.

(** [s.replace(old, "")] : left to right, occurrences do not overlap.
    [skip] counts the characters of a match still to be dropped. *)
Fixpoint remove_all_aux (old : string) (skip : nat) (s : string) : string :=
  match s with
  | EmptyString => EmptyString
  | String c t =>
      match skip with
      | S k => remove_all_aux old k t
      | O =>
          if String.prefix old s
          then remove_all_aux old (String.length old - 1) t
          else String c (remove_all_aux old O t)
      end
  end.

Definition remove_all (old s : string) : string :=
  if String.eqb old "" then s else remove_all_aux old O s.

Definition mem (s : string) (l : list string) : bool :=
  existsb (String.eqb s) l.

Fixpoint index_of (s : string) (l : list string) : option nat :=
  match l with
  | [] => None
  | x :: t => if String.eqb s x then Some O else S <$> index_of s t
  end.

End Text.

(** ** Header normaliser *)

Definition COLUMN_MAPPING_values : list string :=
  ["Name"; "ISIN"; "Rating"; "Quantity"; "MarketValue"; "PctAssets"].

(** [header.lower().replace('\n', ' ').strip()] *)
Definition header_text (header : string) : string :=
  Text.strip (Text.replace_char Text.nl Text.sp (Text.lower header)).

Definition normalize_header (header : pyval) : string :=
  match header with
  | VStr s =>
      let h := header_text s in
      if Text.contains "instrument" h then "Name"
      else if Text.contains "isin" h then "ISIN"
      else if Text.contains "industry" h || Text.contains "rating" h then "Rating"
      else if Text.contains "quantity" h then "Quantity"
      else if Text.contains "market value" h || Text.contains "rs. in lakhs" h
           then "MarketValue"
      else if Text.contains "% to net assets" h || Text.contains "percentage" h
              || Text.contains "%" h
           then "PctAssets"
      else s
  | _ => ""
  end.

(** The renaming loop of [read_portfolio_file]: a column is renamed to the
    normalised header when that is one of the canonical names. *)
Definition rename_label (col : pyval) : pyval :=
  let cleaned := normalize_header col in
  if Text.mem cleaned COLUMN_MAPPING_values then VStr cleaned else col.

(** ** Rows and frames *)

(** A row of a frame ([pandas.Series]): the labelled cells, in column
    order. *)
Definition series : Type := list (pyval * pyval).

(** The cells of a row on the columns labelled [name]. *)
Fixpoint cells_under (name : string) (row : series) : list pyval :=
  match row with
  | [] => []
  | (VStr l, v) :: rest =>
      if String.eqb l name then v :: cells_under name rest
      else cells_under name rest
  | _ :: rest => cells_under name rest
  end.

(** What a lookup by label answers with: one cell, or, when the label is
    on several columns, the Series of their cells. *)
Inductive got : Type :=
| One (v : pyval)
| Several (vs : list pyval).

(** [row.get(name, default)] *)
Definition row_get (name : string) (default : pyval) (row : series) : got :=
  match cells_under name row with
  | [] => One default
  | [v] => One v
  | vs => Several vs
  end.

(** [row.values] *)
Definition row_values (row : series) : list pyval := map snd row.

(** A worksheet as read with [header=None]: rows of cells. *)
Definition sheet : Type := list (list pyval).

(** A frame read with a header row: the column labels and the rows below
    the header. *)
Record frame : Type := mkFrame {
  columns : list pyval;
  frame_body : sheet
}.

(** What pandas hands over for one input file: the frame of
    [read_excel(filepath, header=None)], and for a row index the frame of
    [read_excel(filepath, header=index)], [None] when that read raises. *)
Record workbook : Type := mkWorkbook {
  df_raw : sheet;
  df_header : nat -> option frame
}.

(** Two column labels are the same label. *)
Definition same_label (a b : pyval) : bool :=
  match a, b with
  | VNone, VNone => true
  | VStr s, VStr t => String.eqb s t
  | VNum x, VNum y =>
      PrimFloat.eqb x y || (PrimFloat.is_nan x && PrimFloat.is_nan y)
  | _, _ => false
  end.

(** [Index.is_unique] *)
Fixpoint is_unique (labels : list pyval) : bool :=
  match labels with
  | [] => true
  | a :: rest => negb (existsb (same_label a) rest) && is_unique rest
  end.

(** The cell of a lookup in the rows that [main] iterates over.  They are
    rows of a frame that [read_portfolio_file] returned, whose labels are
    distinct ([returned_rows_unique] below), so every lookup there is one
    cell; the other case is not reached. *)
Definition the_cell (g : got) : pyval :=
  match g with
  | One v => v
  | Several _ => VNone
  end.

(** What one record hands to the merge loop: [row\['ISIN'\]] and the five
    [row.get(...)] lookups. *)
Record ExtractedRecord : Type := mkRecord {
  r_ISIN : pyval;
  r_Name : pyval;
  r_Rating : pyval;
  r_Quantity : pyval;
  r_MarketValue : pyval;
  r_PctAssets : pyval
}.

Definition record_of_row (row : series) : ExtractedRecord :=
  {| r_ISIN := the_cell (row_get "ISIN" VNone row);
     r_Name := the_cell (row_get "Name" VNone row);
     r_Rating := the_cell (row_get "Rating" VNone row);
     r_Quantity := the_cell (row_get "Quantity" VNone row);
     r_MarketValue := the_cell (row_get "MarketValue" VNone row);
     r_PctAssets := the_cell (row_get "PctAssets" VNone row) |}.

(** ** The merged mapping *)

Record metrics : Type := mkMetrics {
  Quantity : pyval;
  MarketValue : pyval;
  PctAssets : pyval
}.

Record entry : Type := mkEntry {
  Name : pyval;
  Rating : pyval;
  Months : gmap string metrics
}.

(** [portfolio]: a Python [dict], which keeps its keys in insertion
    order. *)
Definition portfolio : Type := list (string * entry).

Module Dict.

Fixpoint get {A} (k : string) (d : list (string * A)) : option A :=
  match d with
  | [] => None
  | (k', v) :: rest => if String.eqb k k' then Some v else get k rest
  end.

Definition has {A} (k : string) (d : list (string * A)) : bool :=
  match get k d with Some _ => true | None => false end.

(** [d\[k\] = f(d\[k\])] for a key that is present; the key keeps its
    place. *)
Fixpoint alter {A} (f : A -> A) (k : string) (d : list (string * A))
  : list (string * A) :=
  match d with
  | [] => []
  | (k', v) :: rest =>
      if String.eqb k k' then (k', f v) :: rest
      else (k', v) :: alter f k rest
  end.

Definition keys {A} (d : list (string * A)) : list string := map fst d.

End Dict.

Section Pipeline.

(** [str(x)] of a number [x] that is not NaN. *)
Variable float_repr : float -> string.
(** [float(s)] of a text [s]; [None] when Python raises [ValueError]. *)
Variable float_of_text : string -> option float.
(** [str(s)] of the Series that a lookup in the row of index [idx] answers
    with when its label is on several columns, from the cells. *)
Variable series_repr : nat -> list pyval -> string.
(** The type inference of the pandas parser on the rows of a frame (a
    column of texts that all read as numbers becomes a column of
    numbers). *)
Variable infer_types : sheet -> sheet.

Definition py_str (v : pyval) : string :=
  match v with
  | VNone => "None"
  | VStr s => s
  | VNum x => if PrimFloat.is_nan x then "nan" else float_repr x
  end.

(** [float(v)]; [None] when Python raises. *)
Definition py_float (v : pyval) : option float :=
  match v with
  | VNone => None
  | VStr s => float_of_text s
  | VNum x => Some x
  end.

(** [str(g)] of what a lookup in the row of index [idx] answered with. *)
Definition str_got (idx : nat) (g : got) : string :=
  match g with
  | One v => py_str v
  | Several vs => series_repr idx vs
  end.

(** *** Section extractor: [read_portfolio_file] *)

Definition is_header_row (row : list pyval) : bool :=
  let row_vals := map (fun x => Text.lower (py_str x)) row in
  existsb (Text.contains "isin") row_vals
  && existsb (Text.contains "quantity") row_vals.

(** The loop over [df_raw.iterrows()]: the index of the first header row,
    counted from [i]. *)
Fixpoint find_header_from (i : nat) (rows : sheet) : option nat :=
  match rows with
  | [] => None
  | row :: rest =>
      if is_header_row row then Some i else find_header_from (S i) rest
  end.

Definition find_header (df_raw : sheet) : option nat :=
  find_header_from 0 df_raw.

Definition start_marker : string :=
  "(a) Listed / awaiting listing on Stock Exchanges".
Definition stop_markers : list string :=
  ["Arbitrage"; "Sub Total"; "Total"; "Debt"; "Cash"; "Grand Total"].

(** [content_lower] of one turn of [for idx, row in df.iterrows()]. *)
Definition content_lower (ir : nat * series) : string :=
  let content_check := str_got ir.1 (row_get "Name" (VStr "") ir.2) in
  let content_check :=
    if String.eqb content_check ""
       || String.eqb (Text.lower content_check) "nan"
    then Text.join " " (map py_str (row_values ir.2))
    else content_check in
  Text.join " " (Text.split_ws (Text.lower content_check)).

Definition is_start (ir : nat * series) : bool :=
  let c := content_lower ir in
  Text.contains "(a) listed" c && Text.contains "stock" c.

Definition is_stop (ir : nat * series) : bool :=
  let c := content_lower ir in
  existsb (fun m => Text.contains (Text.lower m) c) stop_markers.

(** The test on [isin = row.get('ISIN')]; [None] when it raises: the truth
    value of a Series, which [pd.notna] answers with when the label is on
    several columns, is a [ValueError]. *)
Definition has_isin (row : series) : option bool :=
  match row_get "ISIN" VNone row with
  | One isin =>
      Some (notna isin
            && negb (String.eqb (Text.strip (py_str isin)) "")
            && negb (String.eqb (Text.lower (py_str isin)) "nan"))
  | Several _ => None
  end.

(** The row loop; [capturing] is the loop's flag, the [break] ends the
    recursion, and [None] is an exception. *)
Fixpoint scan (capturing : bool) (rows : list (nat * series))
  : option (list series) :=
  match rows with
  | [] => Some []
  | ir :: rest =>
      if is_start ir then scan true rest
      else if capturing then
        if is_stop ir then Some []
        else
          match has_isin ir.2 with
          | None => None
          | Some true => cons ir.2 <$> scan true rest
          | Some false => scan true rest
          end
      else scan false rest
  end.

(** The labels of the frame after [df.rename(columns=new_cols)]. *)
Definition renamed_columns (df : frame) : list pyval :=
  map rename_label (columns df).

(** The rows of the frame under the renamed labels, and
    [df.iterrows()]: each with its index. *)
Definition frame_rows (df : frame) : list series :=
  map (fun cells => combine (renamed_columns df) cells) (frame_body df).

Definition iterrows (df : frame) : list (nat * series) :=
  imap (fun idx row => (idx, row)) (frame_rows df).

(** [pd.DataFrame(filtered_rows)]: no row gives the empty frame; rows
    whose labels are not distinct cannot be aligned, which raises. *)
Definition data_frame (labels : list pyval) (filtered_rows : list series)
  : option (list series) :=
  match filtered_rows with
  | [] => Some []
  | _ => if is_unique labels then Some filtered_rows else None
  end.

(** A file that cannot be read is [None]; the answer is [None] for it,
    for a sheet without header row, and whenever an exception is raised
    inside the [try]. *)
Definition read_portfolio_file (file : option workbook) : option (list series) :=
  match file with
  | None => None
  | Some book =>
      match find_header (df_raw book) with
      | None => None
      | Some header_row_idx =>
          df ← df_header book header_row_idx;
          filtered_rows ← scan false (iterrows df);
          data_frame (renamed_columns df) filtered_rows
      end
  end.

(** *** Merge loop of [main] *)

Definition new_entry (r : ExtractedRecord) : entry :=
  {| Name := r_Name r; Rating := r_Rating r; Months := ∅ |}.

Definition update_name (r : ExtractedRecord) (e : entry) : entry :=
  if negb (truthy (Name e)) && notna (r_Name r)
  then {| Name := r_Name r; Rating := Rating e; Months := Months e |}
  else e.

Definition record_metrics (r : ExtractedRecord) : metrics :=
  {| Quantity := r_Quantity r;
     MarketValue := r_MarketValue r;
     PctAssets := r_PctAssets r |}.

Definition write_month (fname : string) (r : ExtractedRecord) (e : entry) : entry :=
  {| Name := Name e; Rating := Rating e;
     Months := <[fname := record_metrics r]> (Months e) |}.

Definition record_key (r : ExtractedRecord) : string :=
  Text.strip (py_str (r_ISIN r)).

(** One turn of [for _, row in df.iterrows()]. *)
Definition merge_record (fname : string) (p : portfolio) (r : ExtractedRecord)
  : portfolio :=
  let isin := record_key r in
  let p1 := if Dict.has isin p then p else p ++ [(isin, new_entry r)] in
  let p2 := Dict.alter (update_name r) isin p1 in
  Dict.alter (write_month fname r) isin p2.

Definition merge_records (fname : string) (p : portfolio)
    (rs : list ExtractedRecord) : portfolio :=
  fold_left (merge_record fname) rs p.

(** [os.path.basename(f).replace(".xls", "").replace(".xlsx", "")],
    from the base name. *)
Definition period_label (base : string) : string :=
  Text.remove_all ".xlsx" (Text.remove_all ".xls" base).

(** A file: its base name and what pandas reads from it, [None] when the
    first read raises. *)
Definition file : Type := string * option workbook.

(** One turn of [for f in files]. *)
Definition process_file (st : gset string * portfolio) (f : file)
  : gset string * portfolio :=
  let fname := period_label f.1 in
  let all_months := {[fname]} ∪ st.1 in
  match read_portfolio_file f.2 with
  | None => (all_months, st.2)
  | Some df =>
      (all_months, merge_records fname st.2 (map record_of_row df))
  end.

Definition process_files (files : list file) : gset string * portfolio :=
  fold_left process_file files (∅, []).

(** *** Period ordering: [sort_months_key] and [sorted] *)

Definition month_order : list string :=
  ["January"; "February"; "March"; "April"; "May"; "June";
   "July"; "August"; "September"; "October"; "November"; "December"].

(** [c.isdigit()] for one character: 0-9 and the superscripts U+00B2,
    U+00B3, U+00B9. *)
Definition is_digit_char (c : ascii) : bool :=
  let n := Text.code c in
  ((48 <=? n) && (n <=? 57) || (n =? 178) || (n =? 179) || (n =? 185))%nat.

Fixpoint all_chars (f : ascii -> bool) (s : string) : bool :=
  match s with
  | EmptyString => true
  | String c t => f c && all_chars f t
  end.

(** [y.isdigit()] *)
Definition py_isdigit (y : string) : bool :=
  negb (String.eqb y "") && all_chars is_digit_char y.

Fixpoint int_of_digits (acc : Z) (y : string) : option Z :=
  match y with
  | EmptyString => Some acc
  | String c t =>
      let n := Text.code c in
      if ((48 <=? n) && (n <=? 57))%nat
      then int_of_digits (10 * acc + Z.of_nat (n - 48)) t
      else None
  end.

(** [int(y)] for a [y] that passed [isdigit]; [None] when Python raises
    (a superscript digit).  The limit that Python puts, from 3.11 on, on
    the number of digits (4300) is not part of it: a label is the name of
    a file. *)
Definition py_int (y : string) : option Z := int_of_digits 0 y.

(** The [try] body reaches its [return] (first component evaluated
    first) or raises; every exception gives [(9999, 99)]. *)
Definition sort_months_key (m_str : string) : Z * Z :=
  if Text.contains "_" m_str then
    match Text.split_on "_" m_str with
    | [m; y] =>
        let year := if py_isdigit y then py_int y else Some 9999%Z in
        let month := match Text.index_of m month_order with
                     | Some i => Z.of_nat i
                     | None => 99%Z
                     end in
        match year with
        | Some yr => (yr, month)
        | None => (9999, 99)%Z
        end
    | _ => (9999, 99)%Z
    end
  else (9999, 99)%Z.

(** Order of Python tuples of two integers. *)
Definition key_leb (a b : Z * Z) : bool :=
  (a.1 <? b.1)%Z || ((a.1 =? b.1)%Z && (a.2 <=? b.2)%Z).

Definition key_ltb (a b : Z * Z) : bool := negb (key_leb b a).

(** [sorted(l, key=key)]: the stable sort, here by insertion from the
    right. *)
Fixpoint insert_by {A} (key : A -> Z * Z) (x : A) (l : list A) : list A :=
  match l with
  | [] => [x]
  | y :: t =>
      if key_leb (key x) (key y) then x :: y :: t
      else y :: insert_by key x t
  end.

Fixpoint sorted_by {A} (key : A -> Z * Z) (l : list A) : list A :=
  match l with
  | [] => []
  | x :: t => insert_by key x (sorted_by key t)
  end.

(** [sorted(list(all_months), key=sort_months_key)]; the set is listed in
    an order of its own. *)
Definition sorted_months (all_months : gset string) : list string :=
  sorted_by sort_months_key (elements all_months).

(** *** Sheet assembly of [main] *)

Definition headers_static : list string :=
  ["Name of the Instrument"; "ISIN"; "Industry/Rating"].

Definition sub_headers : list string :=
  ["Quantity"; "Market Value (Rs. Lakhs)"; "% Net Assets"].

(** [write_val]: the amount added to the column total, and the value
    written to the cell. *)
Definition write_val (raw_val : pyval) : float * pyval :=
  let v_float := default PrimFloat.zero (py_float raw_val) in
  (v_float, if is_none raw_val then VNone else VNum v_float).

(** [m_data.get(key)] for [m_data = data\['Months'\].get(m, {})] *)
Definition node (data : entry) (m : string) (key : metrics -> pyval) : pyval :=
  match Months data !! m with
  | Some m_data => key m_data
  | None => VNone
  end.

(** The three [write_val] calls of one month group. *)
Definition month_cells (data : entry) (m : string) : list (float * pyval) :=
  [write_val (node data m Quantity);
   write_val (node data m MarketValue);
   write_val (node data m PctAssets)].

Definition row_cells (months : list string) (data : entry) : list (float * pyval) :=
  flat_map (month_cells data) months.

(** [column_totals\[c_idx\] += v_float] over one row; the list holds the
    totals of columns 4, 5, ... in order. *)
Definition add_to_totals (column_totals : list float)
    (cells : list (float * pyval)) : list float :=
  zip_with PrimFloat.add column_totals (cells.*1).

Definition data_row (months : list string) (item : string * entry) : list pyval :=
  [Name item.2; VStr item.1; Rating item.2] ++ (row_cells months item.2).*2.

Definition column_totals (months : list string) (p : portfolio) : list float :=
  fold_left (fun totals item => add_to_totals totals (row_cells months item.2))
            p (replicate (3 * length months) PrimFloat.zero).

(** The cells of the worksheet, row by row: title, the two header rows,
    one row per dictionary item, the totals row.  A cell never written
    is [VNone]. *)
Definition build_sheet (months : list string) (p : portfolio) : sheet :=
  [ VStr "PPFAS Flexi cap Fund" :: replicate (2 + 3 * length months) VNone;
    (VStr <$> headers_static)
      ++ flat_map (fun m => [VStr m; VNone; VNone]) months;
    replicate 3 VNone ++ flat_map (fun _ => VStr <$> sub_headers) months ]
  ++ map (data_row months) p
  ++ [ [VStr "Total"; VNone; VNone] ++ (VNum <$> column_totals months p) ].

(** The whole of [main] up to the saved sheet; [None] when there is no
    input file. *)
Definition main (files : list file) : option sheet :=
  match files with
  | [] => None
  | _ =>
      let st := process_files files in
      Some (build_sheet (sorted_months st.1) st.2)
  end.

(** *** Read-back: [read_portfolio_data] of the web application *)

(** The texts [pandas.read_excel] counts as missing by default. *)
Definition na_texts : list string :=
  [""; "#N/A"; "#N/A N/A"; "#NA"; "-1.#IND"; "-1.#QNAN"; "-NaN"; "-nan";
   "1.#IND"; "1.#QNAN"; "<NA>"; "N/A"; "NA"; "NULL"; "NaN"; "None";
   "n/a"; "nan"; "null"].

(** The texts that openpyxl stores as error values. *)
Definition ERROR_CODES : list string :=
  ["#NULL!"; "#DIV/0!"; "#VALUE!"; "#REF!"; "#NAME?"; "#NUM!"; "#N/A"].

(** A text that openpyxl stores as a formula: longer than one character
    and starting with the equals sign. *)
Definition is_formula (s : string) : bool :=
  (1 <? String.length s)%nat && String.prefix "=" s.

Definition is_finite (x : float) : bool :=
  negb (PrimFloat.is_nan x) && negb (PrimFloat.is_infinity x).

(** The control characters that openpyxl refuses in a text. *)
Definition is_illegal_char (c : ascii) : bool :=
  let n := Text.code c in
  ((n <=? 8) || (n =? 11) || (n =? 12) || (14 <=? n) && (n <=? 31))%nat.

(** A value that [ws.cell] takes as it is: a text of at most 32767
    characters, none of them refused.  (A longer text is cut, and a
    refused character raises, which ends [main] before the workbook is
    saved.) *)
Definition accepted (c : pyval) : bool :=
  match c with
  | VStr s =>
      (String.length s <=? 32767)%nat
      && all_chars (fun c => negb (is_illegal_char c)) s
  | _ => true
  end.

Definition accepted_sheet (ws : sheet) : bool := forallb (forallb accepted) ws.

(** What the reader finds in a cell of the saved workbook that
    [ws.cell] wrote the accepted value [c] to; [None] is a cell without
    value.  A formula has no stored result, an error value is read as NaN,
    the empty text and a number that is not finite are saved without
    value. *)
Definition saved_cell (c : pyval) : pyval :=
  match c with
  | VNone => VNone
  | VStr s =>
      if String.eqb s "" || is_formula s then VNone
      else if Text.mem s ERROR_CODES then blank
      else c
  | VNum x => if is_finite x then c else VNone
  end.

(** What the parser makes of a cell: a cell without value, and a text
    that counts as missing, is NaN. *)
Definition na_cell (c : pyval) : pyval :=
  match c with
  | VNone => blank
  | VStr s => if Text.mem s na_texts then blank else c
  | VNum _ => c
  end.

(** Both steps: the cell that [ws.cell] wrote, as [read_excel] hands it
    over before type inference. *)
Definition read_cell (c : pyval) : pyval := na_cell (saved_cell c).

(** Trailing cells without value are taken off a row. *)
Fixpoint trim_row (row : list pyval) : list pyval :=
  match row with
  | [] => []
  | c :: rest =>
      match trim_row rest with
      | [] => if is_none c then [] else [c]
      | rest' => c :: rest'
      end
  end.

(** Trailing rows without cells are taken off. *)
Fixpoint trim_rows (data : sheet) : sheet :=
  match data with
  | [] => []
  | row :: rest =>
      match trim_rows rest with
      | [] => match row with [] => [] | _ => [row] end
      | rest' => row :: rest'
      end
  end.

Definition pad_row (max_width : nat) (row : list pyval) : list pyval :=
  row ++ replicate (max_width - length row) VNone.

(** [get_sheet_data] of the reader: the rows of the sheet (the first
    [file_rows_needed] when that is given), each without its trailing
    empty cells, without the trailing empty rows, padded to the width of
    the longest. *)
Definition get_sheet_data (file_rows_needed : option nat) (ws : sheet) : sheet :=
  let rows := match file_rows_needed with
              | Some n => take n ws
              | None => ws
              end in
  let data := trim_rows (map (fun row => trim_row (map saved_cell row)) rows) in
  let max_width := foldr Nat.max 0%nat (length <$> data) in
  map (pad_row max_width) data.

(** The parser drops a line that has no cell, or one cell that is an empty
    or blank text. *)
Definition keep_line (line : list pyval) : bool :=
  match line with
  | [] => false
  | [VNone] => false
  | [VStr s] => negb (String.eqb (Text.strip s) "")
  | _ => true
  end.

(** The rows of [pd.read_excel(EXCEL_PATH, header=None, skiprows=...,
    nrows=...)] on a workbook saved from the sheet [ws], before type
    inference. *)
Definition parse_lines (skiprows : nat) (nrows : option nat) (ws : sheet) : sheet :=
  let data := get_sheet_data ((fun n => skiprows + n)%nat <$> nrows) ws in
  let lines := List.filter keep_line (drop skiprows data) in
  let lines := match nrows with
               | Some n => take n lines
               | None => lines
               end in
  map (map na_cell) lines.

Definition read_excel (skiprows : nat) (nrows : option nat) (ws : sheet) : sheet :=
  infer_types (parse_lines skiprows nrows ws).

Definition pyval_eqb (a b : pyval) : bool :=
  match a, b with
  | VNone, VNone => true
  | VStr s, VStr t => String.eqb s t
  | VNum x, VNum y => PrimFloat.eqb x y
  | _, _ => false
  end.

(** [d\[k\] = v] on a dictionary with arbitrary keys. *)
Fixpoint dict_set {A} (k : pyval) (v : A) (d : list (pyval * A))
  : list (pyval * A) :=
  match d with
  | [] => [(k, v)]
  | (k', v') :: rest =>
      if pyval_eqb k k' then (k', v) :: rest
      else (k', v') :: dict_set k v rest
  end.

Record rb_metrics : Type := mkReadMetrics {
  rb_Quantity : float;
  rb_Value : float;
  rb_Pct : float
}.

Record rb_record : Type := mkReadRecord {
  rb_Name : pyval;
  rb_ISIN : string;
  rb_Rating : string;
  rb_Months : list (pyval * rb_metrics)
}.

Record rb_data : Type := mkReadData {
  rb_months : list pyval;
  rb_records : list rb_record
}.

(** [range(3, len(month_row), 3)] read off the row: [skip] cells are
    passed over before the next one is taken. *)
Fixpoint every_third (skip : nat) (month_row : list pyval) : list pyval :=
  match month_row with
  | [] => []
  | val :: rest =>
      match skip with
      | O => val :: every_third 2 rest
      | S k => every_third k rest
      end
  end.

Definition clean_meta (val : pyval) : string :=
  if isna val || String.eqb (Text.lower (py_str val)) "nan" then ""
  else py_str val.

Definition clean (val : pyval) : float :=
  if isna val || pyval_eqb val (VStr "") then PrimFloat.zero
  else default PrimFloat.zero (py_float val).

(** The loop [for m in months] of one row; a missing column raises, which
    is [None]. *)
Fixpoint read_months (row : list pyval) (col_idx : nat) (months : list pyval)
    (acc : list (pyval * rb_metrics)) : option (list (pyval * rb_metrics)) :=
  match months with
  | [] => Some acc
  | m :: rest =>
      qty ← row !! col_idx;
      val ← row !! (col_idx + 1);
      pct ← row !! (col_idx + 2);
      read_months row (col_idx + 3) rest
        (dict_set m {| rb_Quantity := clean qty;
                       rb_Value := clean val;
                       rb_Pct := clean pct |} acc)
  end.

(** One turn of [for _, row in df.iterrows()]: [Some None] is the
    [continue]. *)
Definition read_row (months : list pyval) (row : list pyval)
  : option (option rb_record) :=
  name ← row !! 0;
  if isna name || String.eqb (Text.lower (py_str name)) "nan"
  then Some None
  else
    isin ← row !! 1;
    rating ← row !! 2;
    ms ← read_months row 3 months [];
    Some (Some {| rb_Name := name;
                  rb_ISIN := clean_meta isin;
                  rb_Rating := clean_meta rating;
                  rb_Months := ms |}).

Fixpoint read_rows (months : list pyval) (df : list (list pyval))
  : option (list rb_record) :=
  match df with
  | [] => Some []
  | row :: rest =>
      r ← read_row months row;
      data ← read_rows months rest;
      Some (match r with Some record => record :: data | None => data end)
  end.

(** What pandas hands over for the saved workbook: the rows of
    [pd.read_excel(EXCEL_PATH, header=None, skiprows=3)] and those of
    [pd.read_excel(EXCEL_PATH, header=None, nrows=1, skiprows=1)].  The
    rows of a frame have one length; nothing below depends on it. *)
Record excel : Type := mkExcel {
  df_data : sheet;
  df_months : sheet
}.

(** What [read_portfolio_data] returns: the empty list when there is no
    workbook, else the dictionary. *)
Inductive rb_result : Type :=
| rb_empty
| rb_dict (data : rb_data).

(** [read_portfolio_data]; the workbook is [None] when the path does not
    exist, and the answer is [None] when an exception leaves the
    function. *)
Definition read_portfolio_data (workbook : option excel) : option rb_result :=
  match workbook with
  | None => Some rb_empty
  | Some reads =>
      month_row ← head (df_months reads);
      let months :=
        filter (fun val => notna val = true) (every_third 3 month_row) in
      data ← read_rows months (df_data reads);
      Some (rb_dict {| rb_months := months; rb_records := data |})
  end.

(** The two frames read from the workbook that [wb.save] wrote from the
    sheet [ws], a sheet of accepted values. *)
Definition saved_workbook (ws : sheet) : excel :=
  {| df_data := read_excel 3 None ws;
     df_months := read_excel 1 (Some 1) ws |}.

End Pipeline.

(** ** Styling of the sheet: what [main] does after the totals row *)

Inductive side_style : Type := thin | medium.

Record Border : Type := mkBorder {
  b_left : side_style;
  b_right : side_style;
  b_top : side_style;
  b_bottom : side_style
}.

(** [get_border(c_idx)], for a column index of openpyxl (from 1). *)
Definition get_border (c_idx : Z) : Border :=
  let right :=
    if ((3 <=? c_idx) && ((c_idx - 3) mod 3 =? 0))%Z then medium else thin in
  {| b_left := thin; b_right := right; b_top := thin; b_bottom := thin |}.

Inductive number_format : Type :=
| General
| fmt_indian_int
| fmt_indian_float
| fmt_pct.

(** The number format that the loop over the rows from 4 on leaves on a
    cell of column [c_idx]; a cell it does not touch keeps [General]. *)
Definition data_number_format (c_idx : Z) : number_format :=
  if (4 <=? c_idx)%Z then
    let rem := ((c_idx - 4) mod 3)%Z in
    if (rem =? 0)%Z then fmt_indian_int
    else if (rem =? 1)%Z then fmt_indian_float
    else if (rem =? 2)%Z then fmt_pct
    else General
  else General.

(** The inner loop of the column widths: the longest [str(cell.value)]
    among the cells whose value counts as true. *)
Definition max_length (float_repr : float -> string) (column : list pyval) : nat :=
  fold_left
    (fun max_length value =>
       if truthy value then
         let length := String.length (py_str float_repr value) in
         if (max_length <? length)%nat then length else max_length
       else max_length)
    column 0%nat.

Definition column_width (float_repr : float -> string) (column : list pyval) : nat :=
  let adjusted_width := (max_length float_repr column + 2)%nat in
  if (50 <? adjusted_width)%nat then 50%nat else adjusted_width.

(** The cells of column [col_i] (from 1), top to bottom; [ws.cell] of a
    place never written is an empty cell. *)
Definition sheet_column (ws : sheet) (col_i : nat) : list pyval :=
  map (fun row => default VNone (row !! (col_i - 1)%nat)) ws.

Definition max_column (ws : sheet) : nat :=
  foldr Nat.max 0%nat (length <$> ws).

(** The width given to every column, from column 1 to [ws.max_column]. *)
Definition column_widths (float_repr : float -> string) (ws : sheet) : list nat :=
  map (fun col_i => column_width float_repr (sheet_column ws col_i))
      (seq 1 (max_column ws)).

(** ** The downloader: [ppfas_downloader.py] *)

(** [str(n)] of an integer. *)
Definition py_str_int (n : Z) : string :=
  if (n <? 0)%Z
  then "-" +:+ NilEmpty.string_of_uint (Nat.to_uint (Z.to_nat (- n)))
  else NilEmpty.string_of_uint (Nat.to_uint (Z.to_nat n)).

Module Downloader.

Definition BASE_URL : string :=
  "https://amc.ppfas.com/downloads/portfolio-disclosure/".
Definition TARGET_SCHEAM_NAME : string := "Parag Parikh Flexi Cap Fund".

(** An [a] tag: [link_tag.get('href')]. *)
Record link_tag : Type := mkLink { href : option string }.

(** An element in which the link of the scheme is looked for: what
    [find('a', title=...)] and [find('a', string=...)] answer in it. *)
Record element : Type := mkElement {
  by_title : option link_tag;
  by_text : option link_tag
}.

(** A card: the stripped text of its [card-header], when it has one; its
    [collapse] element, when it has one; and the card as an element. *)
Record card : Type := mkCard {
  header_text : option string;
  collapse : option element;
  whole : element
}.

(** The parsed page: the cards below the element with a given id (no
    answer when there is no such element), and all cards of the page. *)
Record soup : Type := mkSoup {
  find_id : string -> option (list card);
  cards : list card
}.

Record monthly_link : Type := mkMonthly {
  month : string;
  year : Z;
  url : string
}.

Definition year_ids (year : Z) : option string :=
  if (year =? 2025)%Z then Some "twentyfive"
  else if (year =? 2024)%Z then Some "twentyfour"
  else if (year =? 2023)%Z then Some "twentythree"
  else None.

(** The first month name, in calendar order, that the header holds. *)
Definition parse_month (header_text : string) : option string :=
  List.find (fun m => Text.contains m header_text) month_order.

Section Links.

(** [urllib.parse.urljoin] *)
Variable urljoin : string -> string -> string.

(** One turn of [for card in cards]: [None] is a [continue] or a card
    without usable link. *)
Definition card_link (year : Z) (c : card) : option monthly_link :=
  match header_text c with
  | None => None
  | Some text =>
      if negb (Text.contains (py_str_int year) text) then None
      else
        match parse_month text with
        | None => None
        | Some month =>
            let body := default (whole c) (collapse c) in
            let link_tag :=
              match by_title body with
              | Some tag => Some tag
              | None => by_text body
              end in
            match link_tag with
            | Some tag =>
                match href tag with
                | Some h =>
                    if String.eqb h "" then None
                    else Some {| month := month; year := year;
                                 url := urljoin BASE_URL h |}
                | None => None
                end
            | None => None
            end
        end
  end.

(** [get_monthly_links(year)]; the page is [None] when fetching fails. *)
Definition get_monthly_links (page : option soup) (year : Z) : list monthly_link :=
  match page with
  | None => []
  | Some soup =>
      match year_ids year with
      | None => omap (card_link year) (cards soup)
      | Some year_id =>
          match find_id soup year_id with
          | None => []
          | Some year_cards => omap (card_link year) year_cards
          end
      end
  end.

(** The file name [main] gives a link. *)
Definition filename (item : monthly_link) : string :=
  month item +:+ "_" +:+ py_str_int (year item) +:+ ".xls".

(** The downloads [main] asks for: address and file name, in order. *)
Definition main (page : option soup) : list (string * string) :=
  (fun item => (url item, filename item)) <$> get_monthly_links page 2025.

End Links.

End Downloader.

(** ** Notions the properties are stated with *)

(** *** Header texts *)

(** The ordered keyword rules of the header normaliser: the keywords of a
    rule, and its canonical field. *)
Definition header_rules : list (list string * string) :=
  [ (["instrument"], "Name");
    (["isin"], "ISIN");
    (["industry"; "rating"], "Rating");
    (["quantity"], "Quantity");
    (["market value"; "rs. in lakhs"], "MarketValue");
    (["% to net assets"; "percentage"; "%"], "PctAssets") ].

Definition rule_matches (h : string) (rule : list string * string) : bool :=
  existsb (fun kw => Text.contains kw h) rule.1.

(** The field of the first rule, in order, that matches the text [h]. *)
Definition first_rule (h : string) : option string :=
  snd <$> List.find (rule_matches h) header_rules.

(** Two characters that differ at most in letter case, or are a line break
    and a space. *)
Inductive char_variant : ascii -> ascii -> Prop :=
| cv_same c : char_variant c c
| cv_to_lower c :
    Text.is_upper c = true ->
    char_variant c (ascii_of_nat (Text.code c + 32))
| cv_to_upper c :
    Text.is_upper c = true ->
    char_variant (ascii_of_nat (Text.code c + 32)) c
| cv_break_space : char_variant Text.nl Text.sp
| cv_space_break : char_variant Text.sp Text.nl.

Inductive text_variant : string -> string -> Prop :=
| tv_nil : text_variant "" ""
| tv_cons c d s t :
    char_variant c d -> text_variant s t ->
    text_variant (String c s) (String d t).

Fixpoint all_space (s : string) : bool :=
  match s with
  | EmptyString => true
  | String c t => Text.is_space c && all_space t
  end.

(** Two header texts that are, character by character, variants of each
    other, each between any leading and trailing white space. *)
Inductive header_variant : string -> string -> Prop :=
| hv_intro pre1 post1 pre2 post2 core1 core2 :
    all_space pre1 = true -> all_space post1 = true ->
    all_space pre2 = true -> all_space post2 = true ->
    text_variant core1 core2 ->
    header_variant (pre1 +:+ core1 +:+ post1) (pre2 +:+ core2 +:+ post2).

(** What [header_text] does to one character. *)
Definition norm_char (c : ascii) : ascii :=
  if Ascii.eqb (Text.lower_char c) Text.nl then Text.sp else Text.lower_char c.

(** The row has a Name text of its own, which is then all that the marker
    tests look at. *)
Definition has_name_text (float_repr : float -> string)
    (series_repr : nat -> list pyval -> string) (ir : nat * series) : bool :=
  let content_check :=
    str_got float_repr series_repr ir.1 (row_get "Name" (VStr "") ir.2) in
  negb (String.eqb content_check ""
        || String.eqb (Text.lower content_check) "nan").

(** *** Period keys *)

(** The order of two keys, as a proposition. *)
Definition key_le (a b : Z * Z) : Prop :=
  (a.1 < b.1)%Z \/ (a.1 = b.1 /\ (a.2 <= b.2)%Z).

(** The order of two elements by their keys. *)
Definition key_order {A} (key : A -> Z * Z) (x y : A) : Prop :=
  key_leb (key x) (key y) = true.

(** [x] stands before [y] in the list [l]. *)
Definition before {A} (l : list A) (x y : A) : Prop :=
  exists i j, (i < j)%nat /\ l !! i = Some x /\ l !! j = Some y.

Fixpoint no_char (c : ascii) (s : string) : bool :=
  match s with
  | EmptyString => true
  | String d t => negb (Ascii.eqb d c) && no_char c t
  end.

(** A decimal digit, and a superscript digit of Latin-1 (U+00B2, U+00B3,
    U+00B9). *)
Definition is_decimal_digit (c : ascii) : bool :=
  ((48 <=? Text.code c) && (Text.code c <=? 57))%nat.

Definition is_superscript_digit (c : ascii) : bool :=
  ((Text.code c =? 178) || (Text.code c =? 179) || (Text.code c =? 185))%nat.

(** A text that is a number in decimal digits, and one that consists of
    decimal and superscript digits. *)
Definition decimal_text (y : string) : bool :=
  negb (String.eqb y "") && all_chars is_decimal_digit y.

Definition digit_text (y : string) : bool :=
  negb (String.eqb y "")
  && all_chars (fun c => is_decimal_digit c || is_superscript_digit c) y.

(** The number that a text of decimal digits writes, digit by place. *)
Fixpoint decimal_value (y : string) : Z :=
  match y with
  | EmptyString => 0
  | String c t =>
      (Z.of_nat (Text.code c - 48) * 10 ^ Z.of_nat (String.length t)
       + decimal_value t)%Z
  end.

(** The month part [k] of the key of a label with month text [m]: the
    place of [m] among the twelve names, or 99 when it is none of them. *)
Definition month_part (m : string) (k : Z) : Prop :=
  (exists i, month_order !! i = Some m /\ k = Z.of_nat i)
  \/ ((m ∉ month_order) /\ k = 99%Z).

(** *** Merged entries *)

(** The update of a stored name by the name of one more record, as
    [update_name] makes it. *)
Definition name_step (stored v : pyval) : pyval :=
  if negb (truthy stored) && notna v then v else stored.

Definition name_fold (vs : list pyval) (stored : pyval) : pyval :=
  fold_left name_step vs stored.

(** A name that counts as empty: [None], a blank cell, or the empty text. *)
Definition empty_name (v : pyval) : Prop :=
  v = VNone \/ v = blank \/ v = VStr "".

(** What one record does to the entry of its identifier, and what a list
    of records of one identifier does. *)
Definition entry_step (fname : string) (r : ExtractedRecord) (e : entry) : entry :=
  write_month fname r (update_name r e).

Definition entry_fold (fname : string) (rs : list ExtractedRecord) (e : entry) : entry :=
  fold_left (fun e r => entry_step fname r e) rs e.

(** The same from the dictionary slot, which may be empty. *)
Definition slot_fold (fname : string) (rs : list ExtractedRecord)
    (slot : option entry) : option entry :=
  fold_left (fun slot r => Some (entry_step fname r (default (new_entry r) slot)))
            rs slot.

(** The records of [rs] whose merge key is [k]. *)
Definition records_of (float_repr : float -> string) (k : string)
    (rs : list ExtractedRecord) : list ExtractedRecord :=
  List.filter (fun r => String.eqb (record_key float_repr r) k) rs.

(** No entry has a month under [label]. *)
Definition no_month (label : string) (p : portfolio) : Prop :=
  Forall (fun item => Months item.2 !! label = None) p.

(** *** Sheet and read-back *)

(** What the cell in column [4 + c] of a row adds to its column total. *)
Definition amount (float_of_text : string -> option float)
    (months : list string) (data : entry) (c : nat) : float :=
  default PrimFloat.zero ((row_cells float_of_text months data).*1 !! c).

(** The number a stored value stands for once it went through the sheet
    and back: absent, unparseable, NaN and infinite are 0.0. *)
Definition zero_coerced (float_of_text : string -> option float) (v : pyval) : float :=
  let x := default PrimFloat.zero (py_float float_of_text v) in
  if is_finite x then x else PrimFloat.zero.

(** A text that comes back from the saved workbook as it was written: not
    empty, not taken as a formula or an error value by openpyxl, and not
    one of the texts that pandas reads as missing. *)
Definition plain_text (s : string) : bool :=
  negb (String.eqb s "") && negb (is_formula s)
  && negb (Text.mem s ERROR_CODES) && negb (Text.mem s na_texts).

(** The per-period readings of a row, from the cells after its three
    static columns. *)
Fixpoint group_back (float_of_text : string -> option float)
    (months : list string) (cells : list pyval) : list (pyval * rb_metrics) :=
  match months, cells with
  | m :: ms, q :: v :: p :: rest =>
      (VStr m, {| rb_Quantity := clean float_of_text (read_cell q);
                  rb_Value := clean float_of_text (read_cell v);
                  rb_Pct := clean float_of_text (read_cell p) |})
        :: group_back float_of_text ms rest
  | _, _ => []
  end.

(** The holding rows that the read-back keeps: those whose name cell is
    neither missing nor the text nan. *)
Definition named (float_repr : float -> string) (item : string * entry) : bool :=
  let name := read_cell (Name item.2) in
  negb (isna name || String.eqb (Text.lower (py_str float_repr name)) "nan").

(** The record read back for a holding, and the one for the totals row. *)
Definition record_back (float_repr : float -> string)
    (float_of_text : string -> option float)
    (months : list string) (item : string * entry) : rb_record :=
  {| rb_Name := Name item.2;
     rb_ISIN := clean_meta float_repr (read_cell (VStr item.1));
     rb_Rating := clean_meta float_repr (read_cell (Rating item.2));
     rb_Months :=
       (fun m => (VStr m,
                  {| rb_Quantity := zero_coerced float_of_text (node item.2 m Quantity);
                     rb_Value := zero_coerced float_of_text (node item.2 m MarketValue);
                     rb_Pct := zero_coerced float_of_text (node item.2 m PctAssets) |}))
         <$> months |}.

Definition total_back (float_of_text : string -> option float)
    (months : list string) (p : portfolio) : rb_record :=
  {| rb_Name := VStr "Total";
     rb_ISIN := "";
     rb_Rating := "";
     rb_Months := group_back float_of_text months
                    (VNum <$> column_totals float_of_text months p) |}.

(** *** Example inputs *)

(** The properties below hold for every [float_repr], [float_of_text],
    [series_repr] and [infer_types].  The closed examples need a choice:
    none of them holds a number in a row whose text is examined, a text in
    a numeric cell, a label on two columns of a row whose Name is looked
    up, or a column of texts that read as numbers, so these serve. *)
Definition example_repr : float -> string := fun _ => "0.0".
Definition example_float : string -> option float := fun _ => None.
Definition example_series : nat -> list pyval -> string := fun _ _ => "Series".
Definition example_infer : sheet -> sheet := fun rows => rows.

(** A workbook of which the read with a header row hands over the cells
    of the first read: that row as labels and the rows below it.  It is
    what pandas reads from a sheet whose header cells are distinct texts
    and of which no column changes its type without the rows down to the
    header. *)
Definition plain_book (s : sheet) : workbook :=
  {| df_raw := s;
     df_header := fun i =>
       (fun header => {| columns := header; frame_body := drop (S i) s |})
         <$> s !! i |}.

(** A header text and a variant of it: other letter case, a line break
    for a space, white space around. *)
Definition header_plain : string := "Market value (Rs. in Lakhs)".
Definition header_wrapped : string :=
  "  MARKET Value" +:+ String Text.nl "(rs. in lakhs)" +:+ String Text.nl " ".

(** A sheet without Name column whose third column has a header that no
    rule matches; [remark] is the cell of that column in the data row. *)
Definition remarks_sheet (remark : string) : sheet :=
  [ [VStr "ISIN"; VStr "Quantity"; VStr "Remarks"];
    [blank; blank; VStr "(a) Listed on Stock Exchanges"];
    [VStr "INE123"; blank; VStr remark] ].

(** A sheet whose listed-equity section runs to the last row: a title
    row, the header row, the start marker, a holding, a row without
    identifier, and a second holding. *)
Definition open_ended_sheet : sheet :=
  [ [VStr "Monthly Portfolio Statement"; blank; blank];
    [VStr "Name of the Instrument"; VStr "ISIN"; VStr "Quantity"];
    [VStr "(a) Listed / awaiting listing on Stock Exchange"; blank; blank];
    [VStr "Acme Ltd"; VStr "INE123"; blank];
    [VStr "Banks"; blank; blank];
    [VStr "Beta Ltd"; VStr "INE999"; blank] ].

Definition open_ended_rows : list series :=
  [ [(VStr "Name", VStr "Acme Ltd"); (VStr "ISIN", VStr "INE123");
     (VStr "Quantity", blank)];
    [(VStr "Name", VStr "Beta Ltd"); (VStr "ISIN", VStr "INE999");
     (VStr "Quantity", blank)] ].

(** The records of the two-file scenario: Acme in January; in February
    Acme again without name, and Beta. *)
Definition acme_january : ExtractedRecord :=
  {| r_ISIN := VStr "INE123"; r_Name := VStr "Acme"; r_Rating := VStr "";
     r_Quantity := VNum 100; r_MarketValue := VNum 50.5;
     r_PctAssets := VNum 1.25 |}.

Definition acme_february : ExtractedRecord :=
  {| r_ISIN := VStr "INE123"; r_Name := VStr ""; r_Rating := VStr "Banks";
     r_Quantity := VNum 120; r_MarketValue := VNum 60;
     r_PctAssets := VNum 1.5 |}.

Definition beta_february : ExtractedRecord :=
  {| r_ISIN := VStr "INE999"; r_Name := VStr "Beta"; r_Rating := blank;
     r_Quantity := VNum 10; r_MarketValue := VNum 5;
     r_PctAssets := VNum 0.125 |}.

(** An entry stored without name, and a record that brings one. *)
Definition nameless_entry : entry :=
  {| Name := VNone; Rating := VNone; Months := ∅ |}.

Definition acme_named : ExtractedRecord :=
  {| r_ISIN := VStr " INE123 "; r_Name := VStr "Acme"; r_Rating := VStr "Banks";
     r_Quantity := VNum 100; r_MarketValue := blank; r_PctAssets := VNone |}.

(** The merged mapping of the two-file scenario. *)
Definition scenario_portfolio : portfolio :=
  merge_records example_repr "February_2025"
    (merge_records example_repr "January_2025" [] [acme_january])
    [acme_february; beta_february].

(** A sheet with a holding whose Quantity cell is blank. *)
Definition blank_quantity_sheet : sheet :=
  [ [VStr "Name of the Instrument"; VStr "ISIN"; VStr "Quantity";
     VStr "Market value (Rs. in Lakhs)"];
    [VStr "(a) Listed / awaiting listing on Stock Exchanges"; blank; blank; blank];
    [VStr "Acme Ltd"; VStr "INE123"; VNum 100; VNum 50.5];
    [VStr "Beta Ltd"; VStr "INE999"; blank; VNum 5] ].

(** Two input files: one with a section of holdings, one that cannot be
    read. *)
Definition two_files : list file :=
  [ ("January_2025.xls", Some (plain_book open_ended_sheet));
    ("Notes_2025.xls", None) ].

(** A sheet with two columns whose headers both normalise to ISIN, and a
    section row without identifier. *)
Definition two_isin_sheet : sheet :=
  [ [VStr "Name of the Instrument"; VStr "ISIN"; VStr "ISIN code";
     VStr "Quantity"];
    [VStr "(a) Listed / awaiting listing on Stock Exchanges"; blank; blank; blank];
    [VStr "Banks"; blank; blank; blank];
    [VStr "Acme Ltd"; VStr "INE123"; VStr "INE123"; VNum 100] ].

(** The frame of that sheet as pandas hands it over with the first row as
    header. *)
Definition two_isin_book : workbook := plain_book two_isin_sheet.

(** A sheet whose section holds, between two holdings, a holding whose
    name has the words of the start marker. *)
Definition marker_named_sheet : sheet :=
  [ [VStr "Name of the Instrument"; VStr "ISIN"; VStr "Quantity"];
    [VStr "(a) Listed / awaiting listing on Stock Exchanges"; blank; blank];
    [VStr "Acme Ltd"; VStr "INE123"; VNum 100];
    [VStr "Fund (a) Listed Stock Basket"; VStr "INE777"; VNum 5];
    [VStr "Beta Ltd"; VStr "INE999"; VNum 10] ].

(** *** Notions of the further properties *)

(** The keys that a list of keys adds to those already [seen], in the
    order in which they first come. *)
Fixpoint new_keys (seen : list string) (ks : list string) : list string :=
  match ks with
  | [] => []
  | k :: rest =>
      if Text.mem k seen then new_keys seen rest
      else k :: new_keys (k :: seen) rest
  end.

(** The metric of the [j]-th column of a month group. *)
Definition metric (j : nat) : metrics -> pyval :=
  match j with
  | O => Quantity
  | S O => MarketValue
  | _ => PctAssets
  end.

(** The dictionary [d] has the key [k]. *)
Definition dict_has_key {A} (k : pyval) (d : list (pyval * A)) : bool :=
  existsb (pyval_eqb k) d.*1.

(** The period labels that the read-back takes from the row of the months
    frame. *)
Definition header_months (reads : excel) : list pyval :=
  filter (fun val => notna val = true)
         (every_third 3 (default [] (head (df_months reads)))).

(** The read-back keeps the row: it has a first cell, which is neither
    missing nor the text nan. *)
Definition kept_row (float_repr : float -> string) (row : list pyval) : bool :=
  match row with
  | [] => false
  | name :: _ =>
      negb (isna name || String.eqb (Text.lower (py_str float_repr name)) "nan")
  end.

(** The row has an identifier: the test of the section loop does not raise
    and holds. *)
Definition with_isin (float_repr : float -> string) (row : series) : bool :=
  match has_isin float_repr row with
  | Some true => true
  | _ => false
  end.

(** The label is on one column at most. *)
Definition single (name : string) (row : series) : Prop :=
  length (cells_under name row) <= 1.

(** The cards that [get_monthly_links] searches on a page: those below
    the element of the year, none when the year has an id and the page no
    such element, and all cards of the page for a year without id. *)
Definition searched_cards (s : Downloader.soup) (year : Z) : list Downloader.card :=
  match Downloader.year_ids year with
  | None => Downloader.cards s
  | Some year_id => default [] (Downloader.find_id s year_id)
  end.

(** The link tag that is taken in an element: the one found by title, else
    the one found by text. *)
Definition link_in (body : Downloader.element) : option Downloader.link_tag :=
  match Downloader.by_title body with
  | Some tag => Some tag
  | None => Downloader.by_text body
  end.

(** What holds of a record of the read-back, given the period sequence. *)
Definition sound_record (months : list pyval) (r : rb_record) : Prop :=
  isna (rb_Name r) = false
  /\ Text.lower (rb_ISIN r) <> "nan"
  /\ Text.lower (rb_Rating r) <> "nan"
  /\ Forall (fun m => dict_has_key m (rb_Months r) = true) months.

(** *** Example inputs of the further properties *)

(** Rows of a frame with the columns Name, ISIN and Quantity: the start
    marker, a holding, a stop marker, and a holding below it. *)
Definition frame_row (name isin qty : pyval) : series :=
  [(VStr "Name", name); (VStr "ISIN", isin); (VStr "Quantity", qty)].

Definition marker_row : series :=
  frame_row (VStr "(a) Listed / awaiting listing on Stock Exchanges") blank blank.
Definition acme_row : series :=
  frame_row (VStr "Acme Ltd") (VStr "INE123") (VNum 100).
Definition sub_total_row : series :=
  frame_row (VStr "Sub Total") blank (VNum 100).
Definition gamma_row : series :=
  frame_row (VStr "Gamma Ltd") (VStr "INE555") (VNum 7).

(** A sheet with a header row and a holding, and no start marker. *)
Definition unmarked_sheet : sheet :=
  [ [VStr "Name of the Instrument"; VStr "ISIN"; VStr "Quantity"];
    [VStr "Acme Ltd"; VStr "INE123"; VNum 100] ].

(** The entry of Acme after the January file, and the item of Beta in the
    merged mapping of the two-file scenario. *)
Definition acme_after_january : entry :=
  write_month "January_2025" acme_january (new_entry acme_january).

Definition beta_item : string * entry :=
  ("INE999", write_month "February_2025" beta_february (new_entry beta_february)).

Definition two_months : list string := ["January_2025"; "February_2025"].

(** A saved sheet of one period and one holding. *)
Definition one_period_sheet : sheet :=
  [ [VStr "PPFAS Flexi cap Fund"; VNone; VNone; VNone; VNone; VNone];
    [VStr "Name of the Instrument"; VStr "ISIN"; VStr "Industry/Rating";
     VStr "January_2025"; VNone; VNone];
    [VNone; VNone; VNone; VStr "Quantity"; VStr "Market Value (Rs. Lakhs)";
     VStr "% Net Assets"];
    [VStr "Acme"; VStr "INE123"; VNone; VNum 100; VNum 50.5; VNum 1.25];
    [VStr "Total"; VNone; VNone; VNum 100; VNum 50.5; VNum 1.25] ].

(** A page of the downloader with one card, for March 2025, and a way of
    joining addresses that serves for it. *)
Definition example_urljoin : string -> string -> string :=
  fun base ref => base +:+ ref.

Definition march_card : Downloader.card :=
  {| Downloader.header_text := Some "March 2025";
     Downloader.collapse := None;
     Downloader.whole :=
       {| Downloader.by_title :=
            Some {| Downloader.href := Some "files/PPFCF_March_2025.xls" |};
          Downloader.by_text := None |} |}.

Definition example_page : Downloader.soup :=
  {| Downloader.find_id :=
       fun id => if String.eqb id "twentyfive" then Some [march_card] else None;
     Downloader.cards := [march_card] |}.

(** * Properties *)

(** ** Header normaliser *)

Section HeaderFacts.

Lemma map_chars_app f s t :
  Text.map_chars f (s +:+ t) = Text.map_chars f s +:+ Text.map_chars f t.
Proof. induction s as [|c s IH]; simpl; [done | by rewrite IH]. Qed.

Lemma map_chars_compose f g s :
  Text.map_chars f (Text.map_chars g s) = Text.map_chars (fun c => f (g c)) s.
Proof. induction s as [|c s IH]; simpl; [done | by rewrite IH]. Qed.

Lemma header_text_map s :
  header_text s = Text.strip (Text.map_chars norm_char s).
Proof.
  unfold header_text, Text.replace_char, Text.lower.
  by rewrite map_chars_compose.
Qed.

Lemma norm_char_space c :
  Text.is_space c = true -> Text.is_space (norm_char c) = true.
Proof.
  destruct c as [[] [] [] [] [] [] [] []]; vm_compute; congruence.
Qed.

Lemma is_upper_lower c :
  Text.is_upper c = true ->
  Text.lower_char (ascii_of_nat (Text.code c + 32)) = Text.lower_char c.
Proof.
  destruct c as [[] [] [] [] [] [] [] []]; vm_compute; congruence.
Qed.

Lemma char_variant_norm c d : char_variant c d -> norm_char c = norm_char d.
Proof.
  unfold norm_char. destruct 1 as [c|c Hc|c Hc| |]; try reflexivity.
  - by rewrite is_upper_lower.
  - by rewrite is_upper_lower.
Qed.

Lemma text_variant_norm s t :
  text_variant s t -> Text.map_chars norm_char s = Text.map_chars norm_char t.
Proof.
  induction 1 as [|c d s t Hcd _ IH]; simpl; [done|].
  by rewrite (char_variant_norm c d Hcd), IH.
Qed.

Lemma all_space_map s :
  all_space s = true -> all_space (Text.map_chars norm_char s) = true.
Proof.
  induction s as [|c s IH]; simpl; [done|].
  intros [Hc Hs]%andb_prop. rewrite (norm_char_space c Hc). by apply IH.
Qed.

Lemma lstrip_all_space s : all_space s = true -> Text.lstrip s = "".
Proof.
  induction s as [|c s IH]; simpl; [done|].
  intros [-> Hs]%andb_prop. by apply IH.
Qed.

Lemma lstrip_app_space pre s :
  all_space pre = true -> Text.lstrip (pre +:+ s) = Text.lstrip s.
Proof.
  induction pre as [|c pre IH]; simpl; [done|].
  intros [-> Hs]%andb_prop. by apply IH.
Qed.

Lemma rstrip_all_space s : all_space s = true -> Text.rstrip s = "".
Proof.
  induction s as [|c s IH]; simpl; [done|].
  intros [-> Hs]%andb_prop. by rewrite IH.
Qed.

Lemma rstrip_app_space s post :
  all_space post = true -> Text.rstrip (s +:+ post) = Text.rstrip s.
Proof.
  intros Hpost. induction s as [|c s IH]; simpl.
  - by apply rstrip_all_space.
  - by rewrite IH.
Qed.

Lemma lstrip_app s post :
  all_space post = true ->
  Text.lstrip (s +:+ post) =
    if all_space s then "" else Text.lstrip s +:+ post.
Proof.
  intros Hpost. induction s as [|c s IH]; simpl.
  - by apply lstrip_all_space.
  - destruct (Text.is_space c); simpl; [exact IH | done].
Qed.

Lemma strip_pad pre s post :
  all_space pre = true -> all_space post = true ->
  Text.strip (pre +:+ s +:+ post) = Text.strip s.
Proof.
  intros Hpre Hpost. unfold Text.strip.
  rewrite lstrip_app_space, lstrip_app by done.
  destruct (all_space s) eqn:Hs.
  - by rewrite lstrip_all_space.
  - by rewrite rstrip_app_space.
Qed.

Lemma header_text_pad pre s post :
  all_space pre = true -> all_space post = true ->
  header_text (pre +:+ s +:+ post) = Text.strip (Text.map_chars norm_char s).
Proof.
  intros Hpre Hpost.
  rewrite header_text_map, !map_chars_app.
  apply strip_pad; by apply all_space_map.
Qed.

Lemma header_variant_text h1 h2 :
  header_variant h1 h2 -> header_text h1 = header_text h2.
Proof.
  destruct 1 as [pre1 post1 pre2 post2 core1 core2 H1 H2 H3 H4 Hv].
  rewrite !header_text_pad by done.
  by rewrite (text_variant_norm _ _ Hv).
Qed.

(** The chain of tests in [normalize_header] is the ordered rule table. *)
Lemma normalize_header_rules s :
  normalize_header (VStr s) = default s (first_rule (header_text s)).
Proof.
  unfold normalize_header, first_rule, header_rules, rule_matches.
  cbn [List.find existsb fst snd].
  generalize (header_text s); intros h.
  repeat match goal with
         | |- context [Text.contains ?kw h] =>
             destruct (Text.contains kw h); cbn [orb fmap option_fmap option_map default]
         end; reflexivity.
Qed.

End HeaderFacts.

Lemma first_rule_canonical h f :
  first_rule h = Some f -> Text.mem f COLUMN_MAPPING_values = true.
Proof.
  unfold first_rule, header_rules. cbn [List.find].
  repeat (destruct (rule_matches h _); [intros [= <-]; reflexivity |]).
  discriminate.
Qed.


Ltac char_variant_step :=
  match goal with
  | |- char_variant ?c ?d =>
      first [ exact (cv_same c)
            | exact (cv_to_lower c eq_refl)
            | exact (cv_to_upper d eq_refl)
            | exact cv_break_space
            | exact cv_space_break ]
  end.

Ltac text_variant_steps :=
  repeat (apply tv_cons; [char_variant_step |]); apply tv_nil.


(** ** Unrecognised columns *)

Lemma cells_under_other name before col v v' after :
  col <> VStr name ->
  cells_under name (before ++ (col, v) :: after)
  = cells_under name (before ++ (col, v') :: after).
Proof.
  intros Hne. induction before as [|[l x] before IH]; simpl.
  - destruct col as [|c|]; try done.
    destruct (String.eqb_spec c name) as [->|]; done.
  - destruct l as [|c|]; try done. by rewrite IH.
Qed.

Lemma row_get_other name default before col v v' after :
  col <> VStr name ->
  row_get name default (before ++ (col, v) :: after)
  = row_get name default (before ++ (col, v') :: after).
Proof.
  intros Hne. unfold row_get. by rewrite (cells_under_other _ _ _ v v').
Qed.

Lemma mem_false_ne s name l :
  Text.mem s l = false -> name ∈ l -> VStr s <> VStr name.
Proof.
  unfold Text.mem. intros Hmem Hin [= ->].
  apply not_true_iff_false in Hmem. apply Hmem.
  apply existsb_exists. exists name. split; [by apply list_elem_of_In|].
  apply String.eqb_refl.
Qed.

Lemma unmatched_header_counterexample :
  first_rule (header_text "Name") = None
  /\ rename_label (VStr "Name") = VStr "Name"
  /\ r_Name (record_of_row [(rename_label (VStr "Name"), VStr "Acme")]) = VStr "Acme"
  /\ first_rule (header_text "Remarks") = None
  /\ read_portfolio_file example_repr example_series
       (Some (plain_book (remarks_sheet "core holding")))
     = Some [[(VStr "ISIN", VStr "INE123"); (VStr "Quantity", blank);
              (VStr "Remarks", VStr "core holding")]]
  /\ read_portfolio_file example_repr example_series
       (Some (plain_book (remarks_sheet "see Total"))) = Some [].
Proof. repeat split; vm_compute; reflexivity. Qed.

(** C6 (amended). A header text that none of the six ordered rules matches,
    and that is not itself the text of a canonical name, keeps its label:
    the column maps to no canonical field, none of the six lookups that
    make a record depends on its cells, nor does the identifier test, and
    in a row that has a Name text the start and stop marker tests do not
    depend on them either.  A header text that some rule matches gets the
    field of the first matching rule in the fixed order. *)
Theorem unmatched_header_inert (float_repr : float -> string)
    (series_repr : nat -> list pyval -> string) (s : string) :
  (first_rule (header_text s) = None ->
   Text.mem s COLUMN_MAPPING_values = false ->
   rename_label (VStr s) = VStr s
   /\ forall idx before after v v',
       let row := before ++ (rename_label (VStr s), v) :: after in
       let row' := before ++ (rename_label (VStr s), v') :: after in
       record_of_row row = record_of_row row'
       /\ has_isin float_repr row = has_isin float_repr row'
       /\ (has_name_text float_repr series_repr (idx, row) = true ->
           is_start float_repr series_repr (idx, row)
           = is_start float_repr series_repr (idx, row')
           /\ is_stop float_repr series_repr (idx, row)
              = is_stop float_repr series_repr (idx, row')))
  /\ (forall f, first_rule (header_text s) = Some f ->
       normalize_header (VStr s) = f /\ rename_label (VStr s) = VStr f).
Proof.
  split.
  - intros Hnone Hmem.
    assert (Hlabel : rename_label (VStr s) = VStr s).
    { unfold rename_label. rewrite normalize_header_rules, Hnone.
      cbn [from_option id]. by rewrite Hmem. }
    split; [done|]. intros idx before after v v' row row'. subst row row'.
    rewrite Hlabel.
    assert (Hget : forall name default,
               name ∈ COLUMN_MAPPING_values ->
               row_get name default (before ++ (VStr s, v) :: after)
               = row_get name default (before ++ (VStr s, v') :: after)).
    { intros name default Hname. apply row_get_other.
      by apply (mem_false_ne _ _ _ Hmem). }
    assert (Hcontent :
              has_name_text float_repr series_repr
                (idx, before ++ (VStr s, v) :: after) = true ->
              content_lower float_repr series_repr
                (idx, before ++ (VStr s, v) :: after)
              = content_lower float_repr series_repr
                  (idx, before ++ (VStr s, v') :: after)).
    { unfold has_name_text, content_lower. cbn [fst snd].
      rewrite (Hget "Name" (VStr "")) by (unfold COLUMN_MAPPING_values; set_solver).
      intros Hcheck. apply negb_true_iff in Hcheck. by rewrite Hcheck. }
    split; [|split].
    + unfold record_of_row.
      f_equal; f_equal; apply Hget; unfold COLUMN_MAPPING_values; set_solver.
    + unfold has_isin.
      by rewrite (Hget "ISIN" VNone) by (unfold COLUMN_MAPPING_values; set_solver).
    + intros Hname. unfold is_start, is_stop. by rewrite (Hcontent Hname).
  - intros f Hf.
    assert (Hn : normalize_header (VStr s) = f).
    { by rewrite normalize_header_rules, Hf. }
    split; [done|]. unfold rename_label. rewrite Hn.
    by rewrite (first_rule_canonical _ _ Hf).
Qed.

Lemma unmatched_header_inert_witness :
  (rename_label (VStr "Remarks") = VStr "Remarks"
   /\ forall idx before after v v',
       let row := before ++ (rename_label (VStr "Remarks"), v) :: after in
       let row' := before ++ (rename_label (VStr "Remarks"), v') :: after in
       record_of_row row = record_of_row row'
       /\ has_isin example_repr row = has_isin example_repr row'
       /\ (has_name_text example_repr example_series (idx, row) = true ->
           is_start example_repr example_series (idx, row)
           = is_start example_repr example_series (idx, row')
           /\ is_stop example_repr example_series (idx, row)
              = is_stop example_repr example_series (idx, row')))
  /\ normalize_header (VStr "Industry/Rating %") = "Rating"
  /\ rename_label (VStr "Industry/Rating %") = VStr "Rating".
Proof.
  split.
  - apply (unmatched_header_inert example_repr example_series "Remarks");
      reflexivity.
  - apply (unmatched_header_inert example_repr example_series
             "Industry/Rating %"). reflexivity.
Defined.

(** ** Section extractor *)

Section ExtractorFacts.

Variable float_repr : float -> string.
Variable series_repr : nat -> list pyval -> string.

Local Abbreviation starts := (is_start float_repr series_repr).
Local Abbreviation stops := (is_stop float_repr series_repr).
Local Abbreviation scan_rows := (scan float_repr series_repr).
Local Abbreviation read_file := (read_portfolio_file float_repr series_repr).

Lemma scan_has_isin : forall rows capturing kept,
  scan_rows capturing rows = Some kept ->
  Forall (fun row => has_isin float_repr row = Some true) kept.
Proof.
  induction rows as [|ir rows IH]; intros capturing kept; cbn [scan].
  - intros [= <-]. constructor.
  - destruct (starts ir); [apply IH|].
    destruct capturing; [|apply IH].
    destruct (stops ir); [intros [= <-]; constructor|].
    destruct (has_isin float_repr ir.2) as [[|]|] eqn:Hisin; [|apply IH|done].
    destruct (scan_rows true rows) as [rest|] eqn:Hrest; [|done].
    cbn [fmap option_fmap option_map]. intros [= <-].
    constructor; [done | by eapply IH].
Qed.

Lemma scan_sublist : forall rows capturing kept,
  scan_rows capturing rows = Some kept ->
  sublist kept (List.filter (with_isin float_repr) rows.*2).
Proof.
  induction rows as [|ir rows IH]; intros capturing kept; cbn [scan].
  - intros [= <-]. constructor.
  - rewrite fmap_cons. cbn [List.filter].
    assert (Hskip : forall l,
              sublist l (List.filter (with_isin float_repr) rows.*2) ->
              sublist l (if with_isin float_repr ir.2
                         then ir.2 :: List.filter (with_isin float_repr) rows.*2
                         else List.filter (with_isin float_repr) rows.*2)).
    { intros l Hl. destruct (with_isin float_repr ir.2); [by constructor | done]. }
    destruct (starts ir); [intros H; eapply Hskip, IH, H|].
    destruct capturing; [|intros H; eapply Hskip, IH, H].
    destruct (stops ir); [intros [= <-]; apply sublist_nil_l|].
    unfold with_isin at 1.
    destruct (has_isin float_repr ir.2) as [[|]|] eqn:Hisin;
      [|intros H; eapply IH, H|done].
    destruct (scan_rows true rows) as [rest|] eqn:Hrest; [|done].
    cbn [fmap option_fmap option_map]. intros [= <-].
    constructor. by eapply IH.
Qed.

Lemma has_isin_key row :
  has_isin float_repr row = Some true ->
  record_key float_repr (record_of_row row) <> "".
Proof.
  unfold has_isin, record_key, record_of_row; simpl.
  destruct (row_get "ISIN" VNone row) as [isin|]; [|done].
  intros [= [[_ Hstrip]%andb_prop _]%andb_prop]. cbn [the_cell].
  apply negb_true_iff in Hstrip. by apply String.eqb_neq.
Qed.

(** With the label on one column at most, the identifier test answers. *)
Lemma single_has_isin row :
  single "ISIN" row ->
  has_isin float_repr row = Some (with_isin float_repr row).
Proof.
  unfold single, with_isin, has_isin, row_get.
  destruct (cells_under "ISIN" row) as [|v [|w vs]]; cbn [length]; intros Hlen;
    [reflexivity | | lia].
  by destruct (notna v && _ && _).
Qed.

Lemma several_has_isin row :
  1 < length (cells_under "ISIN" row) -> has_isin float_repr row = None.
Proof.
  unfold has_isin, row_get.
  destruct (cells_under "ISIN" row) as [|v [|w vs]]; simpl; intros Hlen;
    [lia | lia | done].
Qed.

(** Before the start marker nothing is kept. *)
Lemma scan_seek pre marker post :
  Forall (fun ir => starts ir = false) pre ->
  starts marker = true ->
  scan_rows false (pre ++ marker :: post) = scan_rows true post.
Proof.
  intros Hpre Hmarker. induction Hpre as [|ir pre Hrow _ IH]; cbn [scan app].
  - by rewrite Hmarker.
  - by rewrite Hrow.
Qed.

(** Without a stop marker the loop runs to the last row. *)
Lemma scan_no_stop rows :
  Forall (fun ir => stops ir = false) rows ->
  Forall (fun ir => single "ISIN" ir.2) rows ->
  scan_rows true rows
  = Some (List.filter (fun ir => with_isin float_repr ir.2 && negb (starts ir))
                      rows).*2.
Proof.
  induction 1 as [|ir rows Hrow _ IH]; intros Hsingle; cbn [scan List.filter];
    [done|].
  apply Forall_cons in Hsingle as [Hir Hsingle]. specialize (IH Hsingle).
  destruct (starts ir).
  - by rewrite andb_false_r.
  - rewrite Hrow, andb_true_r, (single_has_isin _ Hir).
    destruct (with_isin float_repr ir.2); [|done].
    by rewrite IH.
Qed.

(** With the label on one column at most in every row, the loop ends with
    an answer. *)
Lemma scan_answers : forall rows capturing,
  Forall (fun ir => single "ISIN" ir.2) rows ->
  exists kept, scan_rows capturing rows = Some kept.
Proof.
  induction rows as [|ir rows IH]; intros capturing Hsingle; cbn [scan].
  - by eexists.
  - apply Forall_cons in Hsingle as [Hir Hsingle].
    destruct (starts ir); [by apply IH|].
    destruct capturing; [|by apply IH].
    destruct (stops ir); [by eexists|].
    rewrite (single_has_isin _ Hir).
    destruct (with_isin float_repr ir.2); [|by apply IH].
    destruct (IH true Hsingle) as [kept ->]. by eexists.
Qed.

(** *** Distinct labels *)

Lemma cells_under_absent name labels : forall cells,
  existsb (same_label (VStr name)) labels = false ->
  cells_under name (combine labels cells) = [].
Proof.
  induction labels as [|l labels IH]; intros [|c cells]; try done.
  cbn [existsb combine cells_under].
  intros [Hl Hrest]%orb_false_elim.
  destruct l as [|t|x]; [by apply IH | | by apply IH].
  cbn [same_label] in Hl. rewrite String.eqb_sym, Hl. by apply IH.
Qed.

Lemma unique_single name labels : forall cells,
  is_unique labels = true -> single name (combine labels cells).
Proof.
  unfold single.
  induction labels as [|l labels IH]; intros [|c cells]; try (simpl; lia).
  cbn [is_unique combine cells_under].
  intros [Hl Hrest]%andb_prop. apply negb_true_iff in Hl.
  destruct l as [|t|x]; [by apply IH | | by apply IH].
  destruct (String.eqb_spec t name) as [->|_]; [|by apply IH].
  rewrite cells_under_absent by done. simpl. lia.
Qed.

Lemma snd_iterrows (df : frame) : (iterrows df).*2 = frame_rows df.
Proof.
  unfold iterrows. apply list_eq. intros i.
  rewrite list_lookup_fmap, list_lookup_imap.
  by destruct (frame_rows df !! i).
Qed.

(** The rows that the extractor returns have distinct labels: a lookup in
    one of them answers with one cell. *)
Lemma returned_rows_unique (file : option workbook) rows :
  read_file file = Some rows ->
  Forall (fun row => forall name, single name row) rows.
Proof.
  unfold read_portfolio_file. destruct file as [book|]; [|done].
  destruct (find_header float_repr (df_raw book)) as [i|]; [|done].
  destruct (df_header book i) as [df|]; [|done]. cbn [mbind option_bind].
  destruct (scan_rows false (iterrows df)) as [kept|] eqn:Hscan; [|done].
  cbn [mbind option_bind]. unfold data_frame.
  destruct kept as [|row kept]; [intros [= <-]; constructor|].
  destruct (is_unique (renamed_columns df)) eqn:Hunique; [|done].
  intros [= <-].
  apply scan_sublist in Hscan. rewrite snd_iterrows in Hscan.
  apply Forall_forall. intros r Hr name.
  assert (Hin : r ∈ frame_rows df).
  { eapply elem_of_sublist; [exact Hr|].
    etransitivity; [exact Hscan|].
    clear. induction (frame_rows df) as [|a l IH]; simpl; [done|].
    destruct (with_isin float_repr a); by constructor. }
  unfold frame_rows in Hin. apply list_elem_of_In, in_map_iff in Hin
    as (cells & <- & _).
  by apply unique_single.
Qed.


(** C8 (amended). When the labels of the frame are distinct, the start
    marker occurs and no later row holds a stop marker, the extractor
    accepts the file and keeps every row after the marker that has a
    non-empty identifier and is not itself a start-marker row, through the
    last row. *)
Theorem unterminated_section_kept book header_row_idx df pre marker post :
  find_header float_repr (df_raw book) = Some header_row_idx ->
  df_header book header_row_idx = Some df ->
  is_unique (renamed_columns df) = true ->
  iterrows df = pre ++ marker :: post ->
  Forall (fun ir => starts ir = false) pre ->
  starts marker = true ->
  Forall (fun ir => stops ir = false) post ->
  read_file (Some book)
  = Some (List.filter (fun ir => with_isin float_repr ir.2 && negb (starts ir))
                      post).*2.
Proof.
  intros Hheader Hdf Hunique Hrows Hpre Hmarker Hpost.
  assert (Hsingle : Forall (fun ir : nat * series => single "ISIN" ir.2) post).
  { apply Forall_forall. intros ir Hir.
    assert (Hin : ir.2 ∈ frame_rows df).
    { rewrite <- snd_iterrows, Hrows. apply list_elem_of_fmap_2.
      apply elem_of_app. right. by right. }
    unfold frame_rows in Hin.
    apply list_elem_of_In, in_map_iff in Hin as (cells & <- & _).
    by apply unique_single. }
  unfold read_portfolio_file.
  rewrite Hheader, Hdf. cbn [mbind option_bind].
  rewrite Hrows, scan_seek, scan_no_stop by done. cbn [mbind option_bind].
  unfold data_frame. rewrite Hunique. by destruct (_.*2).
Qed.

End ExtractorFacts.



Lemma unterminated_section_counterexample :
  read_portfolio_file example_repr example_series
    (Some (plain_book marker_named_sheet))
  = Some [ [(VStr "Name", VStr "Acme Ltd"); (VStr "ISIN", VStr "INE123");
            (VStr "Quantity", VNum 100)];
           [(VStr "Name", VStr "Beta Ltd"); (VStr "ISIN", VStr "INE999");
            (VStr "Quantity", VNum 10)] ]
  /\ with_isin example_repr
       [(VStr "Name", VStr "Fund (a) Listed Stock Basket");
        (VStr "ISIN", VStr "INE777"); (VStr "Quantity", VNum 5)] = true
  /\ is_stop example_repr example_series
       (2, [(VStr "Name", VStr "Fund (a) Listed Stock Basket");
            (VStr "ISIN", VStr "INE777"); (VStr "Quantity", VNum 5)]) = false.
Proof. repeat split; vm_compute; reflexivity. Qed.

Lemma unterminated_section_kept_witness :
  read_portfolio_file example_repr example_series
    (Some (plain_book open_ended_sheet)) = Some open_ended_rows.
Proof.
  apply (unterminated_section_kept example_repr example_series
           (plain_book open_ended_sheet) 1
           {| columns := [VStr "Name of the Instrument"; VStr "ISIN";
                          VStr "Quantity"];
              frame_body := drop 2 open_ended_sheet |}
           []
           (0, [(VStr "Name", VStr "(a) Listed / awaiting listing on Stock Exchange");
                (VStr "ISIN", blank); (VStr "Quantity", blank)])
           [ (1, [(VStr "Name", VStr "Acme Ltd"); (VStr "ISIN", VStr "INE123");
                  (VStr "Quantity", blank)]);
             (2, [(VStr "Name", VStr "Banks"); (VStr "ISIN", blank);
                  (VStr "Quantity", blank)]);
             (3, [(VStr "Name", VStr "Beta Ltd"); (VStr "ISIN", VStr "INE999");
                  (VStr "Quantity", blank)]) ]).
  - reflexivity.
  - reflexivity.
  - reflexivity.
  - reflexivity.
  - constructor.
  - reflexivity.
  - repeat constructor.
Defined.

(** ** Period ordering *)

Section OrderingFacts.

Lemma key_leb_le a b : key_leb a b = true <-> key_le a b.
Proof.
  unfold key_leb, key_le. destruct a as [a1 a2], b as [b1 b2]; simpl.
  rewrite orb_true_iff, andb_true_iff, Z.ltb_lt, Z.eqb_eq, Z.leb_le. done.
Qed.

Lemma key_leb_total a b : key_leb a b = false -> key_leb b a = true.
Proof.
  intros H. apply key_leb_le. apply not_true_iff_false in H.
  rewrite key_leb_le in H. unfold key_le in *. lia.
Qed.

Lemma key_leb_trans a b c :
  key_leb a b = true -> key_leb b c = true -> key_leb a c = true.
Proof. rewrite !key_leb_le. unfold key_le. lia. Qed.

Context {A : Type} (key : A -> Z * Z).

Local Abbreviation key_order' := (key_order key).

Lemma insert_by_perm x l : insert_by key x l ≡ₚ x :: l.
Proof.
  induction l as [|y t IH]; simpl; [done|].
  destruct (key_leb (key x) (key y)); [done|].
  rewrite IH. apply Permutation_swap.
Qed.

Lemma sorted_by_perm l : sorted_by key l ≡ₚ l.
Proof.
  induction l as [|x t IH]; simpl; [done|].
  by rewrite insert_by_perm, IH.
Qed.

Lemma insert_by_sorted x l :
  StronglySorted key_order' l -> StronglySorted key_order' (insert_by key x l).
Proof.
  induction 1 as [|y t Ht IH Hy]; simpl.
  - repeat constructor.
  - destruct (key_leb (key x) (key y)) eqn:Hxy.
    + constructor; [by constructor|].
      constructor; [done|].
      eapply Forall_impl; [exact Hy|].
      intros z Hz. by eapply key_leb_trans.
    + constructor; [done|].
      rewrite insert_by_perm. constructor; [|done].
      by apply key_leb_total.
Qed.

Lemma sorted_by_sorted l : StronglySorted key_order' (sorted_by key l).
Proof.
  induction l as [|x t IH]; simpl; [constructor | by apply insert_by_sorted].
Qed.

Lemma strongly_sorted_lookup (l : list A) i j x y :
  StronglySorted key_order' l -> (i < j)%nat ->
  l !! i = Some x -> l !! j = Some y -> key_order' x y.
Proof.
  intros Hl. revert i j. induction Hl as [|z t Ht IH Hz]; intros i j Hij Hi Hj.
  - done.
  - destruct j as [|j]; [lia|]. destruct i as [|i]; simpl in *.
    + injection Hi as <-. rewrite Forall_forall in Hz.
      apply Hz. by eapply list_elem_of_lookup_2.
    + apply (IH i j); [lia | done | done].
Qed.

(** In the sorted list a strictly smaller key stands before. *)
Lemma sorted_by_before l x y :
  x ∈ l -> y ∈ l -> key_ltb (key x) (key y) = true ->
  before (sorted_by key l) x y.
Proof.
  intros Hx Hy Hlt.
  rewrite <- (sorted_by_perm l) in Hx, Hy.
  apply list_elem_of_lookup in Hx as [i Hi].
  apply list_elem_of_lookup in Hy as [j Hj].
  unfold key_ltb in Hlt. apply negb_true_iff in Hlt.
  destruct (lt_eq_lt_dec i j) as [[Hij | ->] | Hji].
  - by exists i, j.
  - rewrite Hi in Hj. injection Hj as ->.
    assert (key_leb (key y) (key y) = true) by (apply key_leb_le; unfold key_le; lia).
    congruence.
  - pose proof (strongly_sorted_lookup _ j i y x (sorted_by_sorted l) Hji Hj Hi) as H.
    unfold key_order in H. congruence.
Qed.

End OrderingFacts.

Section SplitFacts.

Lemma contains_sep m c y : Text.contains (String c "") (m +:+ String c y) = true.
Proof.
  induction m as [|d m IH]; simpl.
  - destruct (ascii_dec c c); [|done]. by destruct y.
  - rewrite IH. apply orb_true_r.
Qed.

Lemma split_on_aux_last c cur y :
  no_char c y = true ->
  Text.split_on_aux c cur y
  = [string_of_list_ascii (rev cur ++ list_ascii_of_string y)].
Proof.
  revert cur. induction y as [|d y IH]; intros cur; simpl.
  - by rewrite app_nil_r.
  - intros [Hd Hy]%andb_prop. apply negb_true_iff in Hd. rewrite Hd.
    rewrite IH by done. simpl. by rewrite <- app_assoc.
Qed.

Lemma split_on_aux_first c cur m y :
  no_char c m = true ->
  Text.split_on_aux c cur (m +:+ String c y)
  = string_of_list_ascii (rev cur ++ list_ascii_of_string m)
      :: Text.split_on_aux c [] y.
Proof.
  revert cur. induction m as [|d m IH]; intros cur; simpl.
  - intros _. by rewrite Ascii.eqb_refl, app_nil_r.
  - intros [Hd Hm]%andb_prop. apply negb_true_iff in Hd. rewrite Hd.
    rewrite IH by done. simpl. by rewrite <- app_assoc.
Qed.

Lemma split_on_two c m y :
  no_char c m = true -> no_char c y = true ->
  Text.split_on c (m +:+ String c y) = [m; y].
Proof.
  intros Hm Hy. unfold Text.split_on.
  rewrite split_on_aux_first, split_on_aux_last by done. simpl.
  by rewrite !string_of_list_ascii_of_string.
Qed.

End SplitFacts.

Lemma period_key_counterexample :
  sort_months_key "Feb_2025" = (2025, 99)%Z
  /\ sort_months_key "January_2026" = (2026, 0)%Z
  /\ sorted_months {["January_2026"; "Feb_2025"]} = ["Feb_2025"; "January_2026"].
Proof. repeat split; vm_compute; reflexivity. Qed.

Section KeyFacts.

Lemma digit_text_isdigit y : py_isdigit y = digit_text y.
Proof.
  unfold py_isdigit, digit_text. f_equal.
  induction y as [|c y IH]; [done|]. cbn [all_chars]. rewrite IH. f_equal.
  unfold is_digit_char, is_decimal_digit, is_superscript_digit.
  by rewrite !orb_assoc.
Qed.

Lemma decimal_digit_text y : decimal_text y = true -> digit_text y = true.
Proof.
  unfold decimal_text, digit_text.
  intros [Hne Hall]%andb_prop. rewrite Hne. cbn [andb].
  induction y as [|c y IH]; [done|]. cbn [all_chars] in *.
  apply andb_prop in Hall as [Hc Hy]. rewrite Hc. cbn [orb andb].
  destruct y as [|d y]; [done|]. by apply IH.
Qed.

Lemma int_of_decimal y : forall acc,
  all_chars is_decimal_digit y = true ->
  int_of_digits acc y
  = Some (acc * 10 ^ Z.of_nat (String.length y) + decimal_value y)%Z.
Proof.
  induction y as [|c y IH]; intros acc; cbn [all_chars int_of_digits decimal_value
                                             String.length].
  - intros _. f_equal. lia.
  - intros [Hc Hy]%andb_prop. unfold is_decimal_digit in Hc. rewrite Hc.
    rewrite IH by done. f_equal.
    rewrite Nat2Z.inj_succ, Z.pow_succ_r by lia. lia.
Qed.

Lemma int_refuses y : forall acc,
  all_chars is_decimal_digit y = false -> int_of_digits acc y = None.
Proof.
  induction y as [|c y IH]; intros acc; cbn [all_chars int_of_digits]; [done|].
  unfold is_decimal_digit at 1.
  destruct ((48 <=? Text.code c)%nat && (Text.code c <=? 57)%nat); [|done].
  cbn [andb]. apply IH.
Qed.

Lemma index_of_elem (m : string) (l : list string) :
  m ∈ l -> exists i, Text.index_of m l = Some i /\ l !! i = Some m.
Proof.
  induction l as [|x l IH]; [by intros ?%elem_of_nil|].
  cbn [Text.index_of]. destruct (String.eqb_spec m x) as [->|Hne].
  - intros _. by exists 0.
  - intros [?|Hin]%elem_of_cons; [done|].
    destruct (IH Hin) as (i & Hi & Hl). exists (S i). by rewrite Hi.
Qed.

Lemma index_of_none (m : string) (l : list string) :
  m ∉ l -> Text.index_of m l = None.
Proof.
  induction l as [|x l IH]; [done|].
  intros Hnot. cbn [Text.index_of].
  destruct (String.eqb_spec m x) as [->|Hne]; [by destruct Hnot; left|].
  rewrite IH; [done|]. intros Hin. apply Hnot. by right.
Qed.

Lemma month_part_index (m : string) :
  month_part m (match Text.index_of m month_order with
                | Some i => Z.of_nat i
                | None => 99%Z
                end).
Proof.
  destruct (decide (m ∈ month_order)) as [Hin|Hnot].
  - destruct (index_of_elem _ _ Hin) as (i & -> & Hi). left. by exists i.
  - rewrite index_of_none by done. by right.
Qed.

End KeyFacts.

(** C3 (amended). A label that does not split at underscores into exactly
    two parts has the key (9999, 99).  A label m_y has, when y is a number
    in decimal digits, the key of that number and of the place of m among
    the twelve names, 99 when m is none of them; when y is not made of
    digits, the key of 9999 and of the place of m, or 99; and when y is
    made of digits of which one is a superscript, the key (9999, 99)
    whatever m is.  The period sequence is ascending in that key, so a
    label with a strictly smaller key stands before one with a larger key;
    the labels March_2025, Feb_Bad, January_2025 come out as January_2025,
    March_2025, Feb_Bad. *)
Theorem period_key_order :
  (forall s, length (Text.split_on "_" s) <> 2 ->
             sort_months_key s = (9999, 99)%Z)
  /\ (forall m y, no_char "_" m = true -> no_char "_" y = true ->
        exists k,
          month_part m k
          /\ (decimal_text y = true ->
              sort_months_key (m +:+ String "_" y) = (decimal_value y, k))
          /\ (digit_text y = false ->
              sort_months_key (m +:+ String "_" y) = (9999%Z, k))
          /\ (digit_text y = true -> decimal_text y = false ->
              sort_months_key (m +:+ String "_" y) = (9999, 99)%Z))
  /\ (forall (all_months : gset string) a b,
         a ∈ all_months -> b ∈ all_months ->
         key_ltb (sort_months_key a) (sort_months_key b) = true ->
         before (sorted_months all_months) a b)
  /\ sorted_months {["March_2025"; "Feb_Bad"; "January_2025"]}
     = ["January_2025"; "March_2025"; "Feb_Bad"].
Proof.
  split; [|split; [|split]].
  - intros s Hlen. unfold sort_months_key.
    destruct (Text.contains "_" s); [|done].
    destruct (Text.split_on "_" s) as [|m [|y [|z rest]]]; done.
  - intros m y Hm Hy. eexists. split; [apply (month_part_index m)|].
    assert (Hkey : sort_months_key (m +:+ String "_" y)
                   = match (if py_isdigit y then py_int y else Some 9999%Z) with
                     | Some yr =>
                         (yr, match Text.index_of m month_order with
                              | Some i => Z.of_nat i
                              | None => 99%Z
                              end)
                     | None => (9999, 99)%Z
                     end).
    { unfold sort_months_key. by rewrite contains_sep, split_on_two. }
    rewrite Hkey, digit_text_isdigit. split; [|split].
    + intros Hdec. rewrite (decimal_digit_text _ Hdec).
      apply andb_prop in Hdec as [_ Hall]. unfold py_int.
      rewrite int_of_decimal by done. by rewrite Z.mul_0_l, Z.add_0_l.
    + by intros ->.
    + intros Hdig Hdec. rewrite Hdig. unfold py_int.
      rewrite int_refuses; [done|].
      unfold decimal_text in Hdec. apply andb_false_iff in Hdec as [Hne | Hall];
        [|done].
      apply negb_false_iff, String.eqb_eq in Hne. by subst y.
  - intros all_months a b Ha Hb Hlt. unfold sorted_months.
    apply sorted_by_before; [by apply elem_of_elements .. | done].
  - vm_compute. reflexivity.
Qed.

Lemma period_key_order_witness :
  sort_months_key "a_b_c" = (9999, 99)%Z
  /\ (exists k, month_part "Feb" k /\ sort_months_key "Feb_2025" = (2025%Z, k))
  /\ (exists k, month_part "March" k /\ sort_months_key "March_Bad" = (9999%Z, k))
  /\ sort_months_key ("January_" +:+ String (ascii_of_nat 178) "") = (9999, 99)%Z
  /\ before (sorted_months {["Feb_Bad"; "January_2025"]}) "January_2025" "Feb_Bad".
Proof.
  destruct period_key_order as (Hsplit & Htwo & Hbefore & _).
  split; [|split; [|split; [|split]]].
  - apply (Hsplit "a_b_c"). vm_compute. discriminate.
  - destruct (Htwo "Feb" "2025") as (k & Hk & Hdec & _); [reflexivity ..|].
    exists k. split; [exact Hk|]. apply Hdec. reflexivity.
  - destruct (Htwo "March" "Bad") as (k & Hk & _ & Hnot & _); [reflexivity ..|].
    exists k. split; [exact Hk|]. apply Hnot. reflexivity.
  - destruct (Htwo "January" (String (ascii_of_nat 178) ""))
      as (k & _ & _ & _ & Hsup); [reflexivity ..|].
    apply Hsup; reflexivity.
  - apply (Hbefore {["Feb_Bad"; "January_2025"]}); [set_solver | set_solver | reflexivity].
Defined.

(** ** Dictionaries in insertion order *)

Section DictFacts.

Context {A : Type}.
Implicit Types (d : list (string * A)) (k : string).

Lemma dict_get_alter_eq f k d :
  Dict.get k (Dict.alter f k d) = f <$> Dict.get k d.
Proof.
  induction d as [|[k' v] d IH]; simpl; [done|].
  destruct (String.eqb k k') eqn:Hk; simpl; by rewrite Hk.
Qed.

Lemma dict_get_alter_ne f k k' d :
  k <> k' -> Dict.get k' (Dict.alter f k d) = Dict.get k' d.
Proof.
  intros Hne. induction d as [|[k0 v] d IH]; simpl; [done|].
  destruct (String.eqb_spec k k0) as [->|Hk0]; simpl.
  - by destruct (String.eqb_spec k' k0) as [->|].
  - by rewrite IH.
Qed.

Lemma dict_keys_alter f k d : Dict.keys (Dict.alter f k d) = Dict.keys d.
Proof.
  induction d as [|[k' v] d IH]; simpl; [done|].
  destruct (String.eqb k k'); simpl; [done | by rewrite <- IH].
Qed.

Lemma dict_get_app k d d' :
  Dict.get k (d ++ d') =
    match Dict.get k d with Some v => Some v | None => Dict.get k d' end.
Proof.
  induction d as [|[k' v] d IH]; simpl; [done|].
  by destruct (String.eqb k k').
Qed.

Lemma dict_get_none k d : Dict.get k d = None <-> k ∉ Dict.keys d.
Proof.
  induction d as [|[k' v] d IH]; simpl.
  - split; [intros _; apply not_elem_of_nil | done].
  - rewrite not_elem_of_cons.
    destruct (String.eqb_spec k k') as [->|Hne].
    + split; [done | by intros [? _]].
    + rewrite IH. split; [by split | by intros [_ ?]].
Qed.

Lemma dict_has_keys k d : Dict.has k d = true <-> k ∈ Dict.keys d.
Proof.
  unfold Dict.has. destruct (Dict.get k d) eqn:Hget.
  - split; [intros _ | done].
    destruct (decide (k ∈ Dict.keys d)) as [|Hn]; [done|].
    apply dict_get_none in Hn. congruence.
  - apply dict_get_none in Hget. split; [done | by intros ?].
Qed.

(** Two dictionaries with the same keys in the same order and the same
    values are the same. *)
Lemma dict_ext d1 d2 :
  NoDup (Dict.keys d1) -> Dict.keys d1 = Dict.keys d2 ->
  (forall k, Dict.get k d1 = Dict.get k d2) -> d1 = d2.
Proof.
  revert d2. induction d1 as [|[k1 v1] d1 IH]; intros [|[k2 v2] d2]; simpl; try done.
  intros Hnd Hkeys Hget. injection Hkeys as Hk Hkeys. subst k2.
  apply NoDup_cons in Hnd as [Hfresh Hnd].
  pose proof (Hget k1) as Hv. rewrite String.eqb_refl in Hv.
  injection Hv as Hv. subst v2. f_equal. apply IH; [done | done |].
  intros k. specialize (Hget k).
  destruct (String.eqb_spec k k1) as [Heq|Hne]; [subst k | done].
  transitivity (@None A); [|symmetry]; apply dict_get_none; [done|].
  by rewrite <- Hkeys.
Qed.

End DictFacts.

(** ** Merge loop *)

Section MergeFacts.

Variable float_repr : float -> string.
Variable fname : string.

Local Abbreviation key := (record_key float_repr).
Local Abbreviation merge := (merge_record float_repr fname).
Local Abbreviation merge_all := (merge_records float_repr fname).

Lemma merge_get_eq p r :
  Dict.get (key r) (merge p r)
  = Some (entry_step fname r (default (new_entry r) (Dict.get (key r) p))).
Proof.
  unfold merge_record, entry_step. rewrite !dict_get_alter_eq.
  unfold Dict.has. destruct (Dict.get (key r) p) as [e|] eqn:Hget.
  - by rewrite Hget.
  - rewrite dict_get_app, Hget. simpl. by rewrite String.eqb_refl.
Qed.

Lemma merge_get_ne p r k :
  k <> key r -> Dict.get k (merge p r) = Dict.get k p.
Proof.
  intros Hne. unfold merge_record.
  rewrite !dict_get_alter_ne by done.
  destruct (Dict.has (key r) p); [done|].
  rewrite dict_get_app. destruct (Dict.get k p); [done|]. simpl.
  by destruct (String.eqb_spec k (key r)).
Qed.

Lemma merge_keys p r :
  Dict.keys (merge p r)
  = if Dict.has (key r) p then Dict.keys p else Dict.keys p ++ [key r].
Proof.
  unfold merge_record. rewrite !dict_keys_alter.
  destruct (Dict.has (key r) p); [done|].
  unfold Dict.keys. by rewrite map_app.
Qed.

Lemma merge_keys_nodup p r :
  NoDup (Dict.keys p) -> NoDup (Dict.keys (merge p r)).
Proof.
  intros Hnd. rewrite merge_keys.
  destruct (Dict.has (key r) p) eqn:Hhas; [done|].
  apply NoDup_app. split; [done|]. split; [|apply NoDup_singleton].
  intros k Hk ->%list_elem_of_singleton.
  apply dict_has_keys in Hk. congruence.
Qed.

Lemma merge_all_keys_nodup p rs :
  NoDup (Dict.keys p) -> NoDup (Dict.keys (merge_all p rs)).
Proof.
  revert p. induction rs as [|r rs IH]; intros p Hnd; simpl; [done|].
  by apply IH, merge_keys_nodup.
Qed.

Lemma merge_has_mono p r k :
  Dict.has k p = true -> Dict.has k (merge p r) = true.
Proof.
  rewrite !dict_has_keys, merge_keys.
  destruct (Dict.has (key r) p); [done|]. intros ?. apply elem_of_app. by left.
Qed.

Lemma merge_all_has_mono p rs k :
  Dict.has k p = true -> Dict.has k (merge_all p rs) = true.
Proof.
  revert p. induction rs as [|r rs IH]; intros p Hk; simpl; [done|].
  by apply IH, merge_has_mono.
Qed.

Lemma merge_has_key p r : Dict.has (key r) (merge p r) = true.
Proof. unfold Dict.has. by rewrite merge_get_eq. Qed.

Lemma merge_all_has_keys p rs :
  Forall (fun r => Dict.has (key r) (merge_all p rs) = true) rs.
Proof.
  revert p. induction rs as [|r rs IH]; intros p; simpl; [constructor|].
  constructor; [|apply IH].
  apply merge_all_has_mono, merge_has_key.
Qed.

(** Records whose identifiers are all present add no key. *)
Lemma merge_all_keys_present p rs :
  Forall (fun r => Dict.has (key r) p = true) rs ->
  Dict.keys (merge_all p rs) = Dict.keys p.
Proof.
  revert p. induction rs as [|r rs IH]; intros p Hall; simpl; [done|].
  apply Forall_cons in Hall as [Hr Hrs].
  rewrite IH.
  - by rewrite merge_keys, Hr.
  - eapply Forall_impl; [exact Hrs|]. intros r'. apply merge_has_mono.
Qed.

(** The entry of an identifier after a file: the records of that
    identifier, applied in order to the slot. *)
Lemma merge_all_get p rs k :
  Dict.get k (merge_all p rs)
  = slot_fold fname (records_of float_repr k rs) (Dict.get k p).
Proof.
  revert p. induction rs as [|r rs IH]; intros p; simpl; [done|].
  rewrite IH. unfold records_of; simpl.
  destruct (String.eqb_spec (key r) k) as [<-|Hne]; simpl.
  - by rewrite merge_get_eq.
  - by rewrite merge_get_ne.
Qed.

Lemma slot_fold_some rs e :
  slot_fold fname rs (Some e) = Some (entry_fold fname rs e).
Proof.
  revert e. induction rs as [|r rs IH]; intros e; simpl; [done|]. apply IH.
Qed.

Lemma slot_fold_cons r rs slot :
  slot_fold fname (r :: rs) slot
  = Some (entry_fold fname (r :: rs) (default (new_entry r) slot)).
Proof. simpl. apply slot_fold_some. Qed.

Lemma entry_eq (a b : entry) :
  Name a = Name b -> Rating a = Rating b -> Months a = Months b -> a = b.
Proof. destruct a, b; simpl; congruence. Qed.

Lemma entry_step_name r e :
  Name (entry_step fname r e) = name_step (Name e) (r_Name r).
Proof.
  unfold entry_step, update_name, name_step; simpl.
  by destruct (negb (truthy (Name e)) && notna (r_Name r)).
Qed.

Lemma entry_step_rating r e : Rating (entry_step fname r e) = Rating e.
Proof.
  unfold entry_step, update_name; simpl.
  by destruct (negb (truthy (Name e)) && notna (r_Name r)).
Qed.

Lemma entry_step_months r e :
  Months (entry_step fname r e) = <[fname := record_metrics r]> (Months e).
Proof.
  unfold entry_step, update_name; simpl.
  by destruct (negb (truthy (Name e)) && notna (r_Name r)).
Qed.

Lemma entry_fold_cons r rs e :
  entry_fold fname (r :: rs) e = entry_fold fname rs (entry_step fname r e).
Proof. reflexivity. Qed.

Lemma name_fold_cons v vs stored :
  name_fold (v :: vs) stored = name_fold vs (name_step stored v).
Proof. reflexivity. Qed.

Lemma entry_fold_name rs e :
  Name (entry_fold fname rs e) = name_fold (r_Name <$> rs) (Name e).
Proof.
  revert e. induction rs as [|r rs IH]; intros e; [done|].
  by rewrite entry_fold_cons, fmap_cons, name_fold_cons, IH, entry_step_name.
Qed.

Lemma entry_fold_rating rs e : Rating (entry_fold fname rs e) = Rating e.
Proof.
  revert e. induction rs as [|r rs IH]; intros e; [done|].
  by rewrite entry_fold_cons, IH, entry_step_rating.
Qed.

Lemma entry_fold_months rs e :
  Months (entry_fold fname rs e)
  = match last rs with
    | Some r => <[fname := record_metrics r]> (Months e)
    | None => Months e
    end.
Proof.
  revert e. induction rs as [|r rs IH]; intros e; [done|].
  rewrite entry_fold_cons, IH, entry_step_months.
  destruct rs as [|r' rs]; [done|].
  rewrite (last_cons r). destruct (last (r' :: rs)) eqn:Hlast.
  - by rewrite insert_insert_eq.
  - by apply last_None in Hlast.
Qed.

(** *** The stored name *)

Lemma name_fold_truthy vs stored :
  truthy stored = true -> name_fold vs stored = stored.
Proof.
  intros Ht. induction vs as [|v vs IH]; [done|].
  rewrite name_fold_cons. unfold name_step. by rewrite Ht.
Qed.

Lemma name_fold_falsy vs stored :
  truthy (name_fold vs stored) = false ->
  truthy stored = false
  /\ Forall (fun v => notna v = true -> truthy v = false) vs.
Proof.
  revert stored. induction vs as [|v vs IH]; intros stored.
  - by split.
  - rewrite name_fold_cons. intros [Hstep Hvs]%IH. unfold name_step in Hstep.
    destruct (truthy stored) eqn:Hs; simpl in Hstep; [congruence|].
    split; [done|]. constructor; [|done].
    intros Hv. by rewrite Hv in Hstep.
Qed.

Lemma name_fold_last vs stored :
  truthy stored = false ->
  Forall (fun v => notna v = true -> truthy v = false) vs ->
  name_fold vs stored = default stored (last (List.filter notna vs)).
Proof.
  intros Hs Hvs. revert stored Hs.
  induction Hvs as [|v vs Hv _ IH]; intros stored Hs; [done|].
  rewrite name_fold_cons. unfold name_step. rewrite Hs. simpl.
  destruct (notna v) eqn:Hn.
  - rewrite IH by auto.
    destruct (List.filter notna vs) as [|w ws]; [done|].
    rewrite (last_cons v). by destruct (last (w :: ws)).
  - by apply IH.
Qed.

Lemma name_fold_idem vs stored :
  name_fold vs (name_fold vs stored) = name_fold vs stored.
Proof.
  destruct (truthy (name_fold vs stored)) eqn:Ht.
  - by apply name_fold_truthy.
  - pose proof (name_fold_falsy _ _ Ht) as [Hs Hvs].
    rewrite (name_fold_last vs (name_fold vs stored)) by done.
    rewrite (name_fold_last vs stored) by done.
    by destruct (last (List.filter notna vs)).
Qed.

Lemma entry_fold_idem rs e :
  entry_fold fname rs (entry_fold fname rs e) = entry_fold fname rs e.
Proof.
  apply entry_eq.
  - rewrite !entry_fold_name. apply name_fold_idem.
  - by rewrite !entry_fold_rating.
  - rewrite !entry_fold_months.
    destruct (last rs); [by rewrite insert_insert_eq | done].
Qed.

Lemma slot_fold_idem rs slot :
  slot_fold fname rs (slot_fold fname rs slot) = slot_fold fname rs slot.
Proof.
  destruct rs as [|r rs]; [done|].
  rewrite (slot_fold_cons r rs slot), slot_fold_some.
  by rewrite entry_fold_idem.
Qed.

(** C9. Reprocessing is idempotent: for every merged mapping (a dictionary,
    so its keys are distinct), every period label and every list of records,
    merging the list a second time leaves the mapping as the first merge
    left it; in it, the month entry of an identifier under that label holds
    the metrics of the last record of that identifier. *)
Theorem reprocess_same_period p rs :
  NoDup (Dict.keys p) ->
  merge_all (merge_all p rs) rs = merge_all p rs
  /\ (forall k r e,
        last (records_of float_repr k rs) = Some r ->
        Dict.get k (merge_all p rs) = Some e ->
        Months e !! fname = Some (record_metrics r)).
Proof.
  intros Hnd. split.
  - apply dict_ext.
    + by apply merge_all_keys_nodup, merge_all_keys_nodup.
    + apply merge_all_keys_present, merge_all_has_keys.
    + intros k. rewrite !merge_all_get. apply slot_fold_idem.
  - intros k r e Hlast. rewrite merge_all_get.
    destruct (records_of float_repr k rs) as [|r0 rs0] eqn:Hrs; [done|].
    rewrite slot_fold_cons. intros He. apply (inj Some) in He. rewrite <- He.
    rewrite entry_fold_months, Hlast. apply lookup_insert_eq.
Qed.

End MergeFacts.

Lemma reprocess_same_period_witness :
  merge_records example_repr "February_2025"
    (merge_records example_repr "February_2025"
       [("INE123", nameless_entry)] [acme_february; beta_february])
    [acme_february; beta_february]
  = merge_records example_repr "February_2025"
      [("INE123", nameless_entry)] [acme_february; beta_february].
Proof.
  apply (reprocess_same_period example_repr "February_2025"
           [("INE123", nameless_entry)] [acme_february; beta_february]).
  apply NoDup_singleton.
Defined.

(** ** Name and rating of an entry *)

Section MetadataFacts.

Variable float_repr : float -> string.
Variable fname : string.

Local Abbreviation key := (record_key float_repr).
Local Abbreviation merge_all := (merge_records float_repr fname).

Lemma name_fold_empty vs stored :
  truthy stored = false ->
  Forall empty_name vs ->
  truthy (name_fold vs stored) = false.
Proof.
  intros Hs Hvs. revert stored Hs.
  induction Hvs as [|v vs Hv _ IH]; intros stored Hs; [done|].
  rewrite name_fold_cons. apply IH. unfold name_step. rewrite Hs.
  destruct Hv as [-> | [-> | ->]]; done.
Qed.

Lemma records_of_app k rs1 rs2 :
  records_of float_repr k (rs1 ++ rs2)
  = records_of float_repr k rs1 ++ records_of float_repr k rs2.
Proof. unfold records_of. apply List.filter_app. Qed.

Lemma records_of_names k rs :
  Forall (fun r => key r = k -> empty_name (r_Name r)) rs ->
  Forall empty_name (r_Name <$> records_of float_repr k rs).
Proof.
  induction 1 as [|r rs Hr _ IH]; simpl; [constructor|].
  unfold records_of; simpl.
  destruct (String.eqb_spec (key r) k) as [Hk|]; [|done].
  constructor; [by apply Hr | done].
Qed.

(** C2 (amended). A new identifier gets the name and the rating of the
    record that creates its entry.  For an entry already stored: the rating
    is never changed by later records; a stored name that is a non-empty
    text is never replaced; and when the stored name is [None] or the empty
    text, the first later record of the identifier that supplies a non-empty
    text as name sets the name, which then stays. *)
Theorem name_first_non_empty_wins (p : portfolio) :
  (forall r, Dict.get (key r) p = None ->
     exists e, Dict.get (key r) (merge_record float_repr fname p r) = Some e
               /\ Name e = r_Name r /\ Rating e = r_Rating r)
  /\ (forall rs k e, Dict.get k p = Some e ->
       exists e', Dict.get k (merge_all p rs) = Some e'
         /\ Rating e' = Rating e
         /\ (forall s, Name e = VStr s -> s <> "" -> Name e' = VStr s)
         /\ (forall pre r rest s,
               Name e = VNone \/ Name e = VStr "" ->
               rs = pre ++ r :: rest ->
               Forall (fun r' => key r' = k -> empty_name (r_Name r')) pre ->
               key r = k -> r_Name r = VStr s -> s <> "" ->
               Name e' = VStr s)).
Proof.
  split.
  - intros r Hnone. eexists. split; [apply merge_get_eq|].
    rewrite entry_step_name, entry_step_rating, Hnone. simpl.
    split; [|done]. unfold name_step. by destruct (_ && _).
  - intros rs k e Hget. eexists. split.
    { rewrite merge_all_get, Hget. apply slot_fold_some. }
    split; [apply entry_fold_rating|]. rewrite entry_fold_name. split.
    + intros s Hs Hne. rewrite Hs. apply name_fold_truthy. simpl.
      apply negb_true_iff. by apply String.eqb_neq.
    + intros pre r rest s Hunset -> Hpre Hk Hname Hne.
      rewrite records_of_app. unfold records_of at 2. simpl.
      apply String.eqb_eq in Hk as Hkb. rewrite Hkb.
      rewrite fmap_app, fmap_cons. unfold name_fold.
      rewrite fold_left_app. simpl. fold (name_fold (r_Name <$> records_of float_repr k pre) (Name e)).
      assert (Hfalsy : truthy (name_fold (r_Name <$> records_of float_repr k pre) (Name e)) = false).
      { apply name_fold_empty; [by destruct Hunset as [-> | ->] | by apply records_of_names]. }
      unfold name_step at 2. rewrite Hfalsy, Hname. simpl.
      apply (name_fold_truthy _ (VStr s)). simpl.
      apply negb_true_iff. by apply String.eqb_neq.
Qed.

End MetadataFacts.

Lemma name_first_non_empty_wins_counterexample :
  Rating <$> Dict.get "INE123"
    (merge_records example_repr "February_2025"
       (merge_records example_repr "January_2025" [] [acme_january])
       [acme_february; beta_february])
  = Some (VStr "")
  /\ r_Rating acme_february = VStr "Banks"
  /\ record_key example_repr acme_february = "INE123".
Proof. repeat split. Qed.

Lemma name_first_non_empty_wins_witness :
  exists e', Dict.get "INE123"
               (merge_records example_repr "January_2025"
                  [("INE123", nameless_entry)] [acme_february; acme_named])
             = Some e'
    /\ Rating e' = VNone /\ Name e' = VStr "Acme".
Proof.
  destruct (proj2 (name_first_non_empty_wins example_repr "January_2025"
                     [("INE123", nameless_entry)])
              [acme_february; acme_named] "INE123" nameless_entry eq_refl)
    as (e' & Hget & Hrating & _ & Hname).
  exists e'. split; [exact Hget|]. split; [exact Hrating|].
  apply (Hname [acme_february] acme_named [] "Acme").
  - by left.
  - reflexivity.
  - constructor; [|constructor]. intros _. right. by right.
  - reflexivity.
  - reflexivity.
  - discriminate.
Defined.

(** ** Sheet assembly *)

Section BlockFacts.

Context {A B : Type} (f : A -> list B).
Hypothesis block : forall a, length (f a) = 3.

Lemma length_flat_map3 (l : list A) : length (flat_map f l) = 3 * length l.
Proof.
  induction l as [|a l IH]; simpl; [done|].
  rewrite length_app, block, IH. lia.
Qed.

Lemma lookup_flat_map3 (l : list A) i j a :
  l !! i = Some a -> j < 3 -> flat_map f l !! (3 * i + j) = f a !! j.
Proof.
  revert i. induction l as [|b l IH]; intros i Hi Hj; [done|]. simpl.
  destruct i as [|i]; simpl in Hi.
  - injection Hi as ->. rewrite lookup_app_l; [f_equal; lia | rewrite block; lia].
  - rewrite lookup_app_r by (rewrite block; lia).
    rewrite block, <- (IH i Hi Hj). f_equal. lia.
Qed.

End BlockFacts.

Section AssemblyFacts.

Variable float_of_text : string -> option float.

Local Abbreviation row_cells' := (row_cells float_of_text).
Local Abbreviation month_cells' := (month_cells float_of_text).
Local Abbreviation column_totals' := (column_totals float_of_text).
Local Abbreviation data_row' := (data_row float_of_text).
Local Abbreviation amount' := (amount float_of_text).

Lemma length_row_cells months data :
  length (row_cells' months data) = 3 * length months.
Proof. unfold row_cells. by apply length_flat_map3. Qed.

Lemma lookup_row_cells months data i j m :
  months !! i = Some m -> j < 3 ->
  row_cells' months data !! (3 * i + j) = month_cells' data m !! j.
Proof. intros. unfold row_cells. by apply lookup_flat_map3. Qed.

Lemma totals_fold_lookup months (p : portfolio) totals c x :
  c < 3 * length months ->
  totals !! c = Some x ->
  fold_left (fun totals item => add_to_totals totals (row_cells' months item.2))
            p totals !! c
  = Some (fold_left (fun acc item => PrimFloat.add acc (amount' months item.2 c)) p x).
Proof.
  intros Hc. revert totals x. induction p as [|item p IH]; intros totals x Hx; [done|].
  simpl. apply IH. unfold add_to_totals.
  rewrite lookup_zip_with, Hx. simpl. unfold amount.
  destruct ((row_cells' months item.2).*1 !! c) as [y|] eqn:Hy; [done|].
  apply lookup_ge_None in Hy.
  rewrite length_fmap, length_row_cells in Hy. lia.
Qed.

(** The total of a column is the sum, in row order and from 0.0, of what
    the rows add to it. *)
Lemma column_totals_lookup months (p : portfolio) c :
  c < 3 * length months ->
  column_totals' months p !! c
  = Some (fold_left (fun acc item => PrimFloat.add acc (amount' months item.2 c))
                    p PrimFloat.zero).
Proof.
  intros Hc. unfold column_totals.
  apply totals_fold_lookup; [done|]. by apply lookup_replicate_2.
Qed.

Lemma length_column_totals months (p : portfolio) :
  length (column_totals' months p) = 3 * length months.
Proof.
  unfold column_totals.
  assert (Hgen : forall totals,
             length totals = 3 * length months ->
             length (fold_left (fun totals item =>
                                  add_to_totals totals (row_cells' months item.2))
                               p totals) = 3 * length months).
  { induction p as [|item p IH]; intros totals Hlen; simpl; [done|].
    apply IH. unfold add_to_totals.
    rewrite length_zip_with, length_fmap, length_row_cells. lia. }
  apply Hgen, length_replicate.
Qed.

Lemma lookup_map {A B} (f : A -> B) (l : list A) i :
  map f l !! i = f <$> l !! i.
Proof.
  revert i. induction l as [|a l IH]; intros [|i]; simpl; done.
Qed.

Lemma lookup_map_Some {A B} (f : A -> B) (l : list A) i a :
  l !! i = Some a -> map f l !! i = Some (f a).
Proof. intros Ha. by rewrite lookup_map, Ha. Qed.

(** The rows of the sheet. *)
Lemma build_sheet_rows_length (months : list string) (p : portfolio) :
  Forall (fun row => length row = 3 + 3 * length months) (build_sheet float_of_text months p).
Proof.
  unfold build_sheet. repeat apply Forall_app_2.
  - repeat constructor.
    + simpl. rewrite length_replicate. lia.
    + rewrite length_app, length_fmap.
      rewrite (length_flat_map3 (fun m => [VStr m; VNone; VNone])) by done.
      done.
    + rewrite length_app, length_replicate.
      rewrite (length_flat_map3 (fun _ => VStr <$> sub_headers)) by done.
      done.
  - apply Forall_forall. intros row (item & -> & _)%list_elem_of_fmap.
    unfold data_row. rewrite length_app, length_fmap, length_row_cells. done.
  - repeat constructor.
    rewrite length_app, length_fmap, length_column_totals. done.
Qed.

Lemma build_sheet_length months (p : portfolio) :
  length (build_sheet float_of_text months p) = 4 + length p.
Proof. unfold build_sheet. rewrite !length_app, length_map. simpl. lia. Qed.

Lemma build_sheet_header months (p : portfolio) :
  build_sheet float_of_text months p !! 1
  = Some ((VStr <$> headers_static)
            ++ flat_map (fun m => [VStr m; VNone; VNone]) months).
Proof. reflexivity. Qed.

Lemma build_sheet_data_row months (p : portfolio) r item :
  p !! r = Some item ->
  build_sheet float_of_text months p !! (3 + r) = Some (data_row' months item).
Proof.
  intros Hitem.
  transitivity ((map (data_row' months) p
                   ++ [[VStr "Total"; VNone; VNone]
                         ++ (VNum <$> column_totals' months p)]) !! r);
    [reflexivity|].
  rewrite lookup_app_l.
  - exact (lookup_map_Some (data_row' months) p r item Hitem).
  - rewrite length_map. by eapply lookup_lt_Some.
Qed.

Lemma build_sheet_data_rows months (p : portfolio) :
  drop 3 (build_sheet float_of_text months p)
  = map (data_row' months) p
      ++ [[VStr "Total"; VNone; VNone] ++ (VNum <$> column_totals' months p)].
Proof. reflexivity. Qed.

Lemma build_sheet_totals_row months (p : portfolio) :
  build_sheet float_of_text months p !! (3 + length p)
  = Some ([VStr "Total"; VNone; VNone] ++ (VNum <$> column_totals' months p)).
Proof.
  transitivity ((map (data_row' months) p
                   ++ [[VStr "Total"; VNone; VNone]
                         ++ (VNum <$> column_totals' months p)]) !! length p);
    [reflexivity|].
  rewrite lookup_app_r by (rewrite length_map; lia).
  rewrite length_map. by replace (length p - length p) with 0 by lia.
Qed.

End AssemblyFacts.

(** C4. The stored Quantity of a holding whose cell is blank is NaN, not
    zero, and the assembler adds it as it is: on [blank_quantity_sheet] the
    Quantity total of the period is NaN, where 100 plus a zero for the blank
    cell is expected; the Market value column, without blank cell, sums to
    55.5, and the column without data to 0. *)
Theorem blank_quantity_total :
  main example_repr example_float example_series
       [("January_2025.xls", Some (plain_book blank_quantity_sheet))]
  = Some
      [ [VStr "PPFAS Flexi cap Fund"; VNone; VNone; VNone; VNone; VNone];
        [VStr "Name of the Instrument"; VStr "ISIN"; VStr "Industry/Rating";
         VStr "January_2025"; VNone; VNone];
        [VNone; VNone; VNone; VStr "Quantity";
         VStr "Market Value (Rs. Lakhs)"; VStr "% Net Assets"];
        [VStr "Acme Ltd"; VStr "INE123"; VNone; VNum 100; VNum 50.5; VNone];
        [VStr "Beta Ltd"; VStr "INE999"; VNone; VNum PrimFloat.nan; VNum 5; VNone];
        [VStr "Total"; VNone; VNone; VNum PrimFloat.nan; VNum 55.5; VNum 0] ].
Proof. vm_compute. reflexivity. Qed.

(** ** Periods of files that give no record *)

Section PeriodFacts.

Variable float_repr : float -> string.
Variable float_of_text : string -> option float.
Variable series_repr : nat -> list pyval -> string.

Local Abbreviation process_file' := (process_file float_repr series_repr).
Local Abbreviation process_files' := (process_files float_repr series_repr).
Local Abbreviation read := (read_portfolio_file float_repr series_repr).
Local Abbreviation merge := (merge_record float_repr).

Lemma process_file_months st f :
  (process_file' st f).1 = {[period_label f.1]} ∪ st.1.
Proof. unfold process_file. by destruct (read f.2). Qed.

Lemma fold_process_file_months files st :
  (fold_left process_file' files st).1
  = st.1 ∪ list_to_set ((fun f => period_label f.1) <$> files).
Proof.
  revert st. induction files as [|f files IH]; intros st; simpl.
  - set_solver.
  - rewrite IH, process_file_months. set_solver.
Qed.

Lemma process_files_label files f :
  f ∈ files -> period_label f.1 ∈ (process_files' files).1.
Proof.
  intros Hf. unfold process_files.
  rewrite fold_process_file_months. apply elem_of_union_r.
  apply elem_of_list_to_set, list_elem_of_fmap. by exists f.
Qed.

Lemma no_month_alter label f k p :
  (forall e, Months e !! label = None -> Months (f e) !! label = None) ->
  no_month label p -> no_month label (Dict.alter f k p).
Proof.
  intros Hf. induction 1 as [|[k' e] p He Hp IH]; simpl; [constructor|].
  destruct (String.eqb k k').
  - constructor; [by apply Hf | exact Hp].
  - constructor; [exact He | exact IH].
Qed.

Lemma no_month_merge label fname p r :
  fname <> label -> no_month label p -> no_month label (merge fname p r).
Proof.
  intros Hne Hp. unfold merge_record.
  apply no_month_alter.
  { intros e He. simpl. by rewrite lookup_insert_ne. }
  apply no_month_alter.
  { intros e He. unfold update_name. by destruct (_ && _). }
  destruct (Dict.has _ p); [done|].
  apply Forall_app. split; [done|]. by repeat constructor.
Qed.

Lemma no_month_merge_all label fname p rs :
  fname <> label -> no_month label p ->
  no_month label (merge_records float_repr fname p rs).
Proof.
  intros Hne. revert p. induction rs as [|r rs IH]; intros p Hp; simpl; [done|].
  by apply IH, no_month_merge.
Qed.

Lemma no_month_process label files st :
  (forall f, f ∈ files -> period_label f.1 = label ->
             read f.2 = None \/ read f.2 = Some []) ->
  no_month label st.2 ->
  no_month label (fold_left process_file' files st).2.
Proof.
  revert st. induction files as [|f files IH]; intros st Hfail Hst; simpl; [done|].
  apply IH.
  - intros f' Hf'. apply Hfail. by right.
  - unfold process_file.
    destruct (decide (period_label f.1 = label)) as [Hl|Hl].
    + destruct (Hfail f (list_elem_of_here _ _) Hl) as [-> | ->]; done.
    + destruct (read f.2); [|done]. simpl. by apply no_month_merge_all.
Qed.

Lemma fold_add_zero {A} (g : A -> float) (l : list A) :
  Forall (fun a => g a = PrimFloat.zero) l ->
  fold_left (fun acc a => PrimFloat.add acc (g a)) l PrimFloat.zero = PrimFloat.zero.
Proof.
  induction 1 as [|a l Ha _ IH]; simpl; [done|]. by rewrite Ha.
Qed.

Lemma month_cells_none (data : entry) label j :
  Months data !! label = None -> j < 3 ->
  month_cells float_of_text data label !! j = Some (PrimFloat.zero, VNone).
Proof.
  intros Hnone Hj. unfold month_cells, node. rewrite Hnone.
  destruct j as [|[|[|j]]]; try done. lia.
Qed.


End PeriodFacts.


(** ** Read-back of the assembled sheet *)

Section ReadBackFacts.

Variable float_repr : float -> string.
Variable float_of_text : string -> option float.
Variable infer_types : sheet -> sheet.

Local Abbreviation clean' := (clean float_of_text).
Local Abbreviation group_back' := (group_back float_of_text).
Local Abbreviation read_months' := (read_months float_of_text).
Local Abbreviation read_row' := (read_row float_repr float_of_text).
Local Abbreviation read_rows' := (read_rows float_repr float_of_text).
Local Abbreviation row_cells' := (row_cells float_of_text).
Local Abbreviation data_row' := (data_row float_of_text).

Lemma lookup_app_plus {B} (l1 l2 : list B) k :
  (l1 ++ l2) !! (length l1 + k) = l2 !! k.
Proof. induction l1 as [|b l1 IH]; simpl; done. Qed.

Lemma dict_set_fresh {B} (k : pyval) (v : B) (d : list (pyval * B)) :
  Forall (fun k' => pyval_eqb k k' = false) d.*1 ->
  dict_set k v d = d ++ [(k, v)].
Proof.
  induction d as [|[k' v'] d IH]; simpl; [done|].
  intros [Hk Hd]%Forall_cons. by rewrite Hk, IH.
Qed.

(** *** The cells as they come back *)

Lemma read_cell_text m :
  read_cell (VStr m) = if plain_text m then VStr m else blank.
Proof.
  unfold read_cell, saved_cell, plain_text.
  destruct (String.eqb m ""); [done|].
  destruct (is_formula m); [done|]. cbn [orb negb andb].
  destruct (Text.mem m ERROR_CODES); [done|]. cbn [negb andb na_cell].
  by destruct (Text.mem m na_texts).
Qed.

Lemma read_cell_present v : isna (read_cell v) = false -> read_cell v = v.
Proof.
  destruct v as [|s|x]; [by vm_compute | |].
  - rewrite read_cell_text. by destruct (plain_text s).
  - unfold read_cell, saved_cell. by destruct (is_finite x).
Qed.

Lemma read_cell_num x :
  read_cell (VNum x) = if is_finite x then VNum x else blank.
Proof. unfold read_cell, saved_cell. by destruct (is_finite x). Qed.

Lemma every_third_groups (months : list string) :
  every_third 0 (map read_cell (flat_map (fun m => [VStr m; VNone; VNone]) months))
  = (fun m => read_cell (VStr m)) <$> months.
Proof.
  induction months as [|m months IH]; [done|].
  cbn [flat_map app map every_third fmap list_fmap]. by rewrite IH.
Qed.

Lemma read_months_groups months : forall cells prefix acc,
  NoDup months ->
  length cells = 3 * length months ->
  Forall (fun m => Forall (fun k' => pyval_eqb (VStr m) k' = false) acc.*1) months ->
  read_months' (prefix ++ map read_cell cells) (length prefix) (VStr <$> months) acc
  = Some (acc ++ group_back' months cells).
Proof.
  induction months as [|m months IH]; intros cells prefix acc Hnd Hlen Hfresh.
  - simpl. by rewrite app_nil_r.
  - destruct cells as [|q [|v [|c rest]]]; simpl in Hlen; try lia.
    apply NoDup_cons in Hnd as [Hm Hnd].
    apply Forall_cons in Hfresh as [Hfm Hfresh].
    cbn [fmap list_fmap read_months map].
    replace (length prefix) with (length prefix + 0) at 1 by lia.
    rewrite !lookup_app_plus. cbn [lookup list_lookup mbind option_bind].
    rewrite dict_set_fresh by done.
    replace (prefix ++ read_cell q :: read_cell v :: read_cell c :: map read_cell rest)
      with ((prefix ++ [read_cell q; read_cell v; read_cell c]) ++ map read_cell rest)
      by (by rewrite <- app_assoc).
    replace (length prefix + 3)
      with (length (prefix ++ [read_cell q; read_cell v; read_cell c]))
      by (rewrite length_app; simpl; lia).
    rewrite IH; [| done | lia |].
    + by rewrite <- app_assoc.
    + rewrite Forall_forall in Hfresh. apply Forall_forall. intros m' Hm'.
      rewrite fmap_app. apply Forall_app. split; [by apply Hfresh|].
      repeat constructor. simpl. apply String.eqb_neq. by intros ->.
Qed.

Lemma isna_num x : isna (VNum x) = PrimFloat.is_nan x.
Proof. unfold isna. simpl. apply negb_involutive. Qed.

Lemma clean_num x :
  clean' (VNum x) = if PrimFloat.is_nan x then PrimFloat.zero else x.
Proof. unfold clean. by rewrite isna_num, orb_false_r. Qed.

Lemma clean_read_num x :
  clean' (read_cell (VNum x)) = if is_finite x then x else PrimFloat.zero.
Proof.
  rewrite read_cell_num. unfold is_finite.
  destruct (PrimFloat.is_nan x) eqn:Hnan; cbn [negb andb]; [done|].
  destruct (PrimFloat.is_infinity x); cbn [negb]; [done|].
  by rewrite clean_num, Hnan.
Qed.

Lemma clean_written (v : pyval) :
  clean' (read_cell (write_val float_of_text v).2) = zero_coerced float_of_text v.
Proof.
  unfold write_val, zero_coerced.
  destruct v as [|s|x]; cbn [is_none snd py_float]; [done | |];
    apply clean_read_num.
Qed.

Lemma group_back_row_cells months (data : entry) :
  group_back' months (row_cells' months data).*2
  = (fun m => (VStr m,
               {| rb_Quantity := zero_coerced float_of_text (node data m Quantity);
                  rb_Value := zero_coerced float_of_text (node data m MarketValue);
                  rb_Pct := zero_coerced float_of_text (node data m PctAssets) |}))
      <$> months.
Proof.
  induction months as [|m months IH]; [done|].
  cbn [row_cells flat_map month_cells fmap list_fmap app
       group_back].
  rewrite !clean_written. f_equal. exact IH.
Qed.

Lemma read_row_data months (item : string * entry) :
  NoDup months ->
  read_row' (VStr <$> months) (map read_cell (data_row' months item))
  = Some (if named float_repr item
          then Some (record_back float_repr float_of_text months item)
          else None).
Proof.
  intros Hnd. unfold read_row, named, data_row.
  cbn [app map lookup list_lookup mbind option_bind].
  destruct (isna (read_cell (Name item.2))
            || String.eqb (Text.lower (py_str float_repr (read_cell (Name item.2)))) "nan")
    eqn:Hname; [done|].
  cbn [negb].
  pose proof (read_months_groups months (row_cells' months item.2).*2
                [read_cell (Name item.2); read_cell (VStr item.1);
                 read_cell (Rating item.2)] [] Hnd) as Hms.
  cbn [app length] in Hms. rewrite Hms.
  - cbn [mbind option_bind app]. rewrite group_back_row_cells.
    unfold record_back. do 3 f_equal.
    apply orb_false_elim in Hname as [Hna _]. by apply read_cell_present.
  - rewrite length_fmap. unfold row_cells.
    by apply length_flat_map3.
  - apply Forall_forall. intros m _. constructor.
Qed.

Lemma read_rows_data months (p : portfolio) tail :
  NoDup months ->
  read_rows' (VStr <$> months) (map (map read_cell) (map (data_row' months) p ++ tail))
  = data ← read_rows' (VStr <$> months) (map (map read_cell) tail);
    Some ((record_back float_repr float_of_text months <$> List.filter (named float_repr) p)
            ++ data).
Proof.
  intros Hnd. induction p as [|item p IH].
  - simpl. by destruct (read_rows' _ _).
  - cbn [map app read_rows List.filter].
    rewrite read_row_data by done. cbn [mbind option_bind].
    rewrite IH. destruct (read_rows' _ (map _ tail)) as [data|]; [|done].
    cbn [mbind option_bind]. by destruct (named float_repr item).
Qed.

Lemma read_row_total months (p : portfolio) :
  NoDup months ->
  read_row' (VStr <$> months)
    (map read_cell ([VStr "Total"; VNone; VNone]
                    ++ (VNum <$> column_totals float_of_text months p)))
  = Some (Some (total_back float_of_text months p)).
Proof.
  intros Hnd. unfold read_row.
  pose proof (read_months_groups months (VNum <$> column_totals float_of_text months p)
                [read_cell (VStr "Total"); read_cell VNone; read_cell VNone] [] Hnd)
    as Hms.
  cbn [app length] in Hms.
  cbn [app map lookup list_lookup mbind option_bind].
  change (isna (read_cell (VStr "Total"))
          || String.eqb (Text.lower (py_str float_repr (read_cell (VStr "Total")))) "nan")
    with false.
  cbn iota. rewrite Hms; [done | |].
  - rewrite length_fmap. apply length_column_totals.
  - apply Forall_forall. intros m _. constructor.
Qed.

Lemma read_rows_total months (p : portfolio) :
  NoDup months ->
  read_rows' (VStr <$> months)
    (map (map read_cell)
         [[VStr "Total"; VNone; VNone]
            ++ (VNum <$> column_totals float_of_text months p)])
  = Some [total_back float_of_text months p].
Proof.
  intros Hnd. cbn [map read_rows]. by rewrite read_row_total.
Qed.

(** *** The rows as the reader and the parser hand them over *)

Lemma last_map {A B} (f : A -> B) (l : list A) : last (map f l) = f <$> last l.
Proof.
  induction l as [|a l IH]; [done|]. destruct l as [|b l]; [done|].
  change (last (map f (a :: b :: l))) with (last (map f (b :: l))).
  by rewrite IH.
Qed.

Lemma trim_row_pad (row : list pyval) :
  trim_row row ++ replicate (length row - length (trim_row row)) VNone = row.
Proof.
  induction row as [|c row IH]; [done|]. cbn [trim_row].
  destruct (trim_row row) as [|d rest] eqn:Htrim.
  - cbn [app length] in IH. rewrite Nat.sub_0_r in IH.
    destruct c as [|t|x]; cbn [is_none app length].
    + rewrite Nat.sub_0_r. cbn [replicate]. by rewrite IH.
    + replace (S (length row) - 1) with (length row) by lia. by rewrite IH.
    + replace (S (length row) - 1) with (length row) by lia. by rewrite IH.
  - cbn [app length] in *.
    replace (S (length row) - S (S (length rest)))
      with (length row - S (length rest)) by lia.
    by rewrite IH.
Qed.

Lemma length_trim_row (row : list pyval) : length (trim_row row) <= length row.
Proof.
  rewrite <- (trim_row_pad row) at 2. rewrite length_app. lia.
Qed.

Lemma trim_row_last (row : list pyval) c :
  last row = Some c -> is_none c = false -> trim_row row = row.
Proof.
  induction row as [|d row IH]; [done|]. cbn [trim_row].
  destruct row as [|e row].
  - intros [= ->] Hc. cbn [trim_row]. by rewrite Hc.
  - intros Hlast Hc. change (last (d :: e :: row)) with (last (e :: row)) in Hlast.
    by rewrite IH.
Qed.

Lemma trim_row_head (row : list pyval) c :
  is_none c = false -> trim_row (c :: row) <> [].
Proof.
  intros Hc. cbn [trim_row]. destruct (trim_row row); [by rewrite Hc | done].
Qed.

Lemma trim_rows_last (data : sheet) row :
  last data = Some row -> row <> [] -> trim_rows data = data.
Proof.
  induction data as [|r data IH]; [done|]. cbn [trim_rows].
  destruct data as [|r' data].
  - intros [= ->] Hrow. cbn [trim_rows]. by destruct row.
  - intros Hlast Hrow.
    change (last (r :: r' :: data)) with (last (r' :: data)) in Hlast.
    by rewrite IH.
Qed.

Lemma max_width_rows (data : sheet) w :
  Forall (fun row => length row <= w) data ->
  Exists (fun row => length row = w) data ->
  foldr Nat.max 0 (length <$> data) = w.
Proof.
  induction 1 as [|row data Hrow Hdata IH]; [by intros ?%Exists_nil|].
  rewrite fmap_cons. cbn [foldr]. intros [Hw | Hex]%Exists_cons.
  - assert (foldr Nat.max 0 (length <$> data) <= w); [|lia].
    clear -Hdata. induction Hdata as [|r d Hr _ IH]; [simpl; lia|].
    rewrite fmap_cons. cbn [foldr]. lia.
  - rewrite IH by done. lia.
Qed.

(** A sheet whose rows have one length, with a value in the last cell of
    one row and a value in the last row: the reader hands over all its
    cells. *)
Lemma get_sheet_data_full (ws : sheet) w full bottom :
  Forall (fun row => length row = w) ws ->
  full ∈ ws -> trim_row (map saved_cell full) = map saved_cell full ->
  last ws = Some bottom -> trim_row (map saved_cell bottom) <> [] ->
  get_sheet_data None ws = map (map saved_cell) ws.
Proof.
  intros Hlen Hfull Hfull' Hbottom Hbottom'. unfold get_sheet_data.
  rewrite (trim_rows_last _ (trim_row (map saved_cell bottom)));
    [| by rewrite last_map, Hbottom | done].
  rewrite (max_width_rows _ w).
  - rewrite map_map. apply map_ext_in. intros row Hrow. unfold pad_row.
    rewrite Forall_forall in Hlen.
    rewrite <- (Hlen row) by (by apply list_elem_of_In).
    rewrite <- (length_map saved_cell row). apply trim_row_pad.
  - apply Forall_forall. intros row (r & <- & Hr)%list_elem_of_In%in_map_iff.
    rewrite Forall_forall in Hlen.
    rewrite <- (Hlen r) by (by apply list_elem_of_In).
    rewrite <- (length_map saved_cell r). apply length_trim_row.
  - apply Exists_exists. exists (trim_row (map saved_cell full)). split.
    + apply list_elem_of_In, in_map_iff. exists full.
      split; [done | by apply list_elem_of_In].
    + rewrite Hfull', length_map. rewrite Forall_forall in Hlen. by apply Hlen.
Qed.

Lemma keep_line_long (line : list pyval) : 2 <= length line -> keep_line line = true.
Proof. destruct line as [|a [|b line]]; simpl; [lia | lia | by destruct a]. Qed.

Lemma filter_keep_long (lines : sheet) :
  Forall (fun line => 2 <= length line) lines ->
  List.filter keep_line lines = lines.
Proof.
  induction 1 as [|line lines Hline _ IH]; [done|]. cbn [List.filter].
  by rewrite keep_line_long, IH.
Qed.

Lemma map_drop {A B} (f : A -> B) n (l : list A) :
  drop n (map f l) = map f (drop n l).
Proof.
  revert n. induction l as [|a l IH]; intros [|n]; simpl; auto.
Qed.

Lemma last_flat_map_sub (months : list string) :
  months <> [] ->
  last (replicate 3 VNone ++ flat_map (fun _ : string => VStr <$> sub_headers) months)
  = Some (VStr "% Net Assets").
Proof.
  intros Hne. destruct (exists_last Hne) as (ms & m & ->).
  rewrite flat_map_app. cbn [flat_map]. rewrite app_nil_r.
  rewrite !app_assoc.
  change (VStr <$> sub_headers)
    with ([VStr "Quantity"; VStr "Market Value (Rs. Lakhs)"] ++ [VStr "% Net Assets"]).
  rewrite app_assoc. apply last_snoc.
Qed.

(** The data rows of the saved sheet, read with [skiprows=3]. *)
Lemma parse_lines_data months (p : portfolio) :
  parse_lines 3 None (build_sheet float_of_text months p)
  = map (map read_cell) (drop 3 (build_sheet float_of_text months p)).
Proof.
  pose proof (build_sheet_rows_length float_of_text months p) as Hlen.
  unfold parse_lines. cbn [fmap option_fmap option_map].
  assert (Hdata : get_sheet_data None (build_sheet float_of_text months p)
                  = map (map saved_cell) (build_sheet float_of_text months p)).
  { destruct (decide (months = [])) as [Hm | Hm].
    - subst months.
      eapply (get_sheet_data_full _ _ ((VStr <$> headers_static) ++ [])).
      + exact Hlen.
      + unfold build_sheet. cbn [flat_map]. set_solver.
      + reflexivity.
      + unfold build_sheet. by rewrite !app_assoc, last_snoc.
      + by apply trim_row_head.
    - eapply (get_sheet_data_full _ _
                (replicate 3 VNone
                   ++ flat_map (fun _ => VStr <$> sub_headers) months)).
      + exact Hlen.
      + unfold build_sheet. set_solver.
      + eapply trim_row_last.
        * by rewrite last_map, last_flat_map_sub.
        * reflexivity.
      + unfold build_sheet. by rewrite !app_assoc, last_snoc.
      + by apply trim_row_head. }
  rewrite Hdata, map_drop, filter_keep_long.
  - rewrite map_map. apply map_ext. intros row. by rewrite map_map.
  - apply Forall_forall. intros line (row & <- & Hrow)%list_elem_of_In%in_map_iff.
    rewrite length_map. rewrite Forall_forall in Hlen.
    rewrite (Hlen row); [lia|].
    apply list_elem_of_In in Hrow.
    exact (elem_of_sublist _ _ _ Hrow (sublist_drop _ _)).
Qed.

Lemma trim_row_replicate n : trim_row (replicate n VNone) = [].
Proof. induction n as [|n IH]; [done|]. cbn [replicate trim_row]. by rewrite IH. Qed.

Lemma trim_row_three a b c (rest : list pyval) :
  is_none c = false ->
  exists tail,
    trim_row (a :: b :: c :: rest) = a :: b :: c :: tail
    /\ tail = trim_row rest.
Proof.
  intros Hc. exists (trim_row rest). split; [|done]. cbn [trim_row].
  destruct (trim_row rest) as [|d tail]; [by rewrite Hc | done].
Qed.

(** The row of the period labels, read with [skiprows=1] and [nrows=1]:
    the cells of the second row of the sheet without the trailing ones
    that have no value. *)
Lemma parse_lines_months months (p : portfolio) :
  parse_lines 1 (Some 1) (build_sheet float_of_text months p)
  = [map na_cell
       (trim_row (map saved_cell
                    ((VStr <$> headers_static)
                       ++ flat_map (fun m => [VStr m; VNone; VNone]) months)))].
Proof.
  unfold parse_lines, get_sheet_data, build_sheet.
  cbn [fmap option_fmap option_map Nat.add take app map list_fmap headers_static].
  assert (Htitle : forall n,
             trim_row (saved_cell (VStr "PPFAS Flexi cap Fund")
                         :: map saved_cell (replicate n VNone))
             = [VStr "PPFAS Flexi cap Fund"]).
  { intros n. cbn [trim_row].
    replace (map saved_cell (replicate n VNone)) with (replicate n VNone).
    - by rewrite trim_row_replicate.
    - induction n as [|n IH]; [done|]. cbn [replicate map]. by rewrite <- IH. }
  rewrite Htitle.
  destruct (trim_row_three
              (saved_cell (VStr "Name of the Instrument"))
              (saved_cell (VStr "ISIN"))
              (saved_cell (VStr "Industry/Rating"))
              (map saved_cell (flat_map (fun m => [VStr m; VNone; VNone]) months))
              eq_refl) as (tail & Hheader & _).
  rewrite Hheader. cbn [trim_rows fmap list_fmap length foldr].
  replace (Nat.max 1 (Nat.max (S (S (S (length tail)))) 0))
    with (S (S (S (length tail)))) by lia.
  cbn [map drop List.filter keep_line take].
  unfold pad_row. cbn [length]. rewrite Nat.sub_diag. cbn [replicate].
  by rewrite app_nil_r.
Qed.

Lemma every_third_blank (k : nat) : forall skip,
  filter (fun val => notna val = true) (every_third skip (replicate k blank)) = [].
Proof.
  induction k as [|k IH]; intros skip; [done|]. cbn [replicate every_third].
  destruct skip; [|apply IH].
  rewrite filter_cons_False by (by vm_compute). apply IH.
Qed.

Lemma every_third_app_blank (row : list pyval) k : forall skip,
  filter (fun val => notna val = true) (every_third skip (row ++ replicate k blank))
  = filter (fun val => notna val = true) (every_third skip row).
Proof.
  induction row as [|c row IH]; intros skip.
  - cbn [app]. rewrite every_third_blank. by destruct skip.
  - cbn [app every_third]. destruct skip; [|apply IH].
    destruct (decide (notna c = true)).
    + rewrite !filter_cons_True by done. by rewrite IH.
    + rewrite !filter_cons_False by done. apply IH.
Qed.

(** The trailing cells without value hold no period label. *)
Lemma every_third_trim (row : list pyval) skip :
  filter (fun val => notna val = true)
         (every_third skip (map na_cell (trim_row (map saved_cell row))))
  = filter (fun val => notna val = true) (every_third skip (map read_cell row)).
Proof.
  assert (Hrow : exists n,
             map read_cell row
             = map na_cell (trim_row (map saved_cell row)) ++ replicate n blank).
  { exists (length (map saved_cell row) - length (trim_row (map saved_cell row))).
    transitivity (map na_cell (map saved_cell row)); [by rewrite map_map|].
    pose proof (trim_row_pad (map saved_cell row)) as Hpad.
    remember (trim_row (map saved_cell row)) as trimmed eqn:Ht.
    remember (length (map saved_cell row) - length trimmed) as n eqn:Hn.
    rewrite <- Hpad, List.map_app. f_equal.
    clear. induction n as [|n IH]; [done|]. cbn [replicate map]. by rewrite <- IH. }
  destruct Hrow as [n ->]. by rewrite every_third_app_blank.
Qed.

Lemma filter_read_labels (months : list string) :
  filter (fun val => notna val = true) ((fun m => read_cell (VStr m)) <$> months)
  = VStr <$> List.filter plain_text months.
Proof.
  induction months as [|m months IH]; [done|].
  rewrite fmap_cons. cbn [List.filter]. rewrite read_cell_text.
  destruct (plain_text m).
  - rewrite filter_cons_True by done. by rewrite IH, fmap_cons.
  - rewrite filter_cons_False by (by vm_compute). exact IH.
Qed.

(** The period labels that the read-back takes from the saved sheet. *)
Lemma saved_months (months : list string) :
  filter (fun val => notna val = true)
         (every_third 3
            (map na_cell
               (trim_row (map saved_cell
                            ((VStr <$> headers_static)
                               ++ flat_map (fun m => [VStr m; VNone; VNone])
                                           months)))))
  = VStr <$> List.filter plain_text months.
Proof.
  rewrite every_third_trim.
  cbn [fmap list_fmap headers_static app map every_third].
  by rewrite every_third_groups, filter_read_labels.
Qed.

Lemma filter_plain_all (months : list string) :
  Forall (fun m => plain_text m = true) months ->
  List.filter plain_text months = months.
Proof.
  induction 1 as [|m months Hm _ IH]; [done|]. cbn [List.filter].
  by rewrite Hm, IH.
Qed.


End ReadBackFacts.



(** * Further properties of the code *)

(** ** Renaming and header discovery *)

Lemma canonical_label_kept f :
  Text.mem f COLUMN_MAPPING_values = true -> rename_label (VStr f) = VStr f.
Proof.
  unfold Text.mem. intros (x & Hin & Heq)%existsb_exists.
  apply String.eqb_eq in Heq. subst x. simpl in Hin.
  repeat (destruct Hin as [<- | Hin]; [vm_compute; reflexivity |]).
  destruct Hin.
Qed.

(** X1. The renaming of column labels is stable: a label that was renamed
    is left as it is by a second renaming, so each of the six canonical
    names is kept. *)
Theorem rename_label_stable (col : pyval) :
  rename_label (rename_label col) = rename_label col.
Proof.
  destruct col as [|s|x]; [reflexivity | | reflexivity].
  destruct (Text.mem (normalize_header (VStr s)) COLUMN_MAPPING_values) eqn:Hmem.
  - unfold rename_label at 2 3. rewrite Hmem. by apply canonical_label_kept.
  - unfold rename_label at 2 3. rewrite Hmem.
    unfold rename_label. by rewrite Hmem.
Qed.

Section DiscoveryFacts.

Variable float_repr : float -> string.
Variable series_repr : nat -> list pyval -> string.

Local Abbreviation starts := (is_start float_repr series_repr).
Local Abbreviation stops := (is_stop float_repr series_repr).
Local Abbreviation scan_rows := (scan float_repr series_repr).
Local Abbreviation read_file := (read_portfolio_file float_repr series_repr).

Lemma find_header_from_first (rows : sheet) : forall k i,
  find_header_from float_repr k rows = Some i <->
  exists j header,
    i = k + j
    /\ rows !! j = Some header
    /\ is_header_row float_repr header = true
    /\ forall j' row, j' < j -> rows !! j' = Some row ->
                      is_header_row float_repr row = false.
Proof.
  induction rows as [|row rows IH]; intros k i; cbn [find_header_from].
  - split; [done|]. by intros (j & header & _ & ? & _).
  - destruct (is_header_row float_repr row) eqn:Hrow.
    + split.
      * intros [= <-]. exists 0, row.
        split; [lia|]. split; [done|]. split; [done|]. intros j' r Hj'. lia.
      * intros (j & header & -> & Hj & Hheader & Hfirst).
        destruct j as [|j]; [f_equal; lia|].
        specialize (Hfirst 0 row (Nat.lt_0_succ j) eq_refl). congruence.
    + rewrite IH. split.
      * intros (j & header & -> & Hj & Hheader & Hfirst).
        exists (S j), header. split; [lia|]. split; [done|]. split; [done|].
        intros [|j'] r Hj' Hr.
        -- injection Hr as <-. done.
        -- apply (Hfirst j' r); [lia | done].
      * intros (j & header & -> & Hj & Hheader & Hfirst).
        destruct j as [|j]; [injection Hj as ->; congruence|].
        exists j, header. split; [lia|]. split; [done|]. split; [done|].
        intros j' r Hj' Hr. apply (Hfirst (S j') r); [lia | done].
Qed.

Lemma find_header_from_none (rows : sheet) : forall k,
  find_header_from float_repr k rows = None <->
  Forall (fun row => is_header_row float_repr row = false) rows.
Proof.
  induction rows as [|row rows IH]; intros k; cbn [find_header_from].
  - split; [constructor | done].
  - destruct (is_header_row float_repr row) eqn:Hrow.
    + split; [done|]. intros [Hrow' _]%Forall_cons. congruence.
    + rewrite IH. split; [by constructor | by intros [_ ?]%Forall_cons].
Qed.

(** X2. Header discovery: without a row that holds both a cell with
    "isin" and a cell with "quantity" the file is given up; the header row
    is the first such row; the frame is read again with it as header, and
    the file is then given up exactly when that read raises, when the
    section loop raises, or when rows were kept and the renamed labels are
    not distinct. *)
Theorem header_row_is_first (book : workbook) :
  (Forall (fun row => is_header_row float_repr row = false) (df_raw book) ->
   read_file (Some book) = None)
  /\ (forall i,
        find_header float_repr (df_raw book) = Some i <->
        exists header,
          df_raw book !! i = Some header
          /\ is_header_row float_repr header = true
          /\ forall j row, j < i -> df_raw book !! j = Some row ->
                           is_header_row float_repr row = false)
  /\ (forall i,
        find_header float_repr (df_raw book) = Some i ->
        (df_header book i = None -> read_file (Some book) = None)
        /\ forall df,
            df_header book i = Some df ->
            (forall rows,
                read_file (Some book) = Some rows ->
                scan_rows false (iterrows df) = Some rows)
            /\ (read_file (Some book) = None <->
                scan_rows false (iterrows df) = None
                \/ exists kept,
                     scan_rows false (iterrows df) = Some kept
                     /\ kept <> []
                     /\ is_unique (renamed_columns df) = false)).
Proof.
  split; [|split].
  - intros Hnone. unfold read_portfolio_file, find_header.
    by rewrite (proj2 (find_header_from_none _ 0) Hnone).
  - intros i. unfold find_header. rewrite find_header_from_first. split.
    + intros (j & header & -> & Hj & Hheader & Hfirst). by exists header.
    + intros (header & Hi & Hheader & Hfirst). by exists i, header.
  - intros i Hi. unfold read_portfolio_file. rewrite Hi. split.
    { by intros ->. }
    intros df ->. cbn [mbind option_bind].
    destruct (scan_rows false (iterrows df)) as [kept|]; cbn [mbind option_bind].
    2:{ split; [done|]. split; [by left | done]. }
    unfold data_frame. destruct kept as [|row kept].
    + split; [done|]. split; [done|].
      intros [? | (kept & [= <-] & Hne & _)]; done.
    + destruct (is_unique (renamed_columns df)).
      * split; [done|]. split; [done|].
        intros [? | (kept' & _ & _ & ?)]; done.
      * split; [done|]. split; [|done]. intros _. right. by eexists.
Qed.

(** X3. Nothing outside the section is emitted: of a frame in which the
    first start marker is followed, after rows without stop marker and
    with the ISIN label on one column at most, by a stop-marker row, only
    rows between the two are kept, those with an identifier that are not
    start-marker rows themselves, whatever follows the stop marker. *)
Theorem rows_after_stop_ignored above marker section stop below :
  Forall (fun ir => starts ir = false) above ->
  starts marker = true ->
  Forall (fun ir => stops ir = false) section ->
  Forall (fun ir : nat * series => single "ISIN" ir.2) section ->
  starts stop = false ->
  stops stop = true ->
  scan_rows false (above ++ marker :: section ++ stop :: below)
  = Some (List.filter (fun ir => with_isin float_repr ir.2 && negb (starts ir))
                      section).*2.
Proof.
  intros Habove Hmarker Hsection Hsingle Hstart Hstop.
  rewrite scan_seek by done.
  induction Hsection as [|ir section Hir _ IH]; cbn [app scan List.filter].
  - by rewrite Hstart, Hstop.
  - apply Forall_cons in Hsingle as [Hone Hsingle]. specialize (IH Hsingle).
    destruct (starts ir).
    + by rewrite andb_false_r.
    + rewrite Hir, andb_true_r, (single_has_isin _ _ Hone).
      destruct (with_isin float_repr ir.2); [|done].
      by rewrite IH.
Qed.

(** X4. A frame without start-marker row gives no record: the file is
    accepted with an empty result, whatever identifiers its rows hold and
    whatever its labels are. *)
Theorem no_start_marker_no_rows (book : workbook) header_row_idx (df : frame) :
  find_header float_repr (df_raw book) = Some header_row_idx ->
  df_header book header_row_idx = Some df ->
  Forall (fun ir => starts ir = false) (iterrows df) ->
  read_file (Some book) = Some [].
Proof.
  intros Hfind Hdf Hrows. unfold read_portfolio_file.
  rewrite Hfind, Hdf. cbn [mbind option_bind].
  assert (Hscan : scan_rows false (iterrows df) = Some []).
  { induction Hrows as [|ir rows Hir _ IH]; cbn [scan]; [done|]. by rewrite Hir. }
  by rewrite Hscan.
Qed.

End DiscoveryFacts.

(** ** Order and reach of the merge *)

Section MergeReachFacts.

Variable float_repr : float -> string.
Variable fname : string.

Local Abbreviation key := (record_key float_repr).
Local Abbreviation merge_all := (merge_records float_repr fname).

Lemma mem_elem k (l : list string) : Text.mem k l = true <-> k ∈ l.
Proof.
  unfold Text.mem. rewrite existsb_exists. split.
  - intros (x & Hin & ->%String.eqb_eq). by apply list_elem_of_In.
  - intros Hin. exists k. split; [by apply list_elem_of_In | apply String.eqb_refl].
Qed.

Lemma mem_ext k (l l' : list string) :
  (forall x, x ∈ l <-> x ∈ l') -> Text.mem k l = Text.mem k l'.
Proof.
  intros Hext. apply eq_true_iff_eq. rewrite !mem_elem. apply Hext.
Qed.

Lemma new_keys_ext ks : forall seen seen',
  (forall x, x ∈ seen <-> x ∈ seen') -> new_keys seen ks = new_keys seen' ks.
Proof.
  induction ks as [|k ks IH]; intros seen seen' Hext; simpl; [done|].
  rewrite (mem_ext k seen seen' Hext).
  destruct (Text.mem k seen'); [by apply IH|].
  f_equal. apply IH. intros x. rewrite !elem_of_cons, Hext. done.
Qed.

Lemma mem_keys_has {A} k (d : list (string * A)) :
  Text.mem k (Dict.keys d) = Dict.has k d.
Proof. apply eq_true_iff_eq. by rewrite mem_elem, dict_has_keys. Qed.

(** X5. Discovery order: after a file is merged, the identifiers that were
    there keep their places, and the new ones follow in the order in which
    the records first bring them. *)
Theorem merge_keeps_discovery_order (p : portfolio) (rs : list ExtractedRecord) :
  Dict.keys (merge_all p rs)
  = Dict.keys p ++ new_keys (Dict.keys p) (key <$> rs).
Proof.
  revert p. induction rs as [|r rs IH]; intros p.
  - simpl. by rewrite app_nil_r.
  - change (merge_all p (r :: rs))
      with (merge_all (merge_record float_repr fname p r) rs).
    rewrite IH, merge_keys, fmap_cons. cbn [new_keys].
    rewrite mem_keys_has. destruct (Dict.has (key r) p); [done|].
    rewrite <- app_assoc. simpl. do 2 f_equal.
    apply new_keys_ext. intros x. set_solver.
Qed.

Lemma records_of_none k rs :
  Forall (fun r => key r <> k) rs -> records_of float_repr k rs = [].
Proof.
  induction 1 as [|r rs Hr _ IH]; [done|]. unfold records_of. simpl.
  by destruct (String.eqb_spec (key r) k).
Qed.

(** X6. Reach of one file: merging the records of a period leaves the
    entry of every identifier that none of the records carries as it was,
    and in every entry that was there it leaves the months of all other
    periods as they were; no entry is removed. *)
Theorem merge_touches_one_period (p : portfolio) (rs : list ExtractedRecord) (k : string) :
  (Forall (fun r => key r <> k) rs ->
   Dict.get k (merge_all p rs) = Dict.get k p)
  /\ (forall e, Dict.get k p = Some e ->
        exists e', Dict.get k (merge_all p rs) = Some e'
                   /\ forall label, label <> fname ->
                                    Months e' !! label = Months e !! label).
Proof.
  split.
  - intros Hrs. by rewrite merge_all_get, records_of_none.
  - intros e Hget. eexists. split.
    { rewrite merge_all_get, Hget. apply slot_fold_some. }
    intros label Hne. rewrite entry_fold_months.
    destruct (last _); [by rewrite lookup_insert_ne | done].
Qed.

End MergeReachFacts.

(** ** The period sequence of a run *)

Section SequenceFacts.

Variable float_repr : float -> string.
Variable series_repr : nat -> list pyval -> string.

(** X7. The period sequence of a run holds exactly the labels of the input
    files, each once, and is ascending in the sort key. *)
Theorem period_sequence_of_files (files : list file) :
  let months := sorted_months (process_files float_repr series_repr files).1 in
  (forall m, m ∈ months <-> exists f, f ∈ files /\ period_label f.1 = m)
  /\ NoDup months
  /\ StronglySorted (key_order sort_months_key) months.
Proof.
  intros months. split; [|split].
  - intros m. unfold months, sorted_months. rewrite sorted_by_perm.
    rewrite elem_of_elements. unfold process_files.
    rewrite (fold_process_file_months float_repr (fun _ => None) series_repr).
    simpl.
    rewrite elem_of_union, elem_of_list_to_set, list_elem_of_fmap.
    split.
    + intros [Hm | (f & -> & Hf)]; [by apply elem_of_empty in Hm | by exists f].
    + intros (f & Hf & <-). right. by exists f.
  - unfold months, sorted_months. rewrite sorted_by_perm. apply NoDup_elements.
  - apply sorted_by_sorted.
Qed.

End SequenceFacts.

(** ** Shape and content of the sheet *)

Section SheetFacts.

Variable float_of_text : string -> option float.

Local Abbreviation sheet_of := (build_sheet float_of_text).
Local Abbreviation totals_of := (column_totals float_of_text).

(** X8. The sheet is a rectangle: three header rows, one row per entry of
    the mapping in dictionary order, and the totals row, each of three
    cells and three more per period; the row of an entry starts with its
    name, identifier and rating, and the last row is the totals row. *)
Theorem sheet_is_rectangular (months : list string) (p : portfolio) :
  length (sheet_of months p) = 4 + length p
  /\ Forall (fun row => length row = 3 + 3 * length months) (sheet_of months p)
  /\ (forall r item,
        p !! r = Some item ->
        sheet_of months p !! (3 + r)
        = Some ([Name item.2; VStr item.1; Rating item.2]
                  ++ (row_cells float_of_text months item.2).*2))
  /\ last (sheet_of months p)
     = Some ([VStr "Total"; VNone; VNone] ++ (VNum <$> totals_of months p)).
Proof.
  split; [|split; [apply build_sheet_rows_length|]]; unfold build_sheet;
    [|split].
  - rewrite !length_app, length_map. simpl. lia.
  - intros r item Hitem.
    transitivity ((map (data_row float_of_text months) p
                     ++ [[VStr "Total"; VNone; VNone]
                           ++ (VNum <$> totals_of months p)]) !! r);
      [reflexivity|].
    rewrite lookup_app_l.
    + exact (lookup_map_Some (data_row float_of_text months) p r item Hitem).
    + rewrite length_map. by eapply lookup_lt_Some.
  - by rewrite !app_assoc, last_snoc.
Qed.

Lemma fold_add_ext {A} (f g : A -> float) (l : list A) (x : float) :
  (forall a, f a = g a) ->
  fold_left (fun acc a => PrimFloat.add acc (f a)) l x
  = fold_left (fun acc a => PrimFloat.add acc (g a)) l x.
Proof.
  intros Hfg. revert x. induction l as [|a l IH]; intros x; simpl; [done|].
  by rewrite Hfg, IH.
Qed.

Lemma month_cells_lookup (data : entry) m j :
  j < 3 ->
  month_cells float_of_text data m !! j
  = Some (write_val float_of_text (node data m (metric j))).
Proof. intros Hj. destruct j as [|[|[|j]]]; try done. lia. Qed.

(** X9. A column total is the sum, from 0.0 and in row order, of what
    [float] makes of the stored values of that period and metric, with 0.0
    for a missing month, a missing field or a text that [float] rejects;
    a stored number, NaN included, is added as it is. *)
Theorem column_total_is_sum (months : list string) (p : portfolio) i j m :
  months !! i = Some m -> j < 3 ->
  totals_of months p !! (3 * i + j)
  = Some (fold_left
            (fun acc item =>
               PrimFloat.add acc
                 (default PrimFloat.zero
                    (py_float float_of_text (node item.2 m (metric j)))))
            p PrimFloat.zero).
Proof.
  intros Hm Hj. rewrite column_totals_lookup.
  - f_equal. apply fold_add_ext. intros item. unfold amount.
    rewrite list_lookup_fmap, (lookup_row_cells _ _ _ _ _ m) by done.
    by rewrite month_cells_lookup.
  - apply lookup_lt_Some in Hm. lia.
Qed.

(** X10. The cell of an entry for a period and a metric is empty exactly
    when the entry has no value there (no month of that label, or no such
    field); otherwise it holds the number that [float] makes of the stored
    value, 0.0 when [float] rejects it. *)
Theorem data_cell_written (months : list string) (item : string * entry) i j m :
  months !! i = Some m -> j < 3 ->
  let raw_val := node item.2 m (metric j) in
  data_row float_of_text months item !! (3 + (3 * i + j))
  = Some (if is_none raw_val then VNone
          else VNum (default PrimFloat.zero (py_float float_of_text raw_val)))
  /\ (data_row float_of_text months item !! (3 + (3 * i + j)) = Some VNone
      <-> raw_val = VNone).
Proof.
  intros Hm Hj raw_val.
  assert (Hcell : data_row float_of_text months item !! (3 + (3 * i + j))
                  = Some (write_val float_of_text raw_val).2).
  { transitivity ((row_cells float_of_text months item.2).*2 !! (3 * i + j));
      [reflexivity|].
    rewrite list_lookup_fmap, (lookup_row_cells _ _ _ _ _ m) by done.
    by rewrite month_cells_lookup. }
  rewrite Hcell. unfold write_val. simpl. split; [done|].
  destruct raw_val; simpl; split; congruence.
Qed.

End SheetFacts.

(** ** File names and period labels *)

Section LabelFacts.

Lemma prefix_head_ne a s1 c s2 :
  (c =? a)%char = false -> String.prefix (String a s1) (String c s2) = false.
Proof.
  intros Hc. cbn [String.prefix].
  destruct (ascii_dec a c) as [<-|_]; [by rewrite Ascii.eqb_refl in Hc | done].
Qed.

Lemma remove_all_aux_none rest (s : string) :
  no_char "." s = true ->
  Text.remove_all_aux (String "." rest) 0 s = s.
Proof.
  induction s as [|c s IH]; [done|]. cbn [no_char Text.remove_all_aux].
  intros [Hc Hs]%andb_prop. apply negb_true_iff in Hc.
  by rewrite prefix_head_ne, IH.
Qed.

Lemma remove_all_aux_xls (s : string) :
  no_char "." s = true ->
  Text.remove_all_aux ".xls" 0 (s +:+ ".xls") = s.
Proof.
  induction s as [|c s IH]; [done|].
  change (String c s +:+ ".xls") with (String c (s +:+ ".xls")).
  cbn [no_char Text.remove_all_aux].
  intros [Hc Hs]%andb_prop. apply negb_true_iff in Hc.
  by rewrite prefix_head_ne, IH.
Qed.

(** X11. The period label of a file named with the extension xls, and
    without any other dot in its base name, is the name without the
    extension. *)
Theorem period_label_of_xls (s : string) :
  no_char "." s = true -> period_label (s +:+ ".xls") = s.
Proof.
  intros Hs. unfold period_label, Text.remove_all. simpl.
  rewrite remove_all_aux_xls by done. by apply remove_all_aux_none.
Qed.

End LabelFacts.

(** ** What the read-back hands to its caller *)

Section ReadBackShape.

Variable float_repr : float -> string.
Variable float_of_text : string -> option float.

Local Abbreviation months_loop := (read_months float_of_text).
Local Abbreviation row_step := (read_row float_repr float_of_text).
Local Abbreviation rows_loop := (read_rows float_repr float_of_text).

Lemma pyval_eqb_refl k : notna k = true -> pyval_eqb k k = true.
Proof.
  destruct k as [|s|x]; simpl; [done | intros _; apply String.eqb_refl |].
  unfold PrimFloat.is_nan. by rewrite negb_involutive.
Qed.

Lemma dict_has_key_cons {A} k k0 (v0 : A) d :
  dict_has_key k ((k0, v0) :: d) = pyval_eqb k k0 || dict_has_key k d.
Proof. reflexivity. Qed.

Lemma dict_set_keeps {A} k' k (v : A) d :
  dict_has_key k' d = true -> dict_has_key k' (dict_set k v d) = true.
Proof.
  induction d as [|[k0 v0] d IH]; [done|]. cbn [dict_set].
  destruct (pyval_eqb k k0); rewrite !dict_has_key_cons; [done|].
  intros [H|H]%orb_prop; [by rewrite H | by rewrite IH, orb_true_r].
Qed.

Lemma dict_set_has {A} k (v : A) d :
  notna k = true -> dict_has_key k (dict_set k v d) = true.
Proof.
  intros Hk. induction d as [|[k0 v0] d IH]; cbn [dict_set].
  - by rewrite dict_has_key_cons, pyval_eqb_refl.
  - destruct (pyval_eqb k k0) eqn:Heq; rewrite dict_has_key_cons, Heq; [done|].
    by rewrite IH.
Qed.

Lemma read_months_keys row : forall months col_idx acc out,
  Forall (fun m => notna m = true) months ->
  months_loop row col_idx months acc = Some out ->
  (forall k, dict_has_key k acc = true -> dict_has_key k out = true)
  /\ Forall (fun m => dict_has_key m out = true) months.
Proof.
  induction months as [|m months IH]; intros col_idx acc out Hna; simpl.
  - intros [= <-]. by split.
  - apply Forall_cons in Hna as [Hm Hna].
    destruct (row !! col_idx) as [qty|]; [|done].
    destruct (row !! (col_idx + 1)) as [val|]; [|done].
    destruct (row !! (col_idx + 2)) as [pct|]; [|done]. simpl.
    intros Hout. destruct (IH _ _ _ Hna Hout) as [Hkeep Hall].
    split.
    + intros k Hk. by apply Hkeep, dict_set_keeps.
    + constructor; [|done]. by apply Hkeep, dict_set_has.
Qed.

Lemma clean_meta_not_nan v : Text.lower (clean_meta float_repr v) <> "nan".
Proof.
  unfold clean_meta.
  destruct (isna v || String.eqb (Text.lower (py_str float_repr v)) "nan") eqn:Hc.
  - done.
  - apply orb_false_elim in Hc as [_ Hc]. by apply String.eqb_neq.
Qed.

Lemma read_rows_sound months df : forall data,
  Forall (fun m => notna m = true) months ->
  rows_loop months df = Some data ->
  Forall (sound_record months) data.
Proof.
  induction df as [|row df IH]; intros data Hna; simpl.
  - intros [= <-]. constructor.
  - destruct (row_step months row) as [r|] eqn:Hrow; [|done]. simpl.
    destruct (rows_loop months df) as [rest|]; [|done]. simpl.
    intros [= <-]. specialize (IH rest Hna eq_refl).
    destruct r as [r|]; [|done]. constructor; [|done].
    unfold read_row in Hrow.
    destruct (row !! 0) as [name|]; [|done]. simpl in Hrow.
    destruct (isna name || _) eqn:Hname; [done|].
    destruct (row !! 1) as [isin|]; [|done].
    destruct (row !! 2) as [rating|]; [|done]. simpl in Hrow.
    destruct (months_loop row 3 months []) as [ms|] eqn:Hms; [|done].
    injection Hrow as <-. unfold sound_record. simpl.
    apply orb_false_elim in Hname as [Hname _].
    repeat split; [done | apply clean_meta_not_nan .. |].
    by apply (read_months_keys row months 3 [] ms).
Qed.

(** X12. Whatever frames are read from the workbook, when the read-back
    returns its dictionary: no period label is missing; and every record
    has a name that is not missing, an identifier and a rating that are
    texts other than nan, and a metrics entry for every period of the
    sequence. *)
Theorem read_back_records_sound (reads : excel) (d : rb_data) :
  read_portfolio_data float_repr float_of_text (Some reads) = Some (rb_dict d) ->
  Forall (fun m => notna m = true) (rb_months d)
  /\ Forall (sound_record (rb_months d)) (rb_records d).
Proof.
  unfold read_portfolio_data.
  destruct (head (df_months reads)) as [month_row|]; [|done]. simpl.
  set (months := filter _ _).
  assert (Hna : Forall (fun m => notna m = true) months).
  { apply Forall_forall. intros m Hm. by apply list_elem_of_filter in Hm as [? _]. }
  destruct (rows_loop months _) as [data|] eqn:Hdata; [|done]. simpl.
  intros [= <-]. simpl. split; [done|]. by eapply read_rows_sound.
Qed.

Lemma clean_num' x :
  clean float_of_text (VNum x) = if PrimFloat.is_nan x then PrimFloat.zero else x.
Proof.
  unfold clean, isna. cbn [notna pyval_eqb]. rewrite negb_involutive, orb_false_r.
  by destruct (PrimFloat.is_nan x).
Qed.

(** X13. What [clean] gives: 0.0 for a value that is missing ([None] or
    NaN), for the empty text and for a text that [float] rejects; for any
    other text the number that [float] reads; and any number that is not
    NaN as it is.  So [clean] gives NaN only for a text, not empty, that
    [float] reads as NaN. *)
Theorem clean_nan_only_from_text (val : pyval) :
  clean float_of_text VNone = PrimFloat.zero
  /\ clean float_of_text blank = PrimFloat.zero
  /\ clean float_of_text (VStr "") = PrimFloat.zero
  /\ (forall s, float_of_text s = None ->
                clean float_of_text (VStr s) = PrimFloat.zero)
  /\ (forall s x, s <> "" -> float_of_text s = Some x ->
                  clean float_of_text (VStr s) = x)
  /\ (forall x, PrimFloat.is_nan x = false -> clean float_of_text (VNum x) = x)
  /\ PrimFloat.is_nan (clean float_of_text val)
     = match val with
       | VStr s =>
           negb (String.eqb s "")
           && PrimFloat.is_nan (default PrimFloat.zero (float_of_text s))
       | _ => false
       end.
Proof.
  split; [reflexivity|]. split; [reflexivity|]. split; [reflexivity|].
  split; [|split; [|split]].
  - intros s Hs. unfold clean. cbn [isna notna negb orb pyval_eqb py_float].
    rewrite Hs. by destruct (String.eqb s "").
  - intros s x Hne Hs. unfold clean. cbn [isna notna negb orb pyval_eqb py_float].
    apply String.eqb_neq in Hne. by rewrite Hne, Hs.
  - intros x Hx. by rewrite clean_num', Hx.
  - destruct val as [|s|x].
    + reflexivity.
    + unfold clean. cbn [isna notna negb orb pyval_eqb].
      by destruct (String.eqb s "").
    + rewrite clean_num'. by destruct (PrimFloat.is_nan x) eqn:Hx.
Qed.

End ReadBackShape.

(** ** When the read-back raises *)

Section EndpointFacts.

Variable float_repr : float -> string.
Variable float_of_text : string -> option float.

Local Abbreviation months_loop := (read_months float_of_text).
Local Abbreviation row_step := (read_row float_repr float_of_text).
Local Abbreviation rows_loop := (read_rows float_repr float_of_text).

Lemma read_months_none (row : list pyval) : forall months col_idx acc,
  months_loop row col_idx months acc = None <->
  months <> [] /\ length row < col_idx + 3 * length months.
Proof.
  induction months as [|m months IH]; intros col_idx acc.
  - simpl. split; [done | by intros [? _]].
  - cbn [read_months].
    destruct (row !! col_idx) as [qty|] eqn:Hq; cbn [mbind option_bind].
    2:{ apply lookup_ge_None in Hq. split; [intros _ | done].
        split; [done | simpl; lia]. }
    destruct (row !! (col_idx + 1)) as [val|] eqn:Hv; cbn [mbind option_bind].
    2:{ apply lookup_ge_None in Hv. split; [intros _ | done].
        split; [done | simpl; lia]. }
    destruct (row !! (col_idx + 2)) as [pct|] eqn:Hp; cbn [mbind option_bind].
    2:{ apply lookup_ge_None in Hp. split; [intros _ | done].
        split; [done | simpl; lia]. }
    apply lookup_lt_Some in Hp. rewrite IH. simpl length.
    destruct months as [|m' months]; simpl length.
    + split; [by intros [? _] | intros [_ ?]; lia].
    + split; [intros [_ ?]; split; [done | lia] | intros [_ ?]; split; [done | lia]].
Qed.

Lemma read_row_none months (row : list pyval) :
  row_step months row = None <->
  row = [] \/ (kept_row float_repr row = true
               /\ length row < 3 + 3 * length months).
Proof.
  destruct row as [|name row]; [split; [by left | done]|].
  unfold read_row, kept_row. cbn [lookup list_lookup mbind option_bind].
  destruct (isna name || _) eqn:Hname; cbn [negb].
  { split; [done | intros [? | [? _]]; done]. }
  destruct row as [|isin row]; cbn [lookup list_lookup mbind option_bind].
  { split; [intros _; right; split; [done | simpl; lia] | done]. }
  destruct row as [|rating row]; cbn [lookup list_lookup mbind option_bind].
  { split; [intros _; right; split; [done | simpl; lia] | done]. }
  destruct (months_loop _ 3 months []) as [ms|] eqn:Hms; cbn [mbind option_bind].
  - split; [done|]. intros [? | [_ Hlen]]; [done|].
    assert (Hnone : months_loop (name :: isin :: rating :: row) 3 months [] = None).
    { apply read_months_none. split.
      - intros ->. simpl in Hlen. lia.
      - simpl in *. lia. }
    congruence.
  - split; [intros _; right; split; [done|] | done].
    apply read_months_none in Hms as [_ Hlen].
    simpl in *. lia.
Qed.

Lemma read_rows_none months (df : sheet) :
  rows_loop months df = None <->
  Exists (fun row => row = [] \/ (kept_row float_repr row = true
                                  /\ length row < 3 + 3 * length months)) df.
Proof.
  induction df as [|row df IH]; cbn [read_rows].
  - split; [done | by intros ?%Exists_nil].
  - rewrite Exists_cons, <- IH, <- read_row_none.
    destruct (row_step months row) as [r|]; cbn [mbind option_bind].
    + destruct (rows_loop months df); cbn [mbind option_bind].
      * split; [done | by intros [? | ?]].
      * split; [by right | done].
    + split; [by left | done].
Qed.

(** X14. Without a workbook the read-back returns the empty list.  With
    the frames that [read_excel] hands over, an exception leaves
    [read_portfolio_data] exactly when the frame of the months has no row,
    or when a row of the data frame has no cell at all or is a row that
    the read-back keeps and that has fewer than three cells and three more
    per period label.  In these cases [get_data] answers with status
    500. *)
Theorem read_back_raises_cases (reads : excel) :
  read_portfolio_data float_repr float_of_text None = Some rb_empty
  /\ (read_portfolio_data float_repr float_of_text (Some reads) = None <->
      df_months reads = []
      \/ Exists (fun row =>
                   row = []
                   \/ (kept_row float_repr row = true
                       /\ length row < 3 + 3 * length (header_months reads)))
                (df_data reads)).
Proof.
  split; [reflexivity|].
  unfold read_portfolio_data, header_months.
  destruct (df_months reads) as [|month_row rest].
  - split; [by left | done].
  - cbn [head mbind option_bind default from_option id].
    set (months := filter _ _). rewrite <- read_rows_none.
    destruct (rows_loop months _); cbn [mbind option_bind].
    + split; [done | intros [? | ?]; done].
    + split; [by right | done].
Qed.

End EndpointFacts.

(** ** Styling of the sheet *)

Section StyleFacts.

(** X15. Of the four sides of a cell only the right one is ever medium,
    and it is so exactly in column 3 and in the columns that get the
    percent format; a column keeps the general format exactly when it is
    one of the first three; and the three columns of the period at
    position [i] get the integer, the two-decimal and the percent format,
    in this order. *)
Theorem block_styles :
  (forall c, b_left (get_border c) = thin /\ b_top (get_border c) = thin
             /\ b_bottom (get_border c) = thin)
  /\ (forall c, b_right (get_border c) = medium
                <-> (c = 3 \/ data_number_format c = fmt_pct)%Z)
  /\ (forall c, data_number_format c = General <-> (c < 4)%Z)
  /\ (forall i : nat,
         data_number_format (4 + 3 * Z.of_nat i) = fmt_indian_int
         /\ data_number_format (5 + 3 * Z.of_nat i) = fmt_indian_float
         /\ data_number_format (6 + 3 * Z.of_nat i) = fmt_pct).
Proof.
  split; [|split; [|split]].
  - done.
  - intros c. unfold get_border, data_number_format. cbn [b_right].
    destruct (Z.leb_spec 3 c) as [H3|H3]; cbn [andb].
    + destruct (Z.eqb_spec ((c - 3) mod 3) 0) as [Hm|Hm].
      * split; [intros _ | done].
        destruct (Z.eq_dec c 3%Z) as [-> | Hc]; [by left | right].
        destruct (Z.leb_spec 4 c); [|lia].
        assert (Hr : ((c - 4) mod 3 = 2)%Z).
        { replace (c - 4)%Z with ((c - 3) + (-1) * 3 + 2)%Z by lia.
          rewrite <- Z.add_mod_idemp_l by lia.
          rewrite Z.mod_add by lia. rewrite Hm. done. }
        rewrite Hr. done.
      * split; [done|]. intros [-> | Hf]; [done|].
        destruct (Z.leb_spec 4 c); [|done].
        assert (Hlt : (0 <= (c - 4) mod 3 < 3)%Z) by (apply Z.mod_pos_bound; lia).
        destruct (Z.eqb_spec ((c - 4) mod 3) 0); [done|].
        destruct (Z.eqb_spec ((c - 4) mod 3) 1); [done|].
        exfalso. apply Hm.
        replace (c - 3)%Z with ((c - 4) + 1)%Z by lia.
        rewrite <- Z.add_mod_idemp_l by lia.
        replace ((c - 4) mod 3)%Z with 2%Z by lia. done.
    + split; [done|]. intros [-> | Hf]; [lia|].
      destruct (Z.leb_spec 4 c); [lia | done].
  - intros c. unfold data_number_format.
    destruct (Z.leb_spec 4 c); [|split; [lia | done]].
    assert (Hlt : (0 <= (c - 4) mod 3 < 3)%Z) by (apply Z.mod_pos_bound; lia).
    destruct (Z.eqb_spec ((c - 4) mod 3) 0); [split; [done | lia]|].
    destruct (Z.eqb_spec ((c - 4) mod 3) 1); [split; [done | lia]|].
    destruct (Z.eqb_spec ((c - 4) mod 3) 2); [split; [done | lia]|]. lia.
  - intros i. unfold data_number_format.
    assert (H0 : ((4 + 3 * Z.of_nat i - 4) mod 3 = 0)%Z).
    { replace (4 + 3 * Z.of_nat i - 4)%Z with (0 + Z.of_nat i * 3)%Z by lia.
      by rewrite Z.mod_add. }
    assert (H1 : ((5 + 3 * Z.of_nat i - 4) mod 3 = 1)%Z).
    { replace (5 + 3 * Z.of_nat i - 4)%Z with (1 + Z.of_nat i * 3)%Z by lia.
      by rewrite Z.mod_add. }
    assert (H2 : ((6 + 3 * Z.of_nat i - 4) mod 3 = 2)%Z).
    { replace (6 + 3 * Z.of_nat i - 4)%Z with (2 + Z.of_nat i * 3)%Z by lia.
      by rewrite Z.mod_add. }
    rewrite H0, H1, H2.
    destruct (Z.leb_spec 4 (4 + 3 * Z.of_nat i)); [|lia].
    destruct (Z.leb_spec 4 (5 + 3 * Z.of_nat i)); [|lia].
    destruct (Z.leb_spec 4 (6 + 3 * Z.of_nat i)); [|lia]. done.
Qed.

Variable float_repr : float -> string.

Local Abbreviation text_length := (fun v => String.length (py_str float_repr v)).

Local Abbreviation length_step :=
  (fun (max_length : nat) (value : pyval) =>
     if truthy value then
       let length := String.length (py_str float_repr value) in
       if (max_length <? length)%nat then length else max_length
     else max_length).

Lemma length_step_cases acc v :
  acc <= length_step acc v
  /\ (truthy v = true -> text_length v <= length_step acc v)
  /\ (length_step acc v = acc
      \/ (truthy v = true /\ length_step acc v = text_length v)).
Proof.
  cbn beta. destruct (truthy v).
  - cbn zeta.
    destruct (Nat.ltb_spec acc (String.length (py_str float_repr v))).
    + split; [lia | split; [lia | by right]].
    + split; [lia | split; [intros _; lia | by left]].
  - split; [lia | split; [done | by left]].
Qed.

Lemma max_length_acc (column : list pyval) : forall acc,
  acc <= fold_left length_step column acc
  /\ Forall (fun v => truthy v = true ->
                      text_length v <= fold_left length_step column acc) column
  /\ (fold_left length_step column acc = acc
      \/ exists v, v ∈ column /\ truthy v = true
                   /\ fold_left length_step column acc = text_length v).
Proof.
  induction column as [|v column IH]; intros acc.
  - simpl. split; [lia | split; [constructor | by left]].
  - cbn [fold_left].
    destruct (length_step_cases acc v) as (Ha & Hv & Hs).
    destruct (IH (length_step acc v)) as (Hle & Hall & Hm).
    remember (length_step acc v) as a eqn:Ea.
    remember (fold_left length_step column a) as m eqn:Em.
    split; [lia | split].
    + constructor; [intros Ht; specialize (Hv Ht); lia | exact Hall].
    + destruct Hm as [Hm | (w & Hw & Ht & Hm)].
      * destruct Hs as [Hs | [Ht Hs]]; [left; lia | right].
        exists v. split; [by left | split; [done | lia]].
      * right. exists w. split; [by right | done].
Qed.

(** X16. The width given to a column is between 2 and 50; it leaves two
    characters of room for every cell whose value counts as true, up to the
    cap of 50; and it is 2, or 50, or the text length of one such cell of
    the column plus 2.  Cells without value, with the empty text or with
    the number zero do not count. *)
Theorem column_width_fits (column : list pyval) :
  let w := column_width float_repr column in
  2 <= w <= 50
  /\ Forall (fun v => truthy v = true -> Nat.min 50 (text_length v + 2) <= w)
            column
  /\ (w = 2 \/ w = 50
      \/ exists v, v ∈ column /\ truthy v = true /\ w = text_length v + 2)
  /\ (Forall (fun v => truthy v = false) column -> w = 2).
Proof.
  intros w. subst w. unfold column_width, max_length.
  destruct (max_length_acc column 0) as (_ & Hall & Hm).
  remember (fold_left length_step column 0) as m eqn:Em.
  split; [|split; [|split]].
  - destruct (Nat.ltb_spec 50 (m + 2)); lia.
  - eapply Forall_impl; [exact Hall|]. cbn beta. intros v Hv Ht.
    specialize (Hv Ht). destruct (Nat.ltb_spec 50 (m + 2)); lia.
  - destruct (Nat.ltb_spec 50 (m + 2)); [by right; left|].
    destruct Hm as [Hm | (v & Hv & Ht & Hm)]; [left; lia|].
    right; right. exists v. split; [done | split; [done | lia]].
  - intros Hnone. destruct Hm as [Hm | (v & Hv & Ht & Hm)].
    + rewrite Hm. done.
    + rewrite Forall_forall in Hnone. specialize (Hnone v Hv). congruence.
Qed.

End StyleFacts.

(** ** The downloader, and what the aggregator makes of its file names *)

Section DownloaderFacts.

Import Downloader.

Variable urljoin : string -> string -> string.

Local Abbreviation links := (get_monthly_links urljoin).

Lemma card_link_fields y c item :
  card_link urljoin y c = Some item ->
  year item = y
  /\ (exists text, header_text c = Some text
                   /\ Text.contains (py_str_int y) text = true
                   /\ parse_month text = Some (month item))
  /\ (exists h, h <> "" /\ url item = urljoin BASE_URL h).
Proof.
  unfold card_link. destruct (header_text c) as [text|]; [|done].
  destruct (Text.contains (py_str_int y) text) eqn:Hy; cbn [negb]; [|done].
  destruct (parse_month text) as [m|] eqn:Hm; [|done].
  destruct (match by_title _ with Some tag => Some tag | None => _ end)
    as [tag|]; [|done].
  destruct (href tag) as [h|]; [|done].
  destruct (String.eqb_spec h ""); [done|].
  intros He. apply (inj Some) in He. subst item. cbn [year month url].
  split; [done | split; [by exists text | by exists h]].
Qed.

Lemma parse_month_known text m : parse_month text = Some m -> m ∈ month_order.
Proof.
  unfold parse_month. intros [Hin _]%List.find_some.
  by apply list_elem_of_In.
Qed.

Lemma omap_Forall {A B} (f : A -> option B) (P : B -> Prop) (l : list A) :
  (forall a b, f a = Some b -> P b) -> Forall P (omap f l).
Proof.
  intros Hf. induction l as [|a l IH]; cbn [omap list_omap]; [constructor|].
  destruct (f a) as [b|] eqn:Hb; [|done]. constructor; [by eapply Hf | done].
Qed.

Lemma links_Forall (P : monthly_link -> Prop) page y :
  (forall c item, card_link urljoin y c = Some item -> P item) ->
  Forall P (links page y).
Proof.
  intros Hc. unfold get_monthly_links.
  destruct page as [page|]; [|constructor].
  destruct (year_ids y) as [year_id|]; [|by eapply omap_Forall].
  destruct (find_id page year_id) as [year_cards|]; [|constructor].
  by eapply omap_Forall.
Qed.

Lemma length_omap_le {A B} (f : A -> option B) (l : list A) :
  length (omap f l) <= length l.
Proof.
  induction l as [|a l IH]; cbn [omap list_omap]; [done|].
  destruct (f a); simpl; lia.
Qed.

Lemma find_first {A} (f : A -> bool) (l : list A) (x : A) :
  List.find f l = Some x <->
  exists i, l !! i = Some x /\ f x = true
            /\ forall j y, j < i -> l !! j = Some y -> f y = false.
Proof.
  induction l as [|a l IH]; cbn [List.find].
  - split; [done | by intros (i & ? & _)].
  - destruct (f a) eqn:Ha.
    + split.
      * intros [= <-]. exists 0. split; [done | split; [done|]]. intros; lia.
      * intros ([|i] & Hi & Hx & Hbefore).
        -- by injection Hi as ->.
        -- specialize (Hbefore 0 a ltac:(lia) eq_refl). congruence.
    + rewrite IH. split.
      * intros (i & Hi & Hx & Hbefore). exists (S i).
        split; [done | split; [done|]].
        intros [|j] y Hj Hy; [by injection Hy as <- |].
        apply (Hbefore j); [lia | done].
      * intros ([|i] & Hi & Hx & Hbefore).
        -- injection Hi as ->. congruence.
        -- exists i. split; [done | split; [done|]].
           intros j y Hj Hy. apply (Hbefore (S j)); [lia | done].
Qed.

(** X17. Without a page there are no links, and for a year with an id of
    its own there are none when the page has no element of that id.
    Otherwise the links are those of the cards searched, in the order of
    the page and at most one per card: the cards below the element of the
    year, or all cards of the page for a year without id.  A card gives a
    link exactly when it has a header that holds the year, written in
    decimal, and the name of a month, and when the link tag taken in its
    collapse element (or in the card itself, when it has none), the one
    found by title or else the one found by text, has a non-empty
    reference; the link is then for the year asked for, names the first
    month in calendar order that the header holds, and has the address
    joined from the base address and the reference. *)
Theorem monthly_links_shape (page : option soup) (y : Z) :
  links None y = []
  /\ (forall s year_id, year_ids y = Some year_id -> find_id s year_id = None ->
                        links (Some s) y = [])
  /\ (forall s, links (Some s) y = omap (card_link urljoin y) (searched_cards s y))
  /\ (forall c item,
         card_link urljoin y c = Some item <->
         exists text i tag h,
           header_text c = Some text
           /\ Text.contains (py_str_int y) text = true
           /\ month_order !! i = Some (month item)
           /\ Text.contains (month item) text = true
           /\ (forall j m, j < i -> month_order !! j = Some m ->
                           Text.contains m text = false)
           /\ link_in (default (whole c) (collapse c)) = Some tag
           /\ href tag = Some h
           /\ h <> ""
           /\ year item = y
           /\ url item = urljoin BASE_URL h)
  /\ Forall (fun item =>
               year item = y
               /\ month item ∈ month_order
               /\ exists h, h <> "" /\ url item = urljoin BASE_URL h)
            (links page y)
  /\ (forall s, length (links (Some s) y) <= length (searched_cards s y)).
Proof.
  assert (Hlinks : forall s,
             links (Some s) y = omap (card_link urljoin y) (searched_cards s y)).
  { intros s. unfold get_monthly_links, searched_cards.
    destruct (year_ids y) as [year_id|]; [|done].
    by destruct (find_id s year_id). }
  split; [done | split; [|split; [|split; [|split]]]].
  - intros s year_id Hid Hnone. unfold get_monthly_links. by rewrite Hid, Hnone.
  - done.
  - intros c item. unfold card_link, link_in. split.
    + destruct (header_text c) as [text|]; [|done].
      destruct (Text.contains (py_str_int y) text) eqn:Hy; cbn [negb]; [|done].
      destruct (parse_month text) as [m|] eqn:Hm; [|done].
      destruct (match by_title _ with Some tag => Some tag | None => _ end)
        as [tag|] eqn:Htag; [|done].
      destruct (href tag) as [h|] eqn:Hh; [|done].
      destruct (String.eqb_spec h "") as [|Hne]; [done|].
      intros He. apply (inj Some) in He. subst item. cbn [year month url].
      apply find_first in Hm as (i & Hi & Hin & Hbefore).
      exists text, i, tag, h. done.
    + intros (text & i & tag & h & -> & -> & Hi & Hin & Hbefore & -> & -> & Hne
              & Hyear & Hurl).
      cbn [negb].
      assert (Hm : parse_month text = Some (month item)).
      { apply find_first. by exists i. }
      rewrite Hm. apply String.eqb_neq in Hne. rewrite Hne.
      destruct item as [m y' u]. cbn [month year url] in *. by subst.
  - apply links_Forall. intros c item Hc.
    apply card_link_fields in Hc as (Hy & (text & _ & _ & Hm) & Hurl).
    split; [done | split; [by eapply parse_month_known | done]].
  - intros s. rewrite Hlinks. apply length_omap_le.
Qed.

Lemma no_char_app c (a b : string) :
  no_char c (a +:+ b) = no_char c a && no_char c b.
Proof.
  induction a as [|d a IH]; [done|].
  change (String d a +:+ b) with (String d (a +:+ b)).
  cbn [no_char]. by rewrite IH, andb_assoc.
Qed.

Lemma append_assoc (a b c : string) : (a +:+ b) +:+ c = a +:+ (b +:+ c).
Proof.
  induction a as [|d a IH]; [done|].
  change ((String d a +:+ b) +:+ c) with (String d ((a +:+ b) +:+ c)).
  by rewrite IH.
Qed.

(** The decimal digits [str] writes: accepted by [isdigit], free of the
    separators, and read back by [int]. *)
Lemma uint_digits (d : Decimal.uint) :
  all_chars is_digit_char (NilEmpty.string_of_uint d) = true
  /\ no_char "_" (NilEmpty.string_of_uint d) = true
  /\ no_char "." (NilEmpty.string_of_uint d) = true.
Proof.
  induction d as [|d (H1 & H2 & H3)|d (H1 & H2 & H3)|d (H1 & H2 & H3)
                  |d (H1 & H2 & H3)|d (H1 & H2 & H3)|d (H1 & H2 & H3)
                  |d (H1 & H2 & H3)|d (H1 & H2 & H3)|d (H1 & H2 & H3)
                  |d (H1 & H2 & H3)];
    cbn [NilEmpty.string_of_uint all_chars no_char]; [done|..];
    rewrite H1, H2, H3; done.
Qed.

Lemma int_of_uint (d : Decimal.uint) : forall a : nat,
  int_of_digits (Z.of_nat a) (NilEmpty.string_of_uint d)
  = Some (Z.of_nat (Nat.of_uint_acc d a)).
Proof.
  induction d as [|d IH|d IH|d IH|d IH|d IH|d IH|d IH|d IH|d IH|d IH];
    intros a; [done|..];
    cbn [NilEmpty.string_of_uint int_of_digits Nat.of_uint_acc];
    rewrite <- IH; f_equal; rewrite Nat.tail_mul_spec;
    vm_compute (Text.code _); cbn [Nat.leb andb Nat.sub]; f_equal; lia.
Qed.

Lemma to_uint_digits (n : nat) :
  NilEmpty.string_of_uint (Nat.to_uint n) <> "".
Proof.
  intros He. destruct (Nat.to_uint n) as [| | | | | | | | | |] eqn:Hn; try done.
  pose proof (Unsigned.of_to n) as Hof. rewrite Hn in Hof. cbn in Hof.
  subst n. vm_compute in Hn. done.
Qed.

(** [int(str(y))] is [y], and [str(y).isdigit()] holds, from 0 on. *)
Lemma py_int_str (y : Z) :
  (0 <= y)%Z ->
  py_isdigit (py_str_int y) = true
  /\ py_int (py_str_int y) = Some y
  /\ no_char "_" (py_str_int y) = true
  /\ no_char "." (py_str_int y) = true.
Proof.
  intros Hy. unfold py_str_int, py_isdigit, py_int.
  destruct (Z.ltb_spec y 0) as [?|_]; [lia|].
  destruct (uint_digits (Nat.to_uint (Z.to_nat y))) as (H1 & H2 & H3).
  rewrite H1, H2, H3. split; [|split; [|done]].
  - destruct (String.eqb_spec (NilEmpty.string_of_uint (Nat.to_uint (Z.to_nat y))) "")
      as [He|_]; [by apply to_uint_digits in He | done].
  - change 0%Z with (Z.of_nat 0). rewrite int_of_uint.
    change (Nat.of_uint_acc ?d 0) with (Nat.of_uint d).
    rewrite Unsigned.of_to. f_equal. lia.
Qed.

Lemma month_names_plain (m : string) :
  m ∈ month_order -> no_char "_" m = true /\ no_char "." m = true.
Proof.
  unfold month_order. rewrite !elem_of_cons, elem_of_nil.
  intros H. repeat (destruct H as [-> | H]; [by vm_compute|]). done.
Qed.

Lemma filename_period (y : Z) c item :
  (0 <= y)%Z ->
  card_link urljoin y c = Some item ->
  year item = y
  /\ period_label (filename item) = month item +:+ "_" +:+ py_str_int y
  /\ exists i, month_order !! i = Some (month item)
               /\ sort_months_key (period_label (filename item))
                  = (y, Z.of_nat i).
Proof.
  intros Hy Hc.
  apply card_link_fields in Hc as (Hyear & (text & _ & _ & Hm) & _).
  apply parse_month_known in Hm.
  destruct (py_int_str y Hy) as (Hdigit & Hint & Hu & Hd).
  destruct (month_names_plain _ Hm) as [Hmu Hmd].
  assert (Hlabel : period_label (filename item)
                   = month item +:+ "_" +:+ py_str_int y).
  { unfold filename. rewrite Hyear.
    rewrite <- (append_assoc "_"), <- (append_assoc (month item)).
    unfold period_label, Text.remove_all. simpl String.eqb. cbv iota.
    rewrite remove_all_aux_xls, remove_all_aux_none; [done | |];
      rewrite !no_char_app, Hmd, Hd; reflexivity. }
  split; [done | split; [done|]]. rewrite Hlabel.
  destruct (index_of_elem _ _ Hm) as (i & Hi & Hl). exists i. split; [done|].
  change ("_" +:+ py_str_int y) with (String "_" (py_str_int y)).
  unfold sort_months_key.
  by rewrite contains_sep, split_on_two, Hdigit, Hint, Hi.
Qed.

(** X18. For a year from 0 on, the file name that the downloader gives a
    link it found is read by the aggregator as the period of that link:
    the label is the month, an underscore and the year, and its key is the
    year with the position of the month in the calendar, never the
    fall-back. *)
Theorem downloaded_name_period (page : option soup) (y : Z) :
  (0 <= y)%Z ->
  Forall (fun item =>
            period_label (filename item) = month item +:+ "_" +:+ py_str_int y
            /\ exists i, month_order !! i = Some (month item)
                         /\ sort_months_key (period_label (filename item))
                            = (y, Z.of_nat i))
         (links page y).
Proof.
  intros Hy. apply links_Forall. intros c item Hc.
  by apply (filename_period y c item Hy) in Hc as (_ & Hlabel & Hkey).
Qed.

End DownloaderFacts.

(** ** The saved sheet, read back and laid out *)

Section SavedSheetFacts.

Variable float_repr : float -> string.
Variable float_of_text : string -> option float.
Variable infer_types : sheet -> sheet.

Local Abbreviation saved := (build_sheet float_of_text).

Lemma length_every_third (row : list pyval) : forall skip k,
  length row <= skip + 3 * k -> length (every_third skip row) <= k.
Proof.
  induction row as [|val row IH]; intros skip k; cbn [every_third length]; [lia|].
  destruct skip as [|skip]; intros Hlen.
  - destruct k as [|k]; [lia|]. cbn [length].
    specialize (IH 2 k). lia.
  - apply IH. lia.
Qed.

Lemma same_lengths (a b : sheet) n :
  length <$> a = length <$> b ->
  Forall (fun row => length row = n) b -> Forall (fun row => length row = n) a.
Proof.
  revert b. induction a as [|r a IH]; intros [|r' b] Hab Hb; try done.
  rewrite !fmap_cons in Hab. injection Hab as Hr Hab.
  apply Forall_cons in Hb as [Hr' Hb].
  constructor; [congruence | by eapply IH].
Qed.

(** X19. Reading back the workbook saved from a sheet that [main]
    assembled never raises, whatever the period labels and the entries
    that openpyxl accepts, when the type inference of the parser leaves
    the frames their rows and the rows their lengths: the read-back
    returns its dictionary.  When
    the inference leaves the frame of the months as it is, the period
    sequence read back holds, in order, the labels of the sheet that are
    texts coming back as written: not empty, not taken as a formula or an
    error value, and not read as missing. *)
Theorem saved_sheet_read_back_returns (months : list string) (p : portfolio) :
  let ws := saved months p in
  accepted_sheet ws = true ->
  length <$> infer_types (parse_lines 1 (Some 1) ws)
  = length <$> parse_lines 1 (Some 1) ws ->
  length <$> infer_types (parse_lines 3 None ws)
  = length <$> parse_lines 3 None ws ->
  exists d,
    read_portfolio_data float_repr float_of_text
      (Some (saved_workbook infer_types ws)) = Some (rb_dict d)
    /\ (infer_types (parse_lines 1 (Some 1) ws) = parse_lines 1 (Some 1) ws ->
        rb_months d = VStr <$> List.filter plain_text months).
Proof.
  intros ws _ Hmonths Hdata.
  unfold read_portfolio_data, saved_workbook, read_excel.
  cbn [df_months df_data].
  pose proof (build_sheet_rows_length float_of_text months p) as Hrows.
  assert (Hwide : Forall (fun row => length row = 3 + 3 * length months)
                         (infer_types (parse_lines 3 None ws))).
  { eapply same_lengths; [exact Hdata|]. subst ws.
    rewrite parse_lines_data. apply Forall_forall.
    intros row (r & <- & Hr)%list_elem_of_In%in_map_iff.
    rewrite length_map. rewrite Forall_forall in Hrows. apply Hrows.
    apply list_elem_of_In in Hr.
    exact (elem_of_sublist _ _ _ Hr (sublist_drop _ _)). }
  subst ws. rewrite parse_lines_months in Hmonths |- *.
  set (written := map na_cell _) in *.
  assert (Hwritten : length written <= 3 + 3 * length months).
  { unfold written. rewrite length_map.
    etransitivity; [apply length_trim_row|].
    rewrite length_map, length_app, length_fmap.
    rewrite (length_flat_map3 (fun m => [VStr m; VNone; VNone])) by done.
    simpl. lia. }
  destruct (infer_types [written]) as [|month_row [|? ?]] eqn:Hread; try done.
  cbn [fmap list_fmap] in Hmonths. injection Hmonths as Hlen.
  cbn [head mbind option_bind].
  set (labels := filter _ _).
  assert (Hlabels : length labels <= length months).
  { unfold labels. etransitivity; [apply length_filter|].
    apply length_every_third. lia. }
  destruct (read_rows float_repr float_of_text labels _)
    as [data|] eqn:Hrb; cbn [mbind option_bind].
  - eexists. split; [done|]. intros [= ->]. cbn [rb_months].
    unfold labels, written. apply saved_months.
  - exfalso. apply read_rows_none in Hrb.
    apply Exists_exists in Hrb as (row & Hrow & Hbad).
    rewrite Forall_forall in Hwide. specialize (Hwide row Hrow).
    destruct Hbad as [-> | [_ Hshort]]; simpl in *; lia.
Qed.

Local Abbreviation widths := (column_widths float_repr).

Lemma length_le_max_column (ws : sheet) row :
  row ∈ ws -> length row <= max_column ws.
Proof.
  unfold max_column. induction ws as [|r ws IH]; [by intros ?%elem_of_nil|].
  rewrite fmap_cons. cbn [foldr].
  intros [-> | Hin]%elem_of_cons; [lia|]. specialize (IH Hin). lia.
Qed.

Lemma max_column_uniform (ws : sheet) n :
  ws <> [] -> Forall (fun row => length row = n) ws -> max_column ws = n.
Proof.
  unfold max_column. intros Hne Hall.
  induction Hall as [|r ws Hr Hall IH]; [done|].
  rewrite fmap_cons. cbn [foldr]. destruct ws as [|r' ws].
  - simpl. lia.
  - rewrite IH by done. lia.
Qed.

Lemma column_width_room (column : list pyval) v :
  v ∈ column -> truthy v = true ->
  Nat.min 50 (String.length (py_str float_repr v) + 2)
  <= column_width float_repr column <= 50.
Proof.
  intros Hv Ht. unfold column_width, max_length.
  destruct (max_length_acc float_repr column 0) as (_ & Hall & _).
  rewrite Forall_forall in Hall. specialize (Hall v Hv Ht).
  remember (fold_left _ column 0) as m eqn:Em.
  destruct (Nat.ltb_spec 50 (m + 2)); lia.
Qed.

Lemma lookup_seq_from (start len i : nat) :
  i < len -> seq start len !! i = Some (start + i).
Proof.
  revert start i. induction len as [|len IH]; intros start [|i] Hi; simpl;
    try lia; [f_equal; lia|].
  rewrite IH by lia. f_equal. lia.
Qed.

(** X20. Every column of a sheet gets a width, as many as the longest row
    has cells, and for the sheet [main] assembled that is three and three
    per period; a cell whose value counts as true has, up to the cap of 50,
    two characters of room in the width of its column. *)
Theorem widths_cover_sheet (ws : sheet) :
  length (widths ws) = max_column ws
  /\ (forall months p,
        length (widths (saved months p)) = 3 + 3 * length months)
  /\ (forall r row i v,
        ws !! r = Some row -> row !! i = Some v -> truthy v = true ->
        exists w, widths ws !! i = Some w
                  /\ Nat.min 50 (String.length (py_str float_repr v) + 2) <= w
                  /\ w <= 50).
Proof.
  assert (Hlen : forall ws', length (widths ws') = max_column ws').
  { intros ws'. unfold column_widths. by rewrite length_map, length_seq. }
  split; [apply Hlen | split].
  - intros months p. rewrite Hlen.
    apply max_column_uniform; [done | apply build_sheet_rows_length].
  - intros r row i v Hrow Hv Ht.
    assert (Hi : i < max_column ws).
    { apply lookup_lt_Some in Hv.
      pose proof (length_le_max_column ws row
                    (list_elem_of_lookup_2 _ _ _ Hrow)). lia. }
    unfold column_widths. rewrite lookup_map, lookup_seq_from by done.
    cbn [fmap option_fmap option_map]. eexists. split; [done|].
    apply column_width_room; [|done].
    unfold sheet_column. apply list_elem_of_In, in_map_iff. exists row.
    replace (1 + i - 1) with i by lia. rewrite Hv. split; [done|].
    apply list_elem_of_In. by eapply list_elem_of_lookup_2.
Qed.

End SavedSheetFacts.

(** ** What the downloader asks for *)

Section DownloadFacts.

Variable urljoin : string -> string -> string.

(** X21. [main] of the downloader asks for the links of 2025 in the order
    of the page; each download is named after a month of the calendar, as
    the month, an underscore, 2025 and the extension xls, and the
    aggregator reads that name as the period with the key of 2025 and the
    position of the month. *)
Theorem downloads_are_periods_of_2025 (page : option Downloader.soup) :
  (Downloader.main urljoin page).*1
  = Downloader.url <$> Downloader.get_monthly_links urljoin page 2025
  /\ Forall (fun download =>
               exists i m,
                 month_order !! i = Some m
                 /\ download.2 = m +:+ "_2025.xls"
                 /\ period_label download.2 = m +:+ "_2025"
                 /\ sort_months_key (period_label download.2)
                    = (2025%Z, Z.of_nat i))
            (Downloader.main urljoin page).
Proof.
  unfold Downloader.main. split.
  - rewrite <- list_fmap_compose. by apply list_fmap_ext.
  - apply Forall_fmap, links_Forall. intros c item Hc.
    apply (filename_period urljoin 2025) in Hc
      as (Hyear & Hlabel & i & Hi & Hkey); [|lia].
    exists i, (Downloader.month item). cbn [compose snd].
    split; [done | split; [|split; [|done]]].
    + unfold Downloader.filename. by rewrite Hyear.
    + by rewrite Hlabel.
Qed.

End DownloadFacts.

(** ** The further properties on the example inputs *)

Lemma rows_after_stop_ignored_witness :
  scan example_repr example_series false
       [(0, marker_row); (1, acme_row); (2, sub_total_row); (3, gamma_row)]
  = Some [acme_row].
Proof.
  apply (rows_after_stop_ignored example_repr example_series
           [] (0, marker_row) [(1, acme_row)] (2, sub_total_row)
           [(3, gamma_row)]).
  - constructor.
  - reflexivity.
  - repeat constructor.
  - repeat constructor.
  - reflexivity.
  - reflexivity.
Defined.

Lemma no_start_marker_no_rows_witness :
  read_portfolio_file example_repr example_series
    (Some (plain_book unmarked_sheet)) = Some [].
Proof.
  apply (no_start_marker_no_rows example_repr example_series
           (plain_book unmarked_sheet) 0
           {| columns := [VStr "Name of the Instrument"; VStr "ISIN";
                          VStr "Quantity"];
              frame_body := [[VStr "Acme Ltd"; VStr "INE123"; VNum 100]] |}).
  - reflexivity.
  - reflexivity.
  - repeat constructor.
Defined.

Lemma merge_touches_one_period_witness :
  exists e',
    Dict.get "INE123" scenario_portfolio = Some e'
    /\ Months e' !! "January_2025" = Months acme_after_january !! "January_2025".
Proof.
  destruct (proj2 (merge_touches_one_period example_repr "February_2025"
                     (merge_records example_repr "January_2025" [] [acme_january])
                     [acme_february; beta_february] "INE123")
              acme_after_january eq_refl)
    as (e' & He' & Hmonths).
  exists e'. split; [exact He'|]. apply Hmonths. discriminate.
Defined.

Lemma column_total_is_sum_witness :
  column_totals example_float two_months scenario_portfolio !! 3
  = Some (PrimFloat.add (PrimFloat.add PrimFloat.zero 120) 10).
Proof.
  apply (column_total_is_sum example_float two_months scenario_portfolio
           1 0 "February_2025").
  - reflexivity.
  - lia.
Defined.

Lemma data_cell_written_witness :
  data_row example_float two_months beta_item !! 3 = Some VNone
  /\ data_row example_float two_months beta_item !! 6 = Some (VNum 10).
Proof.
  split.
  - apply (proj2 (data_cell_written example_float two_months beta_item
                    0 0 "January_2025" eq_refl (Nat.lt_0_succ 2))).
    reflexivity.
  - apply (proj1 (data_cell_written example_float two_months beta_item
                    1 0 "February_2025" eq_refl (Nat.lt_0_succ 2))).
Defined.

Lemma period_label_of_xls_witness :
  period_label "January_2025.xls" = "January_2025".
Proof. apply (period_label_of_xls "January_2025"). reflexivity. Defined.

Lemma read_back_records_sound_witness :
  exists d,
    read_portfolio_data example_repr example_float
      (Some (saved_workbook example_infer one_period_sheet)) = Some (rb_dict d)
    /\ Forall (fun m => notna m = true) (rb_months d)
    /\ Forall (sound_record (rb_months d)) (rb_records d).
Proof.
  eexists. split; [vm_compute; reflexivity|].
  apply (read_back_records_sound example_repr example_float
           (saved_workbook example_infer one_period_sheet)).
  vm_compute. reflexivity.
Defined.

Lemma saved_sheet_read_back_returns_witness :
  exists d,
    read_portfolio_data example_repr example_float
      (Some (saved_workbook example_infer
               (build_sheet example_float two_months scenario_portfolio)))
    = Some (rb_dict d)
    /\ rb_months d = [VStr "January_2025"; VStr "February_2025"].
Proof.
  destruct (saved_sheet_read_back_returns example_repr example_float
              example_infer two_months scenario_portfolio
              eq_refl eq_refl eq_refl)
    as (d & Hd & Hmonths).
  exists d. split; [exact Hd | exact (Hmonths eq_refl)].
Defined.

Lemma downloaded_name_period_witness :
  Downloader.get_monthly_links example_urljoin (Some example_page) 2025
  = [ {| Downloader.month := "March"; Downloader.year := 2025;
         Downloader.url :=
           "https://amc.ppfas.com/downloads/portfolio-disclosure/files/PPFCF_March_2025.xls" |} ]
  /\ Forall (fun item =>
               period_label (Downloader.filename item)
               = Downloader.month item +:+ "_" +:+ py_str_int 2025
               /\ exists i, month_order !! i = Some (Downloader.month item)
                            /\ sort_months_key
                                 (period_label (Downloader.filename item))
                               = (2025%Z, Z.of_nat i))
            (Downloader.get_monthly_links example_urljoin (Some example_page) 2025).
Proof.
  split; [vm_compute; reflexivity|].
  apply (downloaded_name_period example_urljoin (Some example_page) 2025). lia.
Defined.
